(** * RPA_Challenge: the news search-and-extraction pipeline of [tasks.py]

    A shallow embedding of [tasks.py] and the properties of its pipeline:
    the date window ([DateCalculator]), the text heuristics
    ([FoxNewsSearch.phrase_counter], [FoxNewsSearch.contains_money]), the image
    download, the report writer ([ExcelCreator]) and the task [minimal_task]
    that composes them.

    Conventions of the embedding.
    - Python [int] is [Z]; [str] is [string], read as ASCII text.
    - Code with effects is written in the monad [M]: a state [world] (the
      trace of observable events and the file system) with Python exceptions.
      What the task reads from outside (payload, clock, environment
      variable, secret, page, HTTP server, module namespace) is the record
      [env].
    - [logging.debug] emits nothing: line 19 configures the level [INFO].
    - Line 261 of the source is indented by three spaces; it is read here
      at the level of the function body, as the statement after the loop.
    - The page, the secret store and the HTTP server answer every call;
      an article element has the four sub-elements that the loop reads.
    - A file is named by the path string handed to the call that writes it,
      and every such call succeeds. A saved workbook is the cells of the
      sheet that [Workbook.save] receives; the encoding of the file is not
      modelled. *)

From Stdlib Require Import ZArith Lia Bool Ascii String.
From stdpp Require Import base tactics option list numbers strings gmap pretty.

Local Open Scope Z_scope.

(** ** Python values that the task handles

    The values of the payload and of the report cells: [None], booleans,
    integers and strings. *)

Inductive pyval :=
| VNone
| VBool (b : bool)
| VInt (n : Z)
| VStr (s : string).

Inductive exn :=
| TypeError (what : string)
| NameError (name : string)
| OverflowError (what : string)
| ValueError (what : string)
| KeyError (key : string)
| AttributeError (what : string)
| IllegalCharacterError (what : string).

(** ** The proleptic Gregorian calendar of [datetime] *)

Module Calendar.

Record datetime := mkdt {
  year : Z; month : Z; day : Z;
  hour : Z; minute : Z; second : Z; microsecond : Z
}.

Definition MINYEAR : Z := 1.
Definition MAXYEAR : Z := 9999.

Definition is_leap (y : Z) : bool :=
  (y mod 4 =? 0) && (negb (y mod 100 =? 0) || (y mod 400 =? 0)).

Definition days_in_month (y m : Z) : Z :=
  if (m =? 2) && is_leap y then 29
  else if m =? 2 then 28
  else if (m =? 4) || (m =? 6) || (m =? 9) || (m =? 11) then 30
  else 31.

(** [datetime._days_before_year], [_days_before_month] and [_ymd2ord]:
    the day number that [date.toordinal] returns, 0001-01-01 being day 1. *)
Definition days_before_year (y : Z) : Z :=
  let y' := y - 1 in y' * 365 + y' / 4 - y' / 100 + y' / 400.

Definition DAYS_BEFORE_MONTH (m : Z) : Z :=
  match m with
  | 1 => 0 | 2 => 31 | 3 => 59 | 4 => 90 | 5 => 120 | 6 => 151
  | 7 => 181 | 8 => 212 | 9 => 243 | 10 => 273 | 11 => 304 | 12 => 334
  | _ => 0
  end.

Definition days_before_month (y m : Z) : Z :=
  DAYS_BEFORE_MONTH m + (if (2 <? m) && is_leap y then 1 else 0).

Definition toordinal (d : datetime) : Z :=
  days_before_year (year d) + days_before_month (year d) (month d) + day d.

(** The dates a [datetime] object can hold. *)
Definition valid (d : datetime) : Prop :=
  MINYEAR <= year d <= MAXYEAR /\ 1 <= month d <= 12 /\
  1 <= day d <= days_in_month (year d) (month d).

Definition validb (d : datetime) : bool :=
  (MINYEAR <=? year d) && (year d <=? MAXYEAR) &&
  (1 <=? month d) && (month d <=? 12) &&
  (1 <=? day d) && (day d <=? days_in_month (year d) (month d)).

(** [d.replace(day=n)]: every other field is kept. *)
Definition replace_day (d : datetime) (n : Z) : datetime :=
  mkdt (year d) (month d) n (hour d) (minute d) (second d) (microsecond d).

Definition with_date (d : datetime) (y m dd : Z) : datetime :=
  mkdt y m dd (hour d) (minute d) (second d) (microsecond d).

(** The day before and the day after; [None] outside [MINYEAR..MAXYEAR],
    where [datetime] raises [OverflowError]. *)
Definition prev_day (d : datetime) : option datetime :=
  if 1 <? day d then Some (with_date d (year d) (month d) (day d - 1))
  else if 1 <? month d then
    Some (with_date d (year d) (month d - 1) (days_in_month (year d) (month d - 1)))
  else if MINYEAR <? year d then Some (with_date d (year d - 1) 12 31)
  else None.

Definition next_day (d : datetime) : option datetime :=
  if day d <? days_in_month (year d) (month d)
  then Some (with_date d (year d) (month d) (day d + 1))
  else if month d <? 12 then Some (with_date d (year d) (month d + 1) 1)
  else if year d <? MAXYEAR then Some (with_date d (year d + 1) 1 1)
  else None.

Fixpoint iter_opt {A} (f : A -> option A) (n : nat) (a : A) : option A :=
  match n with
  | O => Some a
  | S n' => match f a with Some a' => iter_opt f n' a' | None => None end
  end.

(** [d - timedelta(days=k)]: the date [k] days earlier, the time of day
    unchanged; [None] stands for [OverflowError]. *)
Definition sub_days (d : datetime) (k : Z) : option datetime :=
  if 0 <=? k then iter_opt prev_day (Z.to_nat k) d
  else iter_opt next_day (Z.to_nat (- k)) d.

(** Comparison of two naive [datetime]s: lexicographic on the fields. *)
Definition fields (d : datetime) : list Z :=
  [year d; month d; day d; hour d; minute d; second d; microsecond d].

Fixpoint lex_leb (a b : list Z) : bool :=
  match a, b with
  | x :: a', y :: b' => (x <? y) || ((x =? y) && lex_leb a' b')
  | [], _ => true
  | _ :: _, [] => false
  end.

Definition dt_leb (a b : datetime) : bool := lex_leb (fields a) (fields b).

(** Months counted from January of year 1. *)
Definition month_index (d : datetime) : Z := 12 * (year d - 1) + (month d - 1).

Definition last_of_month (d : datetime) : bool :=
  day d =? days_in_month (year d) (month d).

(** The last day of the month before the month of [d]; [None] before
    January of [MINYEAR]. *)
Definition last_of_previous_month (d : datetime) : option datetime :=
  if 1 <? month d then
    Some (with_date d (year d) (month d - 1) (days_in_month (year d) (month d - 1)))
  else if MINYEAR <? year d then Some (with_date d (year d - 1) 12 31)
  else None.

(** The time of day of two [datetime]s is the same. *)
Definition same_time (a b : datetime) : Prop :=
  hour a = hour b /\ minute a = minute b /\ second a = second b /\
  microsecond a = microsecond b.

End Calendar.

Import Calendar.

(** ** Observable events, the world and the monad of effects *)

Inductive level := INFO | ERROR.

(** An argument of a logging call, kept unformatted as [LogRecord.args] does. *)
Inductive logarg :=
| AVal (v : pyval)
| AList (l : list pyval)
| ADict (d : gmap string pyval).

(** The XPath handed to a page call: a literal of the source, or one of its
    two f-string templates for an option of a drop-down list. *)
Inductive locator :=
| XPath (literal : string)
| ListOption (id : string)       (* //li[@id='X' and @class='X' and .='X'] *)
| ListOptionById (id : string).  (* //li[@id='X'] *)

Definition xpath_of (l : locator) : string :=
  match l with
  | XPath literal => literal
  | ListOption id =>
      "//li[@id='" +:+ id +:+ "' and @class='" +:+ id +:+ "' and .='" +:+ id +:+ "']"
  | ListOptionById id => "//li[@id='" +:+ id +:+ "']"
  end.

Inductive event :=
| Log (lv : level) (msg : string) (args : list logarg)
| Sleep (secs : Z)
| Configure (engine screenshot : string) (headless : bool)
| GetSecret (name : string)
| Goto (url : string)
| Click (target : locator)
| Fill (target : locator) (text : string)
| IsHidden (target : locator) (hidden : bool)
| InnerText (target : locator)
| HttpGet (url : string)
| ClosePage.

(** An openpyxl worksheet: the cells by (row, column), both counted from 1,
    and [_current_row], the row of the last [append]. A saved workbook has
    the cells and no cursor. *)
Record worksheet := mkws {
  cells : gmap (nat * nat) pyval;
  current_row : nat
}.

Inductive file :=
| Bytes (body : string)
| Xlsx (cs : gmap (nat * nat) pyval).

Record world := mkworld {
  trace : list event;
  fs : gmap string file
}.

Inductive outcome (A : Type) :=
| Ok (a : A)
| Raise (e : exn)
| Diverge.
Arguments Ok {A} a.
Arguments Raise {A} e.
Arguments Diverge {A}.

Definition M (A : Type) : Type := world -> world * outcome A.

Definition ret {A} (a : A) : M A := fun w => (w, Ok a).

Definition bind {A B} (m : M A) (k : A -> M B) : M B :=
  fun w =>
    match m w with
    | (w', Ok a) => k a w'
    | (w', Raise e) => (w', Raise e)
    | (w', Diverge) => (w', Diverge)
    end.

Definition raise {A} (e : exn) : M A := fun w => (w, Raise e).
Definition diverge {A} : M A := fun w => (w, Diverge).

Global Instance M_ret : MRet M := @ret.
Global Instance M_bind : MBind M := fun A B k m => bind m k.

Definition emit (e : event) : M unit :=
  fun w => (mkworld (trace w ++ [e]) (fs w), Ok tt).

Definition write_file (path : string) (f : file) : M unit :=
  fun w => (mkworld (trace w) (<[path := f]> (fs w)), Ok tt).

Definition get_trace : M (list event) := fun w => (w, Ok (trace w)).

Module logging.
Definition info (msg : string) (args : list logarg) : M unit := emit (Log INFO msg args).
Definition error (msg : string) (args : list logarg) : M unit := emit (Log ERROR msg args).
End logging.

Module time.
Definition sleep (secs : Z) : M unit := emit (Sleep secs).
End time.

(** [for _ in range(n): x = body(x)] *)
Fixpoint for_range {A} (n : nat) (body : A -> M A) (x : A) : M A :=
  match n with
  | O => ret x
  | S n' => x' ← body x; for_range n' body x'
  end.

(** ** DateCalculator *)

Module DateCalculator.

(** [start_date -= timedelta(days=start_date.day)] *)
Definition step_back (start_date : datetime) : M datetime :=
  match sub_days start_date (day start_date) with
  | Some d => ret d
  | None => raise (OverflowError "date value out of range")
  end.

Definition calculate (actual_date : datetime) (months : Z)
  : M (datetime * datetime) :=
  logging.info "Calculating date from %d months ago." [AVal (VInt months)];;
  let start_date := replace_day actual_date 1 in
  start_date ← for_range (Z.to_nat months) step_back start_date;
  ret (start_date, actual_date).

End DateCalculator.

(** ** Python strings and regular expressions *)

Module Str.

Definition code (c : ascii) : N := N_of_ascii c.

(** [str.isspace] on ASCII: TAB..CR, FS..US and the space. *)
Definition isspace (c : ascii) : bool :=
  ((9 <=? code c) && (code c <=? 13) || (28 <=? code c) && (code c <=? 32))%N.

Definition isdigit (c : ascii) : bool := ((48 <=? code c) && (code c <=? 57))%N.

Definition isupper (c : ascii) : bool := ((65 <=? code c) && (code c <=? 90))%N.

Definition islower (c : ascii) : bool := ((97 <=? code c) && (code c <=? 122))%N.

(** [\w]: a letter, a digit or the underscore. *)
Definition isword (c : ascii) : bool :=
  isupper c || islower c || isdigit c || (code c =? 95)%N.

Definition lower_char (c : ascii) : ascii :=
  if isupper c then ascii_of_N (code c + 32) else c.

(** [s.lower()] *)
Fixpoint lower (s : string) : string :=
  match s with
  | EmptyString => EmptyString
  | String c s' => String (lower_char c) (lower s')
  end.

(** [s.split()]: the maximal runs of characters that are not whitespace.
    [cur] is the run being read, if any, in reverse. *)
Fixpoint split_go (cur : option string) (s : string) : list string :=
  match s with
  | EmptyString => option_list (String.rev <$> cur)
  | String c s' =>
      if isspace c
      then option_list (String.rev <$> cur) ++ split_go None s'
      else split_go (Some (String c (default EmptyString cur))) s'
  end.

Definition split (s : string) : list string := split_go None s.

(** [str(n)] and the f-string rendering of the values of the task. *)
Definition of_int (n : Z) : string := pretty n.

Definition str (v : pyval) : string :=
  match v with
  | VNone => "None"
  | VBool true => "True"
  | VBool false => "False"
  | VInt n => of_int n
  | VStr s => s
  end.

End Str.

(** [l[i:j]] for [0 <= i <= j]. *)
Definition slice {A} (l : list A) (i j : nat) : list A := take (j - i) (drop i l).

(** [range(n)] *)
Definition range (n : Z) : list nat := seq 0 (Z.to_nat n).

(** [sum(...)] of integers *)
Definition sum (l : list Z) : Z := foldl Z.add 0 l.

(** The fragment of [re] that [money_pattern] is written in. A matcher
    state is the character before the position, if any, and the text from
    the position on; [ends r st] lists the states after each way [r] can
    match at [st], the preferred one first. *)
Module re.

Inductive regex :=
| Eps
| Class (p : ascii -> bool)        (* one character of a class *)
| ClassPlus (p : ascii -> bool)    (* [...]+ *)
| ClassStar (p : ascii -> bool)    (* [...]* *)
| Seq (r1 r2 : regex)
| Alt (r1 r2 : regex)
| Opt (r : regex)                  (* (?:r)? *)
| WordBoundary.                    (* \b *)

Definition state : Type := option ascii * list ascii.

Definition word_at (c : option ascii) : bool :=
  match c with Some c => Str.isword c | None => false end.

(** [\b]: exactly one side of the position is a word character. *)
Definition at_boundary (st : state) : bool :=
  xorb (word_at (fst st)) (word_at (head (snd st))).

Fixpoint star_ends (p : ascii -> bool) (prev : option ascii) (s : list ascii)
  : list state :=
  match s with
  | c :: s' => if p c then star_ends p (Some c) s' ++ [(prev, s)] else [(prev, s)]
  | [] => [(prev, [])]
  end.

Definition class_end (p : ascii -> bool) (st : state) : list state :=
  match snd st with
  | c :: s' => if p c then [(Some c, s')] else []
  | [] => []
  end.

Fixpoint ends (r : regex) (st : state) : list state :=
  match r with
  | Eps => [st]
  | Class p => class_end p st
  | ClassPlus p => st' ← class_end p st; star_ends p (fst st') (snd st')
  | ClassStar p => star_ends p (fst st) (snd st)
  | Seq r1 r2 => st' ← ends r1 st; ends r2 st'
  | Alt r1 r2 => ends r1 st ++ ends r2 st
  | Opt r => ends r st ++ [st]
  | WordBoundary => if at_boundary st then [st] else []
  end.

(** The character before the position reached after reading [cs]. *)
Definition last_char (prev : option ascii) (cs : list ascii) : option ascii :=
  match last cs with Some c => Some c | None => prev end.

(** The literal text [s]. *)
Definition lit (s : list ascii) : regex :=
  foldr (fun c r => Seq (Class (Ascii.eqb c)) r) Eps s.

(** Every position of the text, as a matcher state. *)
Fixpoint positions (prev : option ascii) (s : list ascii) : list state :=
  (prev, s) ::
  match s with
  | c :: s' => positions (Some c) s'
  | [] => []
  end.

(** [bool(re.findall(r, text))]: the list of matches is not empty exactly
    when [r] matches at some position. *)
Definition found (r : regex) (text : string) : bool :=
  existsb (fun st => negb (bool_decide (ends r st = [])))
          (positions None (list_ascii_of_string text)).

End re.

(** ** FoxNewsSearch: the text heuristics *)

Module FoxNewsSearch.
Import re.

Definition phrase_counter (text phrase : string) : Z :=
  let text_words := Str.split (Str.lower text) in
  let phrase_words := Str.split (Str.lower phrase) in
  sum ((fun _ => 1) <$>
       filter (fun i => slice text_words i (i + length phrase_words) = phrase_words)
              (range (Z.of_nat (length text_words)
                      - Z.of_nat (length phrase_words) + 1))).

Definition digit_or_comma (c : ascii) : bool := Str.isdigit c || Ascii.eqb c ",".

(** [\$[\d,]+(?:\.\d+)?] *)
Definition dollar_pattern : regex :=
  Seq (Class (Ascii.eqb "$"))
      (Seq (ClassPlus digit_or_comma)
           (Opt (Seq (Class (Ascii.eqb ".")) (ClassPlus Str.isdigit)))).

(** [\b\d+\s*(?:dollars|USD)\b] *)
Definition unit_pattern : regex :=
  Seq WordBoundary
      (Seq (ClassPlus Str.isdigit)
           (Seq (ClassStar Str.isspace)
                (Seq (Alt (lit (list_ascii_of_string "dollars"))
                          (lit (list_ascii_of_string "USD")))
                     WordBoundary))).

(** [money_pattern = r'\$[\d,]+(?:\.\d+)?|\b\d+\s*(?:dollars|USD)\b'] *)
Definition money_pattern : regex := Alt dollar_pattern unit_pattern.

Definition contains_money (text : string) : bool := found money_pattern text.

End FoxNewsSearch.

(** ** What the task reads from outside *)

(** An article element with the four sub-elements that the loop looks up. *)
Record article := mkarticle {
  title : string;
  image_src : string;
  description : string;
  date : string
}.

(** An object bound to a global name: a value, a Selenium driver (with the
    elements its [find_elements] returns), or anything else (a module, a
    class, a function), each with what [str] makes of it. *)
Inductive pyobj :=
| OVal (v : pyval)
| ODriver (repr : string) (elements : list article)
| OOther (repr : string).

Record response := mkresponse {
  status_code : Z;
  raw : string
}.

Record env := mkenv {
  payload : gmap string pyval;          (* workitems.inputs.current.payload *)
  now : datetime;                       (* datetime.now() *)
  ROBOT_ARTIFACTS : option string;      (* os.environ.get('ROBOT_ARTIFACTS') *)
  secrets : gmap string string;         (* vault.get_secret('Rpa_Challenge') *)
  load_more_hidden : list event -> bool;(* is the control hidden, after these events *)
  num_found : string;                   (* text of the result counter *)
  http : string -> response;            (* requests.get(url, stream=True) *)
  globals : gmap string pyobj           (* the names bound at module level *)
}.

(** The names that [tasks.py] binds at module level: its imports, its three
    classes and its task. Neither [driver] nor [i] is among them. *)
Definition module_names : list string :=
  ["os"; "time"; "re"; "logging"; "requests"; "shutil"; "datetime"; "timedelta";
   "Path"; "Workbook"; "webdriver"; "Options"; "By"; "Keys"; "WebDriverWait";
   "task"; "workitems"; "browser"; "vault";
   "DateCalculator"; "ExcelCreator"; "FoxNewsSearch"; "minimal_task"].

Definition module_namespace : gmap string pyobj :=
  list_to_map ((fun name => (name, OOther ("<" +:+ name +:+ ">"))) <$> module_names).

(** A global name read in a function body. *)
Definition load_global (e : env) (name : string) : M pyobj :=
  match globals e !! name with
  | Some o => ret o
  | None => raise (NameError name)
  end.

Definition obj_str (o : pyobj) : string :=
  match o with
  | OVal v => Str.str v
  | ODriver repr _ => repr
  | OOther repr => repr
  end.

(** ** pathlib, on POSIX

    A path is its root (nothing, one slash or exactly two) and its
    components: the pieces between slashes, the empty ones and the dots
    dropped. *)

Module Path.

Record t := mk {
  root : string;
  parts : list string
}.

(** [s.split('/')]; [cur] is the piece being read, in reverse. *)
Fixpoint split_go (cur : string) (s : string) : list string :=
  match s with
  | EmptyString => [String.rev cur]
  | String c s' =>
      if Ascii.eqb c "/" then String.rev cur :: split_go EmptyString s'
      else split_go (String c cur) s'
  end.

Fixpoint leading_slashes (s : string) : nat :=
  match s with
  | String c s' => if Ascii.eqb c "/" then S (leading_slashes s') else O
  | EmptyString => O
  end.

(** [splitroot]: two leading slashes are kept, any other number is one. *)
Definition splitroot (s : string) : string :=
  match leading_slashes s with
  | O => ""
  | 2%nat => "//"
  | _ => "/"
  end.

Definition component (x : string) : bool :=
  negb (String.eqb x "" || String.eqb x ".").

(** [Path(s)] *)
Definition parse (s : string) : t :=
  mk (splitroot s) (List.filter component (split_go EmptyString s)).

(** [self / other]: an absolute [other] replaces [self]. *)
Definition joinpath (self : t) (other : string) : t :=
  let o := parse other in
  if String.eqb (root o) "" then mk (root self) (parts self ++ parts o) else o.

(** [str(self)] *)
Definition str (self : t) : string :=
  if String.eqb (root self) "" && bool_decide (parts self = [])
  then "."
  else root self +:+ String.concat "/" (parts self).

End Path.

(** [str(Path(output_dir) / filename)] *)
Definition output_path (output_dir filename : string) : string :=
  Path.str (Path.joinpath (Path.parse output_dir) filename).

(** [Path(os.environ.get('ROBOT_ARTIFACTS')) / filename] *)
Definition artifact_path (e : env) (filename : string) : M string :=
  match ROBOT_ARTIFACTS e with
  | Some output_dir => ret (output_path output_dir filename)
  | None => raise (TypeError "expected str, bytes or os.PathLike object, not NoneType")
  end.

(** ** openpyxl: what a cell takes

    [Cell.check_string] cuts a string to 32767 characters and refuses it
    when what is left holds a control character other than TAB, LF and CR;
    every other value is stored as it is. *)

Module Cell.

(** [ILLEGAL_CHARACTERS_RE]: codes 0-8, 11-12 and 14-31. *)
Definition illegal (c : ascii) : bool :=
  let n := Str.code c in
  ((n <=? 8) || (11 <=? n) && (n <=? 12) || (14 <=? n) && (n <=? 31))%N.

(** [value[:n]] *)
Fixpoint truncate (n : N) (value : string) : string :=
  match value with
  | EmptyString => EmptyString
  | String c value' =>
      if (n =? 0)%N then EmptyString else String c (truncate (N.pred n) value')
  end.

Definition MAX_LENGTH : N := 32767.

Definition check_string (value : string) : exn + string :=
  let value := truncate MAX_LENGTH value in
  if existsb illegal (list_ascii_of_string value)
  then inl (IllegalCharacterError (value +:+ " cannot be used in worksheets."))
  else inr value.

(** [Cell(ws, row, column, value)]: the value that the new cell holds. *)
Definition bind_value (value : pyval) : exn + pyval :=
  match value with
  | VStr s =>
      match check_string s with
      | inl x => inl x
      | inr s' => inr (VStr s')
      end
  | _ => inr value
  end.

(** A value that a cell stores unchanged. *)
Definition accepts (value : pyval) : bool :=
  match value with
  | VStr s =>
      (N.of_nat (String.length s) <=? MAX_LENGTH)%N &&
      negb (existsb illegal (list_ascii_of_string s))
  | _ => true
  end.

(** A value that shows in a saved sheet: neither [None] nor the empty string. *)
Definition shows (value : pyval) : bool :=
  match value with
  | VNone => false
  | VStr s => negb (String.eqb s "")
  | _ => true
  end.

End Cell.

(** ** ExcelCreator *)

Module ExcelCreator.

Record t := mk {
  filename : string;
  sheet : worksheet
}.

(** [Worksheet.append]: the values go to the row after [_current_row], in
    columns 1, 2, ..., one new cell after the other. A value that its cell
    refuses stops the call: the cells before it stay and [_current_row],
    set on the last line, is not moved. *)
Fixpoint put_cells (row_idx col_idx : nat) (values : list pyval)
                   (cs : gmap (nat * nat) pyval)
  : gmap (nat * nat) pyval * option exn :=
  match values with
  | [] => (cs, None)
  | content :: values' =>
      match Cell.bind_value content with
      | inr value => put_cells row_idx (S col_idx) values' (<[(row_idx, col_idx) := value]> cs)
      | inl x => (cs, Some x)
      end
  end.

Definition append (ws : worksheet) (values : list pyval) : worksheet * option exn :=
  let row_idx := S (current_row ws) in
  match put_cells row_idx 1 values (cells ws) with
  | (cs, None) => (mkws cs row_idx, None)
  | (cs, Some x) => (mkws cs (current_row ws), Some x)
  end.

(** [__init__]: a new workbook and its active sheet, empty. *)
Definition init (filename : string) : t := mk filename (mkws ∅ 0).

(** [self.sheet.append(values)] *)
Definition sheet_append (self : t) (values : list pyval) : M t :=
  match append (sheet self) values with
  | (ws, None) => ret (mk (filename self) ws)
  | (_, Some x) => raise x
  end.

Definition create_headers (self : t) (headers : list pyval) : M t :=
  logging.info "Creating Excel headers: %s" [AList headers];;
  sheet_append self headers.

Definition add_row (self : t) (data : list pyval) : M t :=
  logging.info "Adding row to Excel: %s" [AList data];;
  sheet_append self data.

Definition save_file (e : env) (self : t) : M unit :=
  output_path ← artifact_path e (filename self);
  logging.info "Saving Excel file to %s" [AVal (VStr output_path)];;
  write_file output_path (Xlsx (cells (sheet self))).

(** [Worksheet.max_row]: the largest row that holds a cell, 1 on a sheet
    without cells. *)
Definition max_row (ws : worksheet) : nat :=
  match map_to_list (cells ws) with
  | [] => 1%nat
  | kvs => foldr Nat.max 0%nat ((fun kv => fst (fst kv)) <$> kvs)
  end.

(** [ws.cell(row, column).value]: a cell that is not there reads as [None]. *)
Definition cell_value (ws : worksheet) (row column : nat) : pyval :=
  default VNone (cells ws !! (row, column)).

(** The sheet holds exactly the rows [rs], in this order: row [r + 1],
    column [c + 1] is the value [c] of the row [r] of [rs]. *)
Definition holds (ws : worksheet) (rs : list (list pyval)) : Prop :=
  current_row ws = length rs /\
  forall r c, cells ws !! (r, c) =
    match r, c with
    | S r', S c' => rs !! r' ≫= (fun row => row !! c')
    | _, _ => None
    end.

(** The cells after the values [values] have gone into the row [row_idx]
    from the column [col_idx] on. *)
Definition row_written (values : list pyval) (row_idx col_idx : nat)
           (cs cs' : gmap (nat * nat) pyval) : Prop :=
  forall r c, cs' !! (r, c) =
    if decide (r = row_idx /\ (col_idx <= c < col_idx + length values)%nat)
    then values !! (c - col_idx)%nat
    else cs !! (r, c).

(** The sheet [ws'] is [ws] with the row [values] written after the last
    appended row, in columns 1, 2, ...; every other cell is as it was. *)
Definition records (ws ws' : worksheet) (values : list pyval) : Prop :=
  current_row ws' = S (current_row ws) /\
  forall r c, cells ws' !! (r, c) =
    if decide (r = S (current_row ws) /\ (1 <= c <= length values)%nat)
    then values !! (c - 1)%nat
    else cells ws !! (r, c).

(** The rows of a report that the sheet takes as they are, and whose last
    row shows in the saved sheet. *)
Definition accepted (rs : list (list pyval)) : bool :=
  forallb (forallb Cell.accepts) rs.

Definition last_row_shows (rs : list (list pyval)) : bool :=
  match last rs with
  | Some row => existsb Cell.shows row
  | None => false
  end.

End ExcelCreator.

(** [for data in rows: excel.add_row(data)] *)
Fixpoint add_rows (self : ExcelCreator.t) (rows : list (list pyval)) : M ExcelCreator.t :=
  match rows with
  | [] => ret self
  | data :: rows' => self' ← ExcelCreator.add_row self data; add_rows self' rows'
  end.

(** The report writer used as the specification words it: the headers, then
    the rows, then one save. *)
Definition write_report (e : env) (filename : string) (headers : list pyval)
                        (rows : list (list pyval)) : M ExcelCreator.t :=
  self ← ExcelCreator.create_headers (ExcelCreator.init filename) headers;
  self ← add_rows self rows;
  ExcelCreator.save_file e self;;
  ret self.

(** ** FoxNewsSearch.download_image *)

Module requests.
Definition get (e : env) (url : string) : M response :=
  emit (HttpGet url);; ret (http e url).
End requests.

Definition download_image (e : env) (image_url filename : string) : M unit :=
  output_path ← artifact_path e filename;
  logging.info "Downloading image from %s to %s"
               [AVal (VStr image_url); AVal (VStr output_path)];;
  requests.get e image_url ≫= fun response : response =>
  if status_code response =? 200 then
    write_file output_path (Bytes (raw response));;
    logging.info "Image downloaded successfully." []
  else
    logging.error "Error downloading image." [].

(** ** The page and the browser *)

Module page.
Definition click (target : locator) : M unit := emit (Click target).
Definition fill (target : locator) (text : string) : M unit := emit (Fill target text).
Definition is_hidden (e : env) (target : locator) : M bool :=
  t ← get_trace;
  let hidden := load_more_hidden e t in
  emit (IsHidden target hidden);; ret hidden.
Definition inner_text (e : env) (target : locator) : M string :=
  emit (InnerText target);; ret (num_found e).
Definition close : M unit := emit ClosePage.
End page.

Definition SEARCH_TOGGLE : locator :=
  XPath "//div[@class='search-toggle tablet-desktop']/a[@class='js-focus-search']".
Definition SEARCH_INPUT : locator :=
  XPath "//input[@type='text' and (@aria-label='search foxnews.com' or @placeholder='Search foxnews.com') and @name='q']".
Definition SEARCH_SUBMIT : locator :=
  XPath "//input[@type='submit' and @aria-label='submit search' and @class='resp_site_submit']".
Definition FROM_MONTH : locator :=
  XPath "//*[@id='wrapper']/div[2]/div[1]/div/div[2]/div[3]/div[1]/div[1]".
Definition FROM_DAY : locator :=
  XPath "//*[@id='wrapper']/div[2]/div[1]/div/div[2]/div[3]/div[1]/div[2]/button".
Definition FROM_YEAR : locator :=
  XPath "//*[@id='wrapper']/div[2]/div[1]/div/div[2]/div[3]/div[1]/div[3]/button".
Definition TO_MONTH : locator :=
  XPath "//*[@id='wrapper']/div[2]/div[1]/div/div[2]/div[3]/div[2]/div[1]/button".
Definition TO_DAY : locator :=
  XPath "//*[@id='wrapper']/div[2]/div[1]/div/div[2]/div[3]/div[2]/div[2]/button".
Definition TO_YEAR : locator :=
  XPath "//*[@id='wrapper']/div[2]/div[1]/div/div[2]/div[3]/div[2]/div[3]/button".
Definition SEARCH_BUTTON : locator := XPath "//div[@class='button']/a[text()='Search']".
Definition LOAD_MORE : locator := XPath "//span[text()='Load More']".
Definition NUM_FOUND : locator := XPath "//div[@class='num-found']/span[2]/span".

(** ** Small pieces of Python *)

Definition bool_int (b : bool) : Z := if b then 1 else 0.

(** [v < n] and [v - n] for an [int] [n]. *)
Definition py_lt (v : pyval) (n : Z) : M bool :=
  match v with
  | VInt a => ret (a <? n)
  | VBool b => ret (bool_int b <? n)
  | VStr _ => raise (TypeError "'<' not supported between instances of 'str' and 'int'")
  | VNone => raise (TypeError "'<' not supported between instances of 'NoneType' and 'int'")
  end.

Definition py_sub (v : pyval) (n : Z) : M Z :=
  match v with
  | VInt a => ret (a - n)
  | VBool b => ret (bool_int b - n)
  | VStr _ => raise (TypeError "unsupported operand type(s) for -=: 'str' and 'int'")
  | VNone => raise (TypeError "unsupported operand type(s) for -=: 'NoneType' and 'int'")
  end.

(** [f"0{n}" if n < 10 else str(n)] *)
Definition two_digits (n : Z) : string :=
  if n <? 10 then "0" +:+ Str.of_int n else Str.of_int n.
Global Arguments two_digits : simpl never.

(** [phrase.lower()] needs a [str]. *)
Definition expect_str (v : pyval) : M string :=
  match v with
  | VStr s => ret s
  | _ => raise (AttributeError "object has no attribute 'lower'")
  end.

(** [int(text)]: optional whitespace around an optional sign and decimal
    digits, single underscores allowed between digits. *)
Fixpoint int_digits (acc : Z) (cs : list ascii) : option Z :=
  match cs with
  | [] => Some acc
  | c :: cs' =>
      if Str.isdigit c then int_digits (acc * 10 + (Z.of_N (Str.code c) - 48)) cs'
      else if Ascii.eqb c "_" then
        match cs' with
        | d :: _ => if Str.isdigit d then int_digits acc cs' else None
        | [] => None
        end
      else None
  end.

(** [Py_ISSPACE], the whitespace that [int] skips around an ASCII literal:
    TAB..CR and the space. *)
Definition Py_ISSPACE (c : ascii) : bool :=
  ((9 <=? Str.code c) && (Str.code c <=? 13) || (Str.code c =? 32))%N.

Fixpoint lstrip (cs : list ascii) : list ascii :=
  match cs with
  | c :: cs' => if Py_ISSPACE c then lstrip cs' else cs
  | [] => []
  end.

Definition strip (cs : list ascii) : list ascii := rev (lstrip (rev (lstrip cs))).

Definition unsigned_int (cs : list ascii) : option Z :=
  match cs with
  | d :: _ => if Str.isdigit d then int_digits 0 cs else None
  | [] => None
  end.

Definition int_of_str (text : string) : M Z :=
  let parsed :=
    match strip (list_ascii_of_string text) with
    | "-"%char :: cs => Z.opp <$> unsigned_int cs
    | "+"%char :: cs => unsigned_int cs
    | cs => unsigned_int cs
    end in
  match parsed with
  | Some n => ret n
  | None => raise (ValueError "invalid literal for int() with base 10")
  end.

(** ** minimal_task *)

(** Lines 176-181: the search on the website. *)
Definition perform_search (phrase_category_search : string) : M unit :=
  logging.info "Performing search on the website." [];;
  page.click SEARCH_TOGGLE;;
  page.fill SEARCH_INPUT phrase_category_search;;
  page.click SEARCH_SUBMIT;;
  time.sleep 5.

(** Lines 186-199: the date range, from and to. *)
Definition select_date_range (past_month_formatted current_month_formatted
                              current_day_formatted year_index_formatted : string)
  : M unit :=
  logging.info "Selecting date range for the search." [];;
  page.click FROM_MONTH;;
  page.click (ListOption past_month_formatted);;
  page.click FROM_DAY;;
  page.click (ListOption "01");;
  page.click FROM_YEAR;;
  page.click (ListOptionById "2024");;
  time.sleep 1;;
  page.click TO_MONTH;;
  page.click (ListOption current_month_formatted);;
  page.click TO_DAY;;
  page.click (ListOption current_day_formatted);;
  page.click TO_YEAR;;
  page.click (ListOption year_index_formatted).

(** Lines 207-209: [while not page.is_hidden(...)]. The loop has no bound of
    its own; [fuel] bounds the number of tests of the model, and [diverge]
    is the loop still running when the fuel is spent. *)
Fixpoint load_more_loop (fuel : nat) (e : env) : M unit :=
  match fuel with
  | O => diverge
  | S fuel' =>
      page.is_hidden e LOAD_MORE ≫= fun hidden : bool =>
      if hidden then ret tt
      else
        page.click LOAD_MORE;;
        time.sleep 3;;
        load_more_loop fuel' e
  end.

(** Lines 232-258: the body of the loop over the articles. *)
Definition process_article (e : env) (phrase_to_search : pyval)
                           (excel_creator : ExcelCreator.t) (a : article)
  : M ExcelCreator.t :=
  let title := title a in
  let image_src := image_src a in
  let description := description a in
  let date := date a in
  phrase ← expect_str phrase_to_search;
  let phrase_counter :=
    FoxNewsSearch.phrase_counter title phrase +
    FoxNewsSearch.phrase_counter description phrase in
  let contains_money := FoxNewsSearch.contains_money (title +:+ description) in
  i ← load_global e "i";
  download_image e image_src ("img_" +:+ obj_str i +:+ ".jpg");;
  i ← load_global e "i";
  let data := [VStr title; VStr date; VStr description;
               VStr ("img_" +:+ obj_str i +:+ ".jpg");
               VInt phrase_counter; VBool contains_money] in
  ExcelCreator.add_row excel_creator data.

(** Line 230: [for article in articles]. *)
Fixpoint process_articles (e : env) (phrase_to_search : pyval)
                          (excel_creator : ExcelCreator.t) (articles : list article)
  : M ExcelCreator.t :=
  match articles with
  | [] => ret excel_creator
  | a :: articles' =>
      excel_creator ← process_article e phrase_to_search excel_creator a;
      process_articles e phrase_to_search excel_creator articles'
  end.

(** [driver.find_elements(By.XPATH, ...)] *)
Definition find_elements (driver : pyobj) : M (list article) :=
  match driver with
  | ODriver _ elements => ret elements
  | _ => raise (AttributeError "object has no attribute 'find_elements'")
  end.

Definition headers : list pyval :=
  [VStr "Title"; VStr "Date"; VStr "Description"; VStr "Picture Filename";
   VStr "Count of Search Phrases"; VStr "Contains Money"].

(** Lines 201-268: from the filtered search to the saved report. *)
Definition collect_news (fuel : nat) (e : env) (phrase_to_search : pyval) : M unit :=
  logging.info "Starting search." [];;
  page.click SEARCH_BUTTON;;
  time.sleep 3;;
  logging.info "Entering the loop to load more news." [];;
  load_more_loop fuel e;;
  logging.info "Finished loading news." [];;
  text ← page.inner_text e NUM_FOUND;
  news_amount ← int_of_str text;
  logging.info "Amount of news articles found: %d" [AVal (VInt news_amount)];;
  logging.info "Creating Excel table." [];;
  let excel_creator := ExcelCreator.init "data.xlsx" in
  excel_creator ← ExcelCreator.create_headers excel_creator headers;
  driver ← load_global e "driver";
  articles ← find_elements driver;
  excel_creator ← process_articles e phrase_to_search excel_creator articles;
  logging.info "Completed processing all news articles." [];;
  ExcelCreator.save_file e excel_creator;;
  logging.info "Excel saved succesfully." [];;
  page.close;;
  logging.info "RPA task completed." [].

(** [secrets[key]] *)
Definition secret (e : env) (key : string) : M string :=
  match secrets e !! key with
  | Some v => ret v
  | None => raise (KeyError key)
  end.

(** Lines 150-199: the date window, the browser, the search and the date
    filter, for a months-back count that passed the check. *)
Definition open_and_filter (e : env) (date_parameter : Z)
                           (phrase_category_search : string) : M unit :=
  '(start_date, actual_date) ← DateCalculator.calculate (now e) date_parameter;
  let past_month := month start_date in
  let past_year := year start_date in
  let current_month := month actual_date in
  let current_day := day actual_date in
  let current_year := year actual_date in
  let year_index := (current_year - past_year) + 1 in
  let past_month_formatted := two_digits past_month in
  let current_month_formatted := two_digits current_month in
  let current_day_formatted := two_digits current_day in
  let year_index_formatted := two_digits year_index in
  logging.info "Configuring browser for automation." [];;
  emit (Configure "chromium" "only-on-failure" false);;
  emit (GetSecret "Rpa_Challenge");;
  url ← secret e "url";
  emit (Goto url);;
  time.sleep 3;;
  perform_search phrase_category_search;;
  select_date_range past_month_formatted current_month_formatted
                    current_day_formatted year_index_formatted.

Definition minimal_task (fuel : nat) (e : env) : M unit :=
  logging.info "Starting minimal task." [];;
  logging.info "Received payload: %s" [ADict (payload e)];;
  let date_parameter := default (VStr "0") (payload e !! "Month") in
  let phrase_to_search := default (VStr "Economy") (payload e !! "Phrase") in
  let category_to_search := default (VStr "LatinAmerica") (payload e !! "Category") in
  let phrase_category_search :=
    Str.str phrase_to_search +:+ " in " +:+ Str.str category_to_search in
  py_lt date_parameter 0 ≫= fun negative : bool =>
  if negative then
    logging.error "Invalid date parameter: %d" [AVal date_parameter]
  else
    date_parameter ← py_sub date_parameter 1;
    open_and_filter e date_parameter phrase_category_search;;
    collect_news fuel e phrase_to_search.

(** The phrase [P] occurs in the token sequence [T] at start position [i]:
    [i] tokens, then the tokens of [P], contiguously. *)
Definition occurs_at (P T : list string) (i : nat) : Prop :=
  exists pre post : list string, T = (pre ++ P ++ post)%list /\ length pre = i.

(** What [money_pattern] looks for in a text, as two shapes of the text.
    [dollar_amount]: a dollar sign and, right after it, a digit or a comma.
    [number_with_unit]: digits that start at a word boundary, any
    whitespace, then [dollars] or [USD] ending at a word boundary. *)
Definition dollar_amount (chars : list ascii) : Prop :=
  exists (pre : list ascii) (c : ascii) (post : list ascii),
    chars = (pre ++ "$"%char :: c :: post)%list /\
    FoxNewsSearch.digit_or_comma c = true.

Definition number_with_unit (chars : list ascii) : Prop :=
  exists pre ds ws kw post : list ascii,
    chars = (pre ++ ds ++ ws ++ kw ++ post)%list /\
    ds <> [] /\ Forall (fun c => Str.isdigit c = true) ds /\
    Forall (fun c => Str.isspace c = true) ws /\
    (kw = list_ascii_of_string "dollars" \/ kw = list_ascii_of_string "USD") /\
    re.word_at (last pre) = false /\ re.word_at (head post) = false.

(** The first shape as the specification words it: a dollar sign and,
    right after it, a digit. *)
Definition dollar_digits (chars : list ascii) : Prop :=
  exists (pre : list ascii) (c : ascii) (post : list ascii),
    chars = (pre ++ "$"%char :: c :: post)%list /\ Str.isdigit c = true.

(** The line that [calculate] logs. *)
Definition calculate_log (months : Z) : event :=
  Log INFO "Calculating date from %d months ago." [AVal (VInt months)].

(** A sample clock reading and the world before the task starts. *)
Definition march_15 : datetime := mkdt 2024 3 15 10 30 0 0.
Definition world0 : world := mkworld [] ∅.

(** An environment for the sample runs: two months back from 2024-03-15,
    an artifact directory, a page whose control hides after [clicks] clicks
    and that shows [articles] through the driver bound in [names]. *)
Definition is_load_more_click (ev : event) : bool :=
  match ev with
  | Click (XPath literal) => String.eqb literal "//span[text()='Load More']"
  | _ => false
  end.

Definition hidden_after_clicks (clicks : nat) (t : list event) : bool :=
  (clicks <=? length (List.filter is_load_more_click t))%nat.

Definition sample_env (clicks : nat) (names : gmap string pyobj) : env :=
  mkenv (list_to_map [("Month", VInt 2); ("Phrase", VStr "Economy");
                      ("Category", VStr "Latin America")])
        march_15 (Some "output")
        (list_to_map [("url", "https://www.foxnews.com")])
        (hidden_after_clicks clicks) "3"
        (fun url => mkresponse (if String.eqb url "http://img/2.jpg" then 404 else 200)
                               "JPEG")
        names.

Definition sample_articles : list article :=
  [mkarticle "Economy grows" "http://img/1.jpg" "The economy added $5 billion" "1 day ago";
   mkarticle "Markets" "http://img/2.jpg" "Stocks fell" "2 days ago";
   mkarticle "Aid" "http://img/3.jpg" "A plan of 500 dollars" "3 days ago"].

(** The same environment with another payload. *)
Definition with_payload (p : gmap string pyval) (e : env) : env :=
  mkenv p (now e) (ROBOT_ARTIFACTS e) (secrets e) (load_more_hidden e)
        (num_found e) (http e) (globals e).

(** The events of one failed download. *)
Definition failed_download (image_url output_path : string) : list event :=
  [Log INFO "Downloading image from %s to %s"
       [AVal (VStr image_url); AVal (VStr output_path)];
   HttpGet image_url;
   Log ERROR "Error downloading image." []].

(** The row that the loop writes for an article. *)
Definition report_row (a : article) (phrase picture : string) : list pyval :=
  [VStr (title a); VStr (date a); VStr (description a); VStr picture;
   VInt (FoxNewsSearch.phrase_counter (title a) phrase +
         FoxNewsSearch.phrase_counter (description a) phrase);
   VBool (FoxNewsSearch.contains_money (title a +:+ description a))].

(** The first two lines that [minimal_task] logs. *)
Definition start_logs (e : env) : list event :=
  [Log INFO "Starting minimal task." [];
   Log INFO "Received payload: %s" [ADict (payload e)]].

(** One turn of the pagination loop that found the control visible, and
    [k] such turns. *)
Definition load_more_round : list event :=
  [IsHidden LOAD_MORE false; Click LOAD_MORE; Sleep 3].

Fixpoint rounds (k : nat) : list event :=
  match k with
  | O => []
  | S k' => load_more_round ++ rounds k'
  end.

(** Is the control hidden after [k] turns that follow the events [t]? *)
Definition hidden_after (e : env) (t : list event) (k : nat) : bool :=
  load_more_hidden e (t ++ rounds k).

Definition clicks (t : list event) : nat := length (List.filter is_load_more_click t).

Definition is_visible_observation (ev : event) : bool :=
  match ev with
  | IsHidden _ hidden => negb hidden
  | _ => false
  end.

Definition visible_observations (t : list event) : nat :=
  length (List.filter is_visible_observation t).

(** The options of the drop-down lists that a run selected, by their [id],
    in order. *)
Definition option_id (ev : event) : option string :=
  match ev with
  | Click (ListOption id) => Some id
  | Click (ListOptionById id) => Some id
  | _ => None
  end.

Definition selected_options (t : list event) : list string := omap option_id t.

(** The six options as the specification words them: month, day and year
    of the start date, then of the end date, months and days in two digits
    and years in full. *)
Definition window_options (start_date end_date : datetime) : list string :=
  [two_digits (month start_date); two_digits (day start_date);
   Str.of_int (year start_date);
   two_digits (month end_date); two_digits (day end_date);
   Str.of_int (year end_date)].

(** A computation only adds events to the trace, all of them in [P]. *)
Definition emits (P : event -> Prop) {A} (m : M A) : Prop :=
  forall w w' r, m w = (w', r) ->
    exists t, trace w' = trace w ++ t /\ Forall P t.

(** The image fetches of a run: the URLs requested and the destinations
    announced in the log, in order. *)
Definition fetch_url (ev : event) : option string :=
  match ev with
  | HttpGet url => Some url
  | _ => None
  end.

Definition fetch_target (ev : event) : option string :=
  match ev with
  | Log INFO "Downloading image from %s to %s" [_; AVal (VStr output_path)] =>
      Some output_path
  | _ => None
  end.

Definition fetched (t : list event) : list string := omap fetch_url t.
Definition fetch_targets (t : list event) : list string := omap fetch_target t.

(** The module namespace with a driver that finds the sample articles, and
    with the name [i] bound as well. *)
Definition with_driver : gmap string pyobj :=
  <["driver" := ODriver "<WebDriver>" sample_articles]> module_namespace.

Definition with_driver_and_i (i : Z) : gmap string pyobj :=
  <["i" := OVal (VInt i)]> with_driver.

(** The events of the search (lines 176-181) and of the date filter (lines
    186-199). *)
Definition search_events (phrase_category_search : string) : list event :=
  [Log INFO "Performing search on the website." [];
   Click SEARCH_TOGGLE; Fill SEARCH_INPUT phrase_category_search;
   Click SEARCH_SUBMIT; Sleep 5].

Definition date_filter_events (past_month_formatted current_month_formatted
                               current_day_formatted year_index_formatted : string)
  : list event :=
  [Log INFO "Selecting date range for the search." [];
   Click FROM_MONTH; Click (ListOption past_month_formatted);
   Click FROM_DAY; Click (ListOption "01");
   Click FROM_YEAR; Click (ListOptionById "2024");
   Sleep 1;
   Click TO_MONTH; Click (ListOption current_month_formatted);
   Click TO_DAY; Click (ListOption current_day_formatted);
   Click TO_YEAR; Click (ListOption year_index_formatted)].

(** An event that selects no option of a list. *)
Definition quiet (ev : event) : Prop := option_id ev = None.

(** ** Further definitions for the properties of the rest of the code *)

(** The query that [minimal_task] types into the search box. *)
Definition search_query (e : env) : string :=
  Str.str (default (VStr "Economy") (payload e !! "Phrase")) +:+ " in " +:+
  Str.str (default (VStr "LatinAmerica") (payload e !! "Category")).

(** The events of lines 163-174, up to the secret and from the navigation. *)
Definition secret_events : list event :=
  [Log INFO "Configuring browser for automation." [];
   Configure "chromium" "only-on-failure" false;
   GetSecret "Rpa_Challenge"].

Definition goto_events (url : string) : list event := [Goto url; Sleep 3].

(** A [Month] that is a string or [None]. *)
Definition not_a_number (v : pyval) : bool :=
  match v with
  | VStr _ | VNone => true
  | _ => false
  end.

(** The events of the download of the picture of an article, and of the
    whole turn of the loop for it. *)
Definition download_events (e : env) (output_path : string) (a : article) : list event :=
  if status_code (http e (image_src a)) =? 200 then
    [Log INFO "Downloading image from %s to %s"
         [AVal (VStr (image_src a)); AVal (VStr output_path)];
     HttpGet (image_src a);
     Log INFO "Image downloaded successfully." []]
  else failed_download (image_src a) output_path.

Definition article_events (e : env) (output_path phrase picture : string) (a : article)
  : list event :=
  download_events e output_path a ++
  [Log INFO "Adding row to Excel: %s" [AList (report_row a phrase picture)]].

(** Did the download of the picture of the article succeed? *)
Definition downloaded (e : env) (a : article) : bool :=
  status_code (http e (image_src a)) =? 200.

(** The files after the download of the picture of an article. *)
Definition store_image (e : env) (output_path : string) (files : gmap string file)
                       (a : article) : gmap string file :=
  if downloaded e a
  then <[output_path := Bytes (raw (http e (image_src a)))]> files
  else files.

(** A decimal digit as a character. *)
Definition digit_char (k : Z) : ascii := ascii_of_N (48 + Z.to_N k).

(** A character that [int] accepts somewhere in a literal. *)
Definition int_char (c : ascii) : bool :=
  Str.isdigit c || Str.isspace c || Ascii.eqb c "_" || Ascii.eqb c "+" || Ascii.eqb c "-".

(** The loop can record the articles: the cells take the values of the row
    of each article as they are. *)
Definition recordable (articles : list article) (phrase picture : string) : bool :=
  forallb (fun a => forallb Cell.accepts (report_row a phrase picture)) articles.

(** The same environment with another artifact directory. *)
Definition with_artifacts (output_dir : string) (e : env) : env :=
  mkenv (payload e) (now e) (Some output_dir) (secrets e) (load_more_hidden e)
        (num_found e) (http e) (globals e).

(** An event that is no HTTP request. *)
Definition no_fetch (ev : event) : Prop := fetch_url ev = None.

(** A computation that leaves the files as they are and requests nothing. *)
Definition inert {A} (m : M A) : Prop :=
  forall w w' r, m w = (w', r) ->
    fs w' = fs w /\ exists t, trace w' = trace w ++ t /\ Forall no_fetch t.

(** A computation that never returns a value: it raises or goes on forever. *)
Definition never_returns {A} (m : M A) : Prop :=
  forall w w' r, m w = (w', r) -> forall a, r <> Ok a.

(** ** FoxNewsSearch: the Selenium session

    The instance methods of [FoxNewsSearch] drive a Selenium [driver] of
    their own. A session is the list of the actions done so far; the page
    is what decides, after these actions, whether an XPath finds an element,
    and [find_element] raises [NoSuchElementException] when it does not. *)

Module Selenium.

Inductive key :=
| Text (s : string)
| ENTER.

Inductive action :=
| Info (msg : string) (args : list string)
| Wait (secs : Z)
| Launch (arguments : list string)
| ElementClick (xpath : string)
| SendKeys (xpath : string) (keys : key)
| Quit.

Inductive result (A : Type) :=
| Done (a : A)
| NoSuchElementException (xpath : string).
Arguments Done {A} a.
Arguments NoSuchElementException {A} xpath.

Definition dom : Type := list action -> string -> bool.

Definition Session (A : Type) : Type := list action -> list action * result A.

Definition session_ret {A} (a : A) : Session A := fun t => (t, Done a).

Definition session_bind {A B} (m : Session A) (k : A -> Session B) : Session B :=
  fun t =>
    match m t with
    | (t', Done a) => k a t'
    | (t', NoSuchElementException xpath) => (t', NoSuchElementException xpath)
    end.

Global Instance Session_ret : MRet Session := @session_ret.
Global Instance Session_bind : MBind Session := fun A B k m => session_bind m k.

Definition act (a : action) : Session unit := fun t => (t ++ [a], Done tt).

(** [driver.find_element(By.XPATH, xpath)] *)
Definition find_element (page : dom) (xpath : string) : Session string :=
  fun t => if page t xpath then (t, Done xpath) else (t, NoSuchElementException xpath).

Definition button_xpath : string :=
  "//div[@class='search-toggle tablet-desktop']/a[@class='js-focus-search']".
Definition search_input_xpath : string :=
  "//input[@type='text' and (@aria-label='search foxnews.com' or @placeholder='Search foxnews.com') and @name='q']".

(** [FoxNewsSearch.__init__] *)
Definition init : Session unit :=
  act (Info "Initializing Selenium WebDriver." []);;
  act (Launch ["--no-sandbox"; "--disable-dev-shm-usage"; "--headless";
               "--remote-debugging-port=9222"]).

(** [FoxNewsSearch.click] *)
Definition click (page : dom) (xpath : string) : Session unit :=
  act (Wait 2);;
  element ← find_element page xpath;
  act (ElementClick element).

(** [FoxNewsSearch.search] *)
Definition search (page : dom) (keyword : string) : Session unit :=
  act (Info "Performing search for: %s" [keyword]);;
  click page button_xpath;;
  element ← find_element page search_input_xpath;
  act (SendKeys element (Text keyword));;
  element ← find_element page search_input_xpath;
  act (SendKeys element ENTER).

(** [FoxNewsSearch.close] *)
Definition close : Session unit :=
  act (Info "Closing WebDriver." []);;
  act (Wait 10);;
  act Quit.

(** The keys sent in a session, in order, and whether it clicked or quit. *)
Definition key_sent (a : action) : option key :=
  match a with
  | SendKeys _ keys => Some keys
  | _ => None
  end.

Definition keys_sent (t : list action) : list key := omap key_sent t.

Definition is_click (a : action) : bool :=
  match a with
  | ElementClick _ => true
  | _ => false
  end.

End Selenium.

(** * Properties *)

(** ** The calendar *)

Section CalendarFacts.

Lemma days_in_month_bounds y m : 28 <= days_in_month y m <= 31.
Proof. unfold days_in_month. repeat case_match; lia. Qed.

Lemma validb_valid d : validb d = true <-> valid d.
Proof.
  unfold validb, valid.
  rewrite !andb_true_iff, !Z.leb_le. tauto.
Qed.

Lemma iter_opt_snoc {A} (f : A -> option A) n a :
  iter_opt f (S n) a = iter_opt f n a ≫= f.
Proof.
  revert a. induction n as [|n IH]; intros a.
  - simpl. destruct (f a); reflexivity.
  - change (iter_opt f (S (S n)) a)
      with (match f a with Some a' => iter_opt f (S n) a' | None => None end).
    destruct (f a) as [a'|] eqn:E.
    + rewrite IH. simpl. rewrite E. reflexivity.
    + simpl. rewrite E. reflexivity.
Qed.

(** Going back fewer days than the day of the month stays in the month. *)
Lemma iter_prev_day_within (n : nat) d :
  Z.of_nat n < day d ->
  iter_opt prev_day n d =
    Some (with_date d (year d) (month d) (day d - Z.of_nat n)).
Proof.
  revert d. induction n as [|n IH]; intros d Hn.
  - simpl. destruct d; unfold with_date; simpl. f_equal. f_equal. lia.
  - simpl iter_opt. unfold prev_day at 1.
    destruct (1 <? day d) eqn:E; [|apply Z.ltb_ge in E; lia].
    rewrite IH by (simpl; lia).
    destruct d; unfold with_date; simpl. f_equal. f_equal. lia.
Qed.

(** [d - timedelta(days=d.day)] is the last day of the previous month. *)
Lemma sub_own_day d :
  1 <= day d -> sub_days d (day d) = last_of_previous_month d.
Proof.
  intros Hd. unfold sub_days.
  destruct (0 <=? day d) eqn:E; [|apply Z.leb_gt in E; lia].
  replace (Z.to_nat (day d)) with (S (Z.to_nat (day d - 1))) by lia.
  rewrite iter_opt_snoc, iter_prev_day_within by lia.
  simpl. unfold prev_day, last_of_previous_month, with_date. simpl.
  replace (day d - Z.of_nat (Z.to_nat (day d - 1))) with 1 by lia.
  reflexivity.
Qed.

(** [toordinal] steps by one along [prev_day]: [sub_days] is the
    subtraction of day numbers that [datetime] performs. *)
Lemma days_before_year_succ y :
  days_before_year (y + 1) = days_before_year y + (if is_leap y then 366 else 365).
Proof.
  unfold days_before_year, is_leap. cbv zeta.
  replace (y + 1 - 1) with y by lia.
  destruct (y mod 4 =? 0) eqn:E4; destruct (y mod 100 =? 0) eqn:E100;
    destruct (y mod 400 =? 0) eqn:E400; simpl;
    rewrite ?Z.eqb_eq, ?Z.eqb_neq in *;
    Z.div_mod_to_equations; lia.
Qed.

Lemma toordinal_prev_day d d' :
  valid d -> prev_day d = Some d' -> toordinal d' = toordinal d - 1.
Proof.
  intros (Hy & Hm & Hd) H. unfold prev_day in H.
  destruct (1 <? day d) eqn:E1.
  { inversion H; subst. unfold toordinal; simpl. lia. }
  apply Z.ltb_ge in E1. assert (day d = 1) as Hd1 by lia.
  destruct (1 <? month d) eqn:E2.
  { inversion H; subst. unfold toordinal; simpl. rewrite Hd1.
    apply Z.ltb_lt in E2.
    assert (month d = 2 \/ month d = 3 \/ month d = 4 \/ month d = 5 \/
            month d = 6 \/ month d = 7 \/ month d = 8 \/ month d = 9 \/
            month d = 10 \/ month d = 11 \/ month d = 12) as Hc by lia.
    unfold days_before_month, days_in_month.
    destruct (is_leap (year d));
      repeat (destruct Hc as [-> | Hc]; [simpl; lia|]); rewrite Hc; simpl; lia. }
  apply Z.ltb_ge in E2. assert (month d = 1) as Hm1 by lia.
  destruct (MINYEAR <? year d) eqn:E3; [|discriminate].
  inversion H; subst. unfold toordinal; simpl. rewrite Hd1, Hm1.
  pose proof (days_before_year_succ (year d - 1)) as Hs.
  replace (year d - 1 + 1) with (year d) in Hs by lia.
  rewrite Hs. unfold days_before_month. simpl.
  destruct (is_leap (year d - 1)); simpl; lia.
Qed.

Lemma valid_prev_day d d' : valid d -> prev_day d = Some d' -> valid d'.
Proof.
  intros (Hy & Hm & Hd) H. unfold prev_day in H. unfold MINYEAR, MAXYEAR in *.
  repeat case_match; try discriminate; inversion H; subst;
    rewrite ?Z.ltb_lt, ?Z.ltb_ge in *;
    unfold valid, MINYEAR, MAXYEAR; cbn [year month day with_date];
    pose proof (days_in_month_bounds (year d) (month d - 1));
    change (days_in_month (year d - 1) 12) with 31; lia.
Qed.

Lemma days_before_year_nonneg y : 1 <= y -> 0 <= days_before_year y.
Proof.
  intros Hy. unfold days_before_year. cbv zeta.
  Z.div_mod_to_equations. lia.
Qed.

Lemma days_before_month_nonneg y m : 0 <= days_before_month y m.
Proof.
  unfold days_before_month, DAYS_BEFORE_MONTH.
  destruct ((2 <? m) && is_leap y); repeat case_match; lia.
Qed.

Lemma toordinal_positive d : valid d -> 1 <= toordinal d.
Proof.
  intros (Hy & Hm & Hd). unfold toordinal, MINYEAR in *.
  pose proof (days_before_year_nonneg (year d)).
  pose proof (days_before_month_nonneg (year d) (month d)). lia.
Qed.

Lemma prev_day_none d : valid d -> prev_day d = None -> toordinal d = 1.
Proof.
  intros (Hy & Hm & Hd) H. unfold prev_day, MINYEAR in *.
  repeat case_match; try discriminate; rewrite ?Z.ltb_ge in *.
  assert (year d = 1) as Ey by lia. assert (month d = 1) as Em by lia.
  assert (day d = 1) as Ed by lia.
  unfold toordinal. rewrite Ey, Em, Ed. reflexivity.
Qed.

(** [sub_days] is the subtraction of day numbers of [datetime]: the result
    is the valid date whose day number is [k] less, and there is none
    exactly when that number would fall below 1. *)
Lemma iter_prev_day_toordinal (n : nat) d :
  valid d ->
  match iter_opt prev_day n d with
  | Some d' => valid d' /\ toordinal d' = toordinal d - Z.of_nat n
  | None => toordinal d - Z.of_nat n < 1
  end.
Proof.
  revert d. induction n as [|n IH]; intros d Hv.
  - simpl. split; [exact Hv|lia].
  - simpl iter_opt. destruct (prev_day d) as [d1|] eqn:E.
    + pose proof (valid_prev_day d d1 Hv E) as Hv1.
      pose proof (toordinal_prev_day d d1 Hv E) as Ho.
      specialize (IH d1 Hv1). destruct (iter_opt prev_day n d1) as [d'|].
      * destruct IH as [? IH]. split; [assumption|lia].
      * lia.
    + pose proof (prev_day_none d Hv E). lia.
Qed.

Lemma sub_days_toordinal d k :
  valid d -> 0 <= k ->
  match sub_days d k with
  | Some d' => valid d' /\ toordinal d' = toordinal d - k
  | None => toordinal d - k < 1
  end.
Proof.
  intros Hv Hk. unfold sub_days.
  destruct (0 <=? k) eqn:E; [|apply Z.leb_gt in E; lia].
  pose proof (iter_prev_day_toordinal (Z.to_nat k) d Hv) as H.
  rewrite Z2Nat.id in H by exact Hk. exact H.
Qed.

End CalendarFacts.

(** ** Running the monad *)

Section MonadFacts.
Context {A B : Type}.

Lemma run_bind (m : M A) (k : A -> M B) w :
  (m ≫= k) w =
    match m w with
    | (w', Ok a) => k a w'
    | (w', Raise e) => (w', Raise e)
    | (w', Diverge) => (w', Diverge)
    end.
Proof. reflexivity. Qed.

Lemma run_bind_ok (m : M A) (k : A -> M B) w w' a :
  m w = (w', Ok a) -> (m ≫= k) w = k a w'.
Proof. intros H. rewrite run_bind, H. reflexivity. Qed.

Lemma run_bind_raise (m : M A) (k : A -> M B) w w' e :
  m w = (w', Raise e) -> (m ≫= k) w = (w', Raise e).
Proof. intros H. rewrite run_bind, H. reflexivity. Qed.

Lemma run_bind_diverge (m : M A) (k : A -> M B) w w' :
  m w = (w', Diverge) -> (m ≫= k) w = (w', Diverge).
Proof. intros H. rewrite run_bind, H. reflexivity. Qed.
End MonadFacts.

Lemma run_bind_assoc {A B C} (m : M A) (k : A -> M B) (h : B -> M C) (w : world) :
  ((m ≫= k) ≫= h) w = (m ≫= fun a => k a ≫= h) w.
Proof.
  rewrite !run_bind. destruct (m w) as [w' [a| |]]; reflexivity.
Qed.

(** ** DateCalculator.calculate *)

Section DateCalculatorFacts.

Lemma last_of_previous_month_some s :
  valid s -> 0 < month_index s ->
  exists s', last_of_previous_month s = Some s' /\ valid s' /\
    month_index s' = month_index s - 1 /\
    day s' = days_in_month (year s') (month s') /\ same_time s' s.
Proof.
  intros (Hy & Hm & Hd) Hi. unfold last_of_previous_month, month_index in *.
  unfold MINYEAR, MAXYEAR in *.
  destruct (1 <? month s) eqn:E1.
  - apply Z.ltb_lt in E1. eexists; split; [reflexivity|].
    pose proof (days_in_month_bounds (year s) (month s - 1)).
    unfold valid, same_time, MINYEAR, MAXYEAR; cbn [year month day with_date hour minute second microsecond].
    repeat split; lia.
  - apply Z.ltb_ge in E1.
    destruct (1 <? year s) eqn:E2; [|apply Z.ltb_ge in E2; lia].
    apply Z.ltb_lt in E2. eexists; split; [reflexivity|].
    unfold valid, same_time, MINYEAR, MAXYEAR; cbn [year month day with_date hour minute second microsecond].
    change (days_in_month (year s - 1) 12) with 31.
    repeat split; lia.
Qed.

Lemma last_of_previous_month_none s :
  valid s -> month_index s <= 0 -> last_of_previous_month s = None.
Proof.
  intros (Hy & Hm & Hd) Hi. unfold last_of_previous_month, month_index in *.
  unfold MINYEAR in *.
  destruct (1 <? month s) eqn:E1; [apply Z.ltb_lt in E1; lia|].
  destruct (1 <? year s) eqn:E2; [apply Z.ltb_lt in E2; lia|reflexivity].
Qed.

Lemma step_back_run s w :
  1 <= day s ->
  DateCalculator.step_back s w =
    match last_of_previous_month s with
    | Some d => (w, Ok d)
    | None => (w, Raise (OverflowError "date value out of range"))
    end.
Proof.
  intros Hd. unfold DateCalculator.step_back. rewrite sub_own_day by exact Hd.
  destruct (last_of_previous_month s); reflexivity.
Qed.

(** [n] iterations go [n] months back and, after the first, stay on the
    last day of a month. *)
Lemma for_range_step_back (n : nat) s w :
  valid s -> Z.of_nat n <= month_index s ->
  exists s', for_range n DateCalculator.step_back s w = (w, Ok s') /\
    valid s' /\ month_index s' = month_index s - Z.of_nat n /\
    same_time s' s /\
    (n = O -> s' = s) /\
    (n <> O -> day s' = days_in_month (year s') (month s')).
Proof.
  revert s. induction n as [|n IH]; intros s Hv Hn.
  - exists s. split; [reflexivity|]. split; [exact Hv|].
    unfold same_time. repeat split; try reflexivity; try lia; congruence.
  - destruct (last_of_previous_month_some s Hv) as (s1 & E & Hv1 & Hi1 & Hd1 & Ht1); [lia|].
    destruct (IH s1 Hv1) as (s' & Hrun & Hv' & Hi' & Ht' & _ & Hl'); [lia|].
    exists s'. simpl for_range.
    rewrite (run_bind_ok _ _ w w s1).
    2:{ rewrite step_back_run by (destruct Hv as (_ & _ & ?); lia). rewrite E. reflexivity. }
    split; [exact Hrun|]. split; [exact Hv'|]. split; [lia|].
    split. { unfold same_time in *. intuition congruence. }
    split; [discriminate|]. intros _.
    destruct n as [|n'].
    + simpl in Hrun. inversion Hrun; subst. exact Hd1.
    + apply Hl'. discriminate.
Qed.

Lemma for_range_step_back_overflow (n : nat) s w :
  valid s -> month_index s < Z.of_nat n ->
  for_range n DateCalculator.step_back s w =
    (w, Raise (OverflowError "date value out of range")).
Proof.
  revert s. induction n as [|n IH]; intros s Hv Hn.
  - unfold month_index in Hn. destruct Hv as (? & ? & ?). unfold MINYEAR in *. simpl in Hn. lia.
  - simpl for_range.
    destruct (Z_le_gt_dec (month_index s) 0) as [Hz|Hz].
    + apply (run_bind_raise _ _ w w).
      rewrite step_back_run by (destruct Hv as (_ & _ & ?); lia).
      rewrite last_of_previous_month_none; [reflexivity|exact Hv|exact Hz].
    + destruct (last_of_previous_month_some s Hv) as (s1 & E & Hv1 & Hi1 & _); [lia|].
      rewrite (run_bind_ok _ _ w w s1).
      2:{ rewrite step_back_run by (destruct Hv as (_ & _ & ?); lia). rewrite E. reflexivity. }
      apply IH; [exact Hv1|lia].
Qed.

Lemma valid_replace_day d : valid d -> valid (replace_day d 1).
Proof.
  intros (Hy & Hm & Hd). unfold valid, replace_day; cbn [year month day].
  pose proof (days_in_month_bounds (year d) (month d)). lia.
Qed.

Lemma dt_leb_iff a b :
  dt_leb a b = true <->
  year a < year b \/ year a = year b /\
  (month a < month b \/ month a = month b /\
  (day a < day b \/ day a = day b /\
  (hour a < hour b \/ hour a = hour b /\
  (minute a < minute b \/ minute a = minute b /\
  (second a < second b \/ second a = second b /\
  (microsecond a <= microsecond b)))))).
Proof.
  unfold dt_leb, fields, lex_leb.
  rewrite !orb_true_iff, !andb_true_iff, !Z.ltb_lt, !Z.eqb_eq.
  intuition lia.
Qed.

End DateCalculatorFacts.

Section DateWindow.

(** C1 (as amended): for a reference date and [months >= 0] that do not
    reach before January of year 1, [calculate] logs one line and returns
    [(start, end)] with [end] the reference date unchanged, [start <= end],
    [start] in the month that is [months] months before the reference
    month and at the reference time of day; [start] is the first day of
    that month when [months = 0] and its last day when [months >= 1]. *)
Theorem calculate_window (ref : datetime) (months : Z) (w : world) :
  valid ref -> 0 <= months -> months <= month_index ref ->
  exists start,
    DateCalculator.calculate ref months w =
      (mkworld (trace w ++ [calculate_log months]) (fs w), Ok (start, ref)) /\
    valid start /\
    dt_leb start ref = true /\
    month_index start = month_index ref - months /\
    same_time start ref /\
    day start =
      (if months =? 0 then 1 else days_in_month (year start) (month start)).
Proof.
  intros Hv H0 Hle.
  set (w1 := mkworld (trace w ++ [calculate_log months]) (fs w)).
  pose proof (valid_replace_day ref Hv) as Hv1.
  assert (month_index (replace_day ref 1) = month_index ref) as Hmi by reflexivity.
  destruct (for_range_step_back (Z.to_nat months) (replace_day ref 1) w1 Hv1)
    as (start & Hrun & Hvs & His & Hts & Hz & Hnz); [lia|].
  exists start. split.
  { unfold DateCalculator.calculate.
    rewrite (run_bind_ok _ _ w w1 tt) by reflexivity.
    rewrite (run_bind_ok _ _ w1 w1 start) by exact Hrun. reflexivity. }
  split; [exact Hvs|].
  assert (month_index start = month_index ref - months) as Hidx by lia.
  assert (same_time start ref) as Hst.
  { unfold same_time in *. cbn [replace_day hour minute second microsecond] in Hts. exact Hts. }
  destruct (months =? 0) eqn:E.
  - apply Z.eqb_eq in E. subst months.
    rewrite (Hz eq_refl). split.
    { apply dt_leb_iff. cbn [replace_day year month day hour minute second microsecond].
      destruct Hv as (_ & _ & ?). lia. }
    split; [unfold month_index; cbn [replace_day year month]; lia|].
    split; [|reflexivity].
    unfold same_time; cbn; repeat split.
  - apply Z.eqb_neq in E. split.
    { apply dt_leb_iff. unfold month_index in Hidx.
      destruct Hv as (_ & ? & _), Hvs as (_ & ? & _). lia. }
    split; [exact Hidx|]. split; [exact Hst|].
    apply Hnz. lia.
Qed.

Lemma calculate_window_witness :
  exists start,
    DateCalculator.calculate march_15 2 world0 =
      (mkworld (trace world0 ++ [calculate_log 2]) (fs world0), Ok (start, march_15)) /\
    valid start /\
    dt_leb start march_15 = true /\
    month_index start = month_index march_15 - 2 /\
    same_time start march_15 /\
    day start = (if 2 =? 0 then 1 else days_in_month (year start) (month start)).
Proof.
  apply (calculate_window march_15 2 world0).
  - apply validb_valid. reflexivity.
  - lia.
  - vm_compute. discriminate.
Defined.

(** C1 as stated fails: one month back from 2024-03-15 the start date is
    2024-02-29, whose day of the month is not 1. *)
Lemma calculate_start_not_first_day :
  exists start,
    snd (DateCalculator.calculate march_15 1 world0) = Ok (start, march_15) /\
    day start = 29 /\ day start <> 1.
Proof.
  exists (mkdt 2024 2 29 10 30 0 0). split; [vm_compute; reflexivity|].
  split; [reflexivity|discriminate].
Qed.

(** Beyond January of year 1 the subtraction overflows. *)
Lemma calculate_overflow (ref : datetime) (months : Z) (w : world) :
  valid ref -> month_index ref < months ->
  DateCalculator.calculate ref months w =
    (mkworld (trace w ++ [calculate_log months]) (fs w),
     Raise (OverflowError "date value out of range")).
Proof.
  intros Hv Hlt. unfold DateCalculator.calculate.
  rewrite (run_bind_ok _ _ w _ tt) by reflexivity.
  apply (run_bind_raise _ _ _ _).
  apply for_range_step_back_overflow; [apply valid_replace_day, Hv|].
  change (month_index (replace_day ref 1)) with (month_index ref). lia.
Qed.

End DateWindow.

(** ** FoxNewsSearch.phrase_counter *)

Section PhraseCounter.

Lemma sum_ones {A} (l : list A) : sum ((fun _ => 1) <$> l) = Z.of_nat (length l).
Proof.
  unfold sum.
  assert (forall acc, foldl Z.add acc ((fun _ : A => 1) <$> l) = acc + Z.of_nat (length l)) as H.
  { induction l as [|x l IH]; intros acc; simpl; [lia|]. rewrite IH. lia. }
  rewrite H. lia.
Qed.

Lemma slice_occurs (P T : list string) (i : nat) :
  (i <= length T)%nat ->
  slice T i (i + length P) = P <-> occurs_at P T i.
Proof.
  intros Hi. unfold slice, occurs_at.
  replace (i + length P - i)%nat with (length P) by lia. split.
  - intros H. exists (take i T), (drop (length P) (drop i T)). split.
    + rewrite <- (take_drop i T) at 1. f_equal.
      rewrite <- (take_drop (length P) (drop i T)) at 1. f_equal. exact H.
    + apply length_take_le, Hi.
  - intros (pre & post & -> & <-).
    rewrite drop_app_length. apply take_app_length.
Qed.

Lemma occurs_at_bound (P T : list string) (i : nat) :
  occurs_at P T i -> (i + length P <= length T)%nat.
Proof. intros (pre & post & -> & <-). rewrite !length_app. lia. Qed.

(** The start positions that [phrase_counter] counts. *)
Lemma phrase_counter_positions (T P : list string) :
  let positions :=
    filter (fun i => slice T i (i + length P) = P)
           (range (Z.of_nat (length T) - Z.of_nat (length P) + 1)) in
  NoDup positions /\ forall i, i ∈ positions <-> occurs_at P T i.
Proof.
  intros positions. split.
  - apply NoDup_filter, NoDup_seq.
  - intros i. unfold positions, range.
    rewrite list_elem_of_filter, elem_of_seq. split.
    + intros (Hs & Hr). apply slice_occurs; [lia|exact Hs].
    + intros Ho. pose proof (occurs_at_bound _ _ _ Ho). split.
      * apply slice_occurs; [lia|exact Ho].
      * lia.
Qed.

(** C2: [phrase_counter] is the number of start positions at which the
    lower-cased tokens of the phrase occur contiguously in the lower-cased
    tokens of the text; it is 0 when the phrase has more tokens than the
    text; and the two sample values of the specification. *)
Theorem phrase_counter_counts_occurrences (text phrase : string) :
  let T := Str.split (Str.lower text) in
  let P := Str.split (Str.lower phrase) in
  (exists positions : list nat,
      NoDup positions /\
      (forall i, i ∈ positions <-> occurs_at P T i) /\
      FoxNewsSearch.phrase_counter text phrase = Z.of_nat (length positions)) /\
  ((length T < length P)%nat -> FoxNewsSearch.phrase_counter text phrase = 0) /\
  FoxNewsSearch.phrase_counter "The Economy is growing the economy" "economy" = 2 /\
  FoxNewsSearch.phrase_counter "economyboom" "economy" = 0.
Proof.
  intros T P. split; [|split; [|split; vm_compute; reflexivity]].
  - destruct (phrase_counter_positions T P) as (Hnd & Hin).
    eexists. split; [exact Hnd|]. split; [exact Hin|].
    unfold FoxNewsSearch.phrase_counter. apply sum_ones.
  - intros Hlt. unfold FoxNewsSearch.phrase_counter. fold T P.
    unfold range.
    replace (Z.to_nat (Z.of_nat (length T) - Z.of_nat (length P) + 1)) with O by lia.
    reflexivity.
Qed.

Lemma phrase_counter_counts_occurrences_witness :
  FoxNewsSearch.phrase_counter "growth" "economic growth" = 0.
Proof.
  apply (proj1 (proj2 (phrase_counter_counts_occurrences "growth" "economic growth"))).
  vm_compute. lia.
Defined.

End PhraseCounter.

(** ** The matcher *)

Section Matcher.
Import re.

Implicit Types (st : state) (p : ascii -> bool) (cs : list ascii).

Lemma last_char_nil prev : last_char prev [] = prev.
Proof. reflexivity. Qed.

Lemma last_char_cons prev c cs : last_char prev (c :: cs) = last_char (Some c) cs.
Proof.
  unfold last_char. rewrite last_cons. destruct (last cs); reflexivity.
Qed.

Lemma last_char_app prev cs1 cs2 :
  last_char prev (cs1 ++ cs2) = last_char (last_char prev cs1) cs2.
Proof.
  unfold last_char. rewrite last_app.
  destruct (last cs2); [reflexivity|]. destruct (last cs1); reflexivity.
Qed.

Lemma last_char_last cs : last_char None cs = last cs.
Proof. unfold last_char. destruct (last cs); reflexivity. Qed.

Lemma elem_of_positions st prev (s : list ascii) :
  st ∈ positions prev s <->
  exists pre, s = pre ++ snd st /\ fst st = last_char prev pre.
Proof.
  revert prev. induction s as [|c s IH]; intros prev.
  - simpl. rewrite list_elem_of_singleton. split.
    + intros ->. exists []. split; reflexivity.
    + intros (pre & Hs & Hf). symmetry in Hs. apply app_eq_nil in Hs as [-> Hn].
      destruct st as [a b]; simpl in *. subst. reflexivity.
  - simpl. rewrite elem_of_cons, IH. split.
    + intros [-> | (pre & Hs & Hf)].
      * exists []. split; reflexivity.
      * exists (c :: pre). rewrite last_char_cons. split; [simpl; congruence|exact Hf].
    + intros (pre & Hs & Hf). destruct pre as [|c' pre].
      * left. destruct st as [a b]; simpl in *. subst. reflexivity.
      * right. simpl in Hs. inversion Hs; subst. exists pre.
        rewrite last_char_cons in Hf. split; [reflexivity|exact Hf].
Qed.

Lemma elem_of_class_end p st st' :
  st' ∈ class_end p st <->
  exists c, snd st = c :: snd st' /\ p c = true /\ fst st' = Some c.
Proof.
  unfold class_end. destruct (snd st) as [|c s] eqn:E.
  - split; [intros H; inversion H|intros (c & H & _); discriminate].
  - destruct (p c) eqn:Ep.
    + rewrite list_elem_of_singleton. split.
      * intros ->. exists c. simpl. auto.
      * intros (c' & H & _ & Hf). inversion H; subst.
        destruct st' as [a b]; simpl in *. subst. reflexivity.
    + split; [intros H; inversion H|].
      intros (c' & H & Hp & _). inversion H; subst. congruence.
Qed.

Lemma elem_of_star_ends p prev (s : list ascii) st' :
  st' ∈ star_ends p prev s <->
  exists cs, Forall (fun c => p c = true) cs /\ s = cs ++ snd st' /\
             fst st' = last_char prev cs.
Proof.
  revert prev. induction s as [|c s IH]; intros prev.
  - simpl. rewrite list_elem_of_singleton. split.
    + intros ->. exists []. repeat split. constructor.
    + intros (cs & _ & Hs & Hf). symmetry in Hs. apply app_eq_nil in Hs as [-> Hn].
      destruct st' as [a b]; simpl in *. subst. reflexivity.
  - assert (st' = (prev, c :: s) <->
            c :: s = [] ++ snd st' /\ fst st' = last_char prev []) as Hhere.
    { destruct st' as [a b]; simpl. split; [intros [= -> ->]; auto|intros [-> ->]; reflexivity]. }
    simpl. destruct (p c) eqn:Ep.
    + rewrite elem_of_app, list_elem_of_singleton, IH. split.
      * intros [(cs & Hall & Hs & Hf) | H].
        -- exists (c :: cs). rewrite last_char_cons. split; [constructor; auto|].
           split; [simpl; congruence|exact Hf].
        -- exists []. split; [constructor|]. apply Hhere, H.
      * intros (cs & Hall & Hs & Hf). destruct cs as [|c' cs].
        -- right. apply Hhere. auto.
        -- left. simpl in Hs. inversion Hs; subst. exists cs.
           rewrite last_char_cons in Hf. inversion Hall; subst. auto.
    + rewrite list_elem_of_singleton. split.
      * intros H. exists []. split; [constructor|]. apply Hhere, H.
      * intros (cs & Hall & Hs & Hf). destruct cs as [|c' cs].
        -- apply Hhere. auto.
        -- simpl in Hs. inversion Hs; subst. inversion Hall; subst. congruence.
Qed.

Lemma elem_of_ends_plus p st st' :
  st' ∈ ends (ClassPlus p) st <->
  exists cs, cs <> [] /\ Forall (fun c => p c = true) cs /\
             snd st = cs ++ snd st' /\ fst st' = last_char (fst st) cs.
Proof.
  simpl. rewrite list_elem_of_bind. split.
  - intros (st1 & Hstar & Hc).
    apply elem_of_class_end in Hc as (c & Hs & Hp & Hf).
    apply elem_of_star_ends in Hstar as (cs & Hall & Hs' & Hf').
    exists (c :: cs). rewrite last_char_cons, <- Hf. split; [discriminate|].
    split; [constructor; auto|]. split; [|exact Hf'].
    rewrite Hs, Hs'. reflexivity.
  - intros (cs & Hne & Hall & Hs & Hf). destruct cs as [|c cs]; [done|].
    inversion Hall; subst.
    exists (Some c, cs ++ snd st'). split.
    + apply elem_of_star_ends. exists cs. rewrite last_char_cons in Hf. auto.
    + apply elem_of_class_end. exists c. auto.
Qed.

Lemma elem_of_ends_seq r1 r2 st st' :
  st' ∈ ends (Seq r1 r2) st <-> exists st1, st1 ∈ ends r1 st /\ st' ∈ ends r2 st1.
Proof.
  simpl. rewrite list_elem_of_bind.
  split; intros (st1 & H1 & H2); exists st1; auto.
Qed.

Lemma elem_of_ends_lit cs st st' :
  st' ∈ ends (lit cs) st <->
  snd st = cs ++ snd st' /\ fst st' = last_char (fst st) cs.
Proof.
  revert st. induction cs as [|c cs IH]; intros st.
  - simpl. rewrite list_elem_of_singleton.
    destruct st as [a b], st' as [a' b']; simpl.
    split; [intros [= -> ->]; auto|intros [-> ->]; reflexivity].
  - change (lit (c :: cs)) with (Seq (Class (Ascii.eqb c)) (lit cs)).
    rewrite elem_of_ends_seq. rewrite last_char_cons. split.
    + intros (st1 & H1 & H2). apply IH in H2 as (Hs & Hf).
      apply elem_of_class_end in H1 as (c' & Hs' & Hp & Hf').
      apply Ascii.eqb_eq in Hp. subst c'.
      rewrite Hs', Hs, Hf, Hf'. auto.
    + intros (Hs & Hf). exists (Some c, cs ++ snd st'). split.
      * apply elem_of_class_end. exists c. simpl.
        rewrite Ascii.eqb_refl. auto.
      * apply IH. auto.
Qed.

Lemma found_iff r text :
  found r text = true <->
  exists st st', st ∈ positions None (list_ascii_of_string text) /\ st' ∈ ends r st.
Proof.
  unfold found. rewrite existsb_exists. split.
  - intros (st & Hin & Hne). apply list_elem_of_In in Hin.
    apply negb_true_iff, bool_decide_eq_false in Hne.
    destruct (ends r st) as [|st' l] eqn:E; [done|].
    exists st, st'. rewrite E. split; [exact Hin|left].
  - intros (st & st' & Hin & Hends). exists st.
    split; [apply list_elem_of_In, Hin|].
    apply negb_true_iff, bool_decide_eq_false. intros E. rewrite E in Hends.
    inversion Hends.
Qed.

Lemma elem_of_ends_alt r1 r2 st st' :
  st' ∈ ends (Alt r1 r2) st <-> st' ∈ ends r1 st \/ st' ∈ ends r2 st.
Proof. simpl. apply elem_of_app. Qed.

Lemma elem_of_ends_opt r st st' :
  st' ∈ ends (Opt r) st <-> st' ∈ ends r st \/ st' = st.
Proof. simpl. rewrite elem_of_app, list_elem_of_singleton. reflexivity. Qed.

Lemma elem_of_ends_boundary st st' :
  st' ∈ ends WordBoundary st <-> st' = st /\ at_boundary st = true.
Proof.
  simpl. destruct (at_boundary st).
  - rewrite list_elem_of_singleton. tauto.
  - split; [intros H; inversion H|intros [_ ?]; discriminate].
Qed.

Lemma elem_of_ends_star p st st' :
  st' ∈ ends (ClassStar p) st <->
  exists cs, Forall (fun c => p c = true) cs /\
             snd st = cs ++ snd st' /\ fst st' = last_char (fst st) cs.
Proof. simpl. apply elem_of_star_ends. Qed.

Lemma isdigit_isword c : Str.isdigit c = true -> Str.isword c = true.
Proof. unfold Str.isword. intros ->. rewrite orb_true_r. reflexivity. Qed.

End Matcher.

(** ** FoxNewsSearch.contains_money *)

Section ContainsMoney.
Import re FoxNewsSearch.

(** Where [dollar_pattern] matches: at a dollar sign with a digit or a
    comma right after it. *)
Lemma dollar_pattern_matches st :
  (exists st', st' ∈ ends dollar_pattern st) <->
  exists c rest, snd st = "$"%char :: c :: rest /\ digit_or_comma c = true.
Proof.
  unfold dollar_pattern. split.
  - intros (st' & H).
    apply elem_of_ends_seq in H as (st1 & H1 & H).
    apply elem_of_ends_seq in H as (st2 & H2 & _).
    apply elem_of_class_end in H1 as (c0 & Hs0 & Hp0 & _).
    apply Ascii.eqb_eq in Hp0. subst c0.
    apply elem_of_ends_plus in H2 as (cs & Hne & Hall & Hs & _).
    destruct cs as [|c cs]; [done|]. inversion Hall as [|? ? Hc _]; subst.
    exists c, (cs ++ snd st2). rewrite Hs0, Hs. auto.
  - intros (c & rest & Hs & Hc).
    exists (Some c, rest).
    apply elem_of_ends_seq. exists (Some "$"%char, c :: rest). split.
    { apply elem_of_class_end. exists "$"%char. auto. }
    apply elem_of_ends_seq. exists (Some c, rest). split.
    { apply elem_of_ends_plus. exists [c]. simpl. repeat split; auto; discriminate. }
    apply elem_of_ends_opt. right. reflexivity.
Qed.

(** Where [unit_pattern] matches. *)
Lemma unit_pattern_matches st :
  (exists st', st' ∈ ends unit_pattern st) <->
  word_at (fst st) = false /\
  exists ds ws kw post,
    snd st = ds ++ ws ++ kw ++ post /\
    ds <> [] /\ Forall (fun c => Str.isdigit c = true) ds /\
    Forall (fun c => Str.isspace c = true) ws /\
    (kw = list_ascii_of_string "dollars" \/ kw = list_ascii_of_string "USD") /\
    word_at (head post) = false.
Proof.
  unfold unit_pattern. split.
  - intros (st' & H).
    apply elem_of_ends_seq in H as (st1 & H1 & H).
    apply elem_of_ends_boundary in H1 as (-> & Hb).
    apply elem_of_ends_seq in H as (st2 & H2 & H).
    apply elem_of_ends_plus in H2 as (ds & Hne & Hds & Hs2 & Hf2).
    apply elem_of_ends_seq in H as (st3 & H3 & H).
    apply elem_of_ends_star in H3 as (ws & Hws & Hs3 & Hf3).
    apply elem_of_ends_seq in H as (st4 & H4 & H).
    apply elem_of_ends_boundary in H as (-> & Hb').
    assert (exists kw, (kw = list_ascii_of_string "dollars" \/
                        kw = list_ascii_of_string "USD") /\
              snd st3 = kw ++ snd st4 /\ fst st4 = last_char (fst st3) kw)
      as (kw & Hkw & Hs4 & Hf4).
    { apply elem_of_ends_alt in H4 as [H4|H4];
        apply elem_of_ends_lit in H4 as (? & ?); eexists; eauto. }
    split.
    + unfold at_boundary in Hb. rewrite Hs2 in Hb.
      destruct ds as [|d ds]; [done|]. inversion Hds as [|? ? Hd _]; subst.
      simpl in Hb. rewrite (isdigit_isword d Hd) in Hb.
      destruct (word_at (fst st)); [discriminate|reflexivity].
    + exists ds, ws, kw, (snd st4). rewrite Hs2, Hs3, Hs4.
      repeat split; auto.
      unfold at_boundary in Hb'. rewrite Hf4 in Hb'.
      destruct Hkw as [-> | ->]; simpl in Hb';
        destruct (word_at (head (snd st4))); done.
  - intros (Hw & ds & ws & kw & post & Hs & Hne & Hds & Hws & Hkw & Hpost).
    exists (last_char None kw, post).
    apply elem_of_ends_seq. exists st. split.
    { apply elem_of_ends_boundary. split; [reflexivity|].
      unfold at_boundary. rewrite Hw, Hs.
      destruct ds as [|d ds]; [done|]. inversion Hds as [|? ? Hd _]; subst.
      simpl. rewrite (isdigit_isword d Hd). reflexivity. }
    apply elem_of_ends_seq. exists (last_char (fst st) ds, ws ++ kw ++ post). split.
    { apply elem_of_ends_plus. exists ds. auto. }
    apply elem_of_ends_seq.
    exists (last_char (last_char (fst st) ds) ws, kw ++ post). split.
    { apply elem_of_ends_star. exists ws. auto. }
    assert (forall prev, last_char prev kw = last_char None kw) as Hlast.
    { intros prev. destruct Hkw as [-> | ->]; reflexivity. }
    apply elem_of_ends_seq. exists (last_char None kw, post). split.
    { apply elem_of_ends_alt.
      destruct Hkw as [E | E]; [left|right]; rewrite <- E;
        apply elem_of_ends_lit; simpl; (split; [reflexivity|symmetry; apply Hlast]). }
    apply elem_of_ends_boundary. split; [reflexivity|].
    unfold at_boundary. simpl. rewrite Hpost.
    destruct Hkw as [-> | ->]; reflexivity.
Qed.

(** The texts of which [contains_money] holds. *)
Lemma contains_money_shape (text : string) :
  contains_money text = true <->
  dollar_amount (list_ascii_of_string text) \/
  number_with_unit (list_ascii_of_string text).
Proof.
  unfold contains_money, money_pattern. rewrite found_iff.
  unfold dollar_amount, number_with_unit. split.
  - intros (st & st' & Hpos & H).
    apply elem_of_positions in Hpos as (pre & Htext & Hprev).
    rewrite last_char_last in Hprev.
    apply elem_of_ends_alt in H as [H|H].
    + left. destruct (proj1 (dollar_pattern_matches st)) as (c & rest & Hs & Hc);
        [eauto|].
      exists pre, c, rest. rewrite Htext, Hs. auto.
    + right. destruct (proj1 (unit_pattern_matches st))
        as (Hw & ds & ws & kw & post & Hs & Hrest); [eauto|].
      exists pre, ds, ws, kw, post. rewrite Htext, Hs, <- Hprev. tauto.
  - intros [(pre & c & post & Htext & Hc) |
            (pre & ds & ws & kw & post & Htext & Hne & Hds & Hws & Hkw & Hpre & Hpost)].
    + destruct (proj2 (dollar_pattern_matches (last pre, "$"%char :: c :: post)))
        as (st' & H); [simpl; eauto|].
      exists (last pre, "$"%char :: c :: post), st'. split.
      * apply elem_of_positions. exists pre. rewrite last_char_last. auto.
      * apply elem_of_ends_alt. left. exact H.
    + destruct (proj2 (unit_pattern_matches (last pre, ds ++ ws ++ kw ++ post)))
        as (st' & H).
      { split; [exact Hpre|]. exists ds, ws, kw, post. repeat split; auto. }
      exists (last pre, ds ++ ws ++ kw ++ post), st'. split.
      * apply elem_of_positions. exists pre. rewrite last_char_last. auto.
      * apply elem_of_ends_alt. right. exact H.
Qed.

(** C3 (as amended): [contains_money] holds exactly of the texts that have
    a dollar sign with a digit or a comma right after it, or digits that
    start at a word boundary followed by optional whitespace and by
    [dollars] or [USD] ending at a word boundary; and the three sample
    values of the specification. *)
Theorem contains_money_iff (text : string) :
  (contains_money text = true <->
     dollar_amount (list_ascii_of_string text) \/
     number_with_unit (list_ascii_of_string text)) /\
  contains_money "Prices rose to $1,200.50 today" = true /\
  contains_money "I have 500 dollars" = true /\
  contains_money "There were 500 people" = false.
Proof.
  split; [apply contains_money_shape|].
  repeat split; vm_compute; reflexivity.
Qed.

(** A text with no dollar sign and with neither [dollars] nor [USD] in it
    has no money in it, whatever its numbers. *)
Lemma contains_money_needs_marker (text : string) :
  "$"%char ∉ list_ascii_of_string text ->
  (forall pre post, list_ascii_of_string text <>
                    pre ++ list_ascii_of_string "dollars" ++ post) ->
  (forall pre post, list_ascii_of_string text <>
                    pre ++ list_ascii_of_string "USD" ++ post) ->
  contains_money text = false.
Proof.
  intros Hdollar Hd Hu. apply not_true_is_false. intros H.
  apply contains_money_shape in H
    as [(pre & c & post & Htext & _) |
        (pre & ds & ws & kw & post & Htext & _ & _ & _ & Hkw & _)].
  - apply Hdollar. rewrite Htext. apply elem_of_app. right. left.
  - destruct Hkw as [-> | ->].
    + apply (Hd (pre ++ ds ++ ws) post). rewrite Htext, <- !app_assoc. reflexivity.
    + apply (Hu (pre ++ ds ++ ws) post). rewrite Htext, <- !app_assoc. reflexivity.
Qed.

(** C3 as stated fails: in the text [$,] nothing follows the dollar sign
    but a comma, and [contains_money] holds of it. *)
Lemma contains_money_comma_only :
  contains_money "$," = true /\
  ~ (dollar_digits (list_ascii_of_string "$,") \/
     number_with_unit (list_ascii_of_string "$,")).
Proof.
  split; [vm_compute; reflexivity|]. simpl.
  intros [(pre & c & post & Htext & Hc) |
          (pre & ds & ws & kw & post & Htext & Hne & _ & _ & Hkw & _)].
  - destruct pre as [|a [|b pre]]; simpl in Htext.
    + inversion Htext; subst. vm_compute in Hc. discriminate.
    + inversion Htext.
    + apply (f_equal length) in Htext. simpl in Htext.
      rewrite length_app in Htext. simpl in Htext. lia.
  - apply (f_equal length) in Htext. rewrite !length_app in Htext.
    destruct Hkw as [-> | ->]; simpl in Htext; lia.
Qed.

End ContainsMoney.

(** ** ExcelCreator: the report round trip *)

Section Report.
Import ExcelCreator.

Lemma truncate_all (value : string) (n : N) :
  (N.of_nat (String.length value) <= n)%N -> Cell.truncate n value = value.
Proof.
  revert n. induction value as [|c value IH]; intros n Hn; [reflexivity|].
  simpl String.length in Hn. simpl Cell.truncate.
  destruct (N.eqb_spec n 0) as [->|Hne]; [lia|].
  rewrite IH by lia. reflexivity.
Qed.

Lemma bind_value_accepts (value : pyval) :
  Cell.accepts value = true -> Cell.bind_value value = inr value.
Proof.
  destruct value as [| | |s]; try reflexivity.
  simpl. intros [Hlen Hill]%andb_true_iff.
  unfold Cell.check_string.
  rewrite truncate_all by (apply N.leb_le, Hlen).
  apply negb_true_iff in Hill. rewrite Hill. reflexivity.
Qed.

Lemma row_written_cons v values row_idx col_idx cs cs' :
  row_written values row_idx (S col_idx) (<[(row_idx, col_idx) := v]> cs) cs' ->
  row_written (v :: values) row_idx col_idx cs cs'.
Proof.
  intros H r c. rewrite H. simpl length.
  destruct (decide (r = row_idx /\ (S col_idx <= c < S col_idx + length values)%nat))
    as [[-> Hc]|Hn].
  - rewrite decide_True by lia.
    replace (c - col_idx)%nat with (S (c - S col_idx)) by lia. reflexivity.
  - destruct (decide (r = row_idx /\ c = col_idx)) as [[-> ->]|Hne].
    + rewrite lookup_insert_eq, decide_True by lia.
      replace (col_idx - col_idx)%nat with O by lia. reflexivity.
    + rewrite lookup_insert_ne by (intros [= -> ->]; tauto).
      rewrite decide_False by lia. reflexivity.
Qed.

Lemma put_cells_accepted (values : list pyval) row_idx col_idx cs :
  forallb Cell.accepts values = true ->
  exists cs', put_cells row_idx col_idx values cs = (cs', None) /\
              row_written values row_idx col_idx cs cs'.
Proof.
  revert col_idx cs. induction values as [|v values IH]; intros col_idx cs Hacc.
  - exists cs. split; [reflexivity|]. intros r c. simpl.
    case_decide; [lia|reflexivity].
  - simpl in Hacc. apply andb_true_iff in Hacc as [Hv Hvs].
    destruct (IH (S col_idx) (<[(row_idx, col_idx) := v]> cs) Hvs) as (cs' & Hput & Hw).
    exists cs'. split.
    + simpl put_cells. rewrite (bind_value_accepts v Hv). exact Hput.
    + apply row_written_cons, Hw.
Qed.

(** A string that its cell refuses stops the row there: the values before
    it are in their cells, nothing else has changed. *)
Lemma put_cells_refused (pre post : list pyval) (s : string) (x : exn)
      row_idx col_idx cs :
  forallb Cell.accepts pre = true ->
  Cell.check_string s = inl x ->
  exists cs', put_cells row_idx col_idx (pre ++ VStr s :: post) cs = (cs', Some x) /\
              row_written pre row_idx col_idx cs cs'.
Proof.
  revert col_idx cs. induction pre as [|v pre IH]; intros col_idx cs Hacc Hs.
  - exists cs. split.
    + simpl. rewrite Hs. reflexivity.
    + intros r c. simpl. case_decide; [lia|reflexivity].
  - simpl in Hacc. apply andb_true_iff in Hacc as [Hv Hvs].
    destruct (IH (S col_idx) (<[(row_idx, col_idx) := v]> cs) Hvs Hs) as (cs' & Hput & Hw).
    exists cs'. split.
    + simpl put_cells. rewrite (bind_value_accepts v Hv). exact Hput.
    + apply row_written_cons, Hw.
Qed.

Lemma append_accepted (ws : worksheet) (values : list pyval) :
  forallb Cell.accepts values = true ->
  exists ws', append ws values = (ws', None) /\ records ws ws' values.
Proof.
  intros Hacc.
  destruct (put_cells_accepted values (S (current_row ws)) 1 (cells ws) Hacc)
    as (cs' & Hput & Hw).
  exists (mkws cs' (S (current_row ws))). split.
  - unfold append. rewrite Hput. reflexivity.
  - split; [reflexivity|]. intros r c. cbn [cells]. rewrite Hw.
    destruct (decide (r = S (current_row ws) /\ (1 <= c < 1 + length values)%nat)).
    + rewrite decide_True by lia. reflexivity.
    + rewrite decide_False by lia. reflexivity.
Qed.

Lemma append_refused (ws : worksheet) (pre post : list pyval) (s : string) (x : exn) :
  forallb Cell.accepts pre = true ->
  Cell.check_string s = inl x ->
  exists ws', append ws (pre ++ VStr s :: post) = (ws', Some x) /\
    current_row ws' = current_row ws /\
    row_written pre (S (current_row ws)) 1 (cells ws) (cells ws').
Proof.
  intros Hacc Hs.
  destruct (put_cells_refused pre post s x (S (current_row ws)) 1 (cells ws) Hacc Hs)
    as (cs' & Hput & Hw).
  exists (mkws cs' (current_row ws)). split; [|split; [reflexivity|exact Hw]].
  unfold append. rewrite Hput. reflexivity.
Qed.

Lemma sheet_append_run (self : t) (values : list pyval) (w : world) :
  forallb Cell.accepts values = true ->
  exists self', sheet_append self values w = (w, Ok self') /\
    filename self' = filename self /\ records (sheet self) (sheet self') values.
Proof.
  intros Hacc. destruct (append_accepted (sheet self) values Hacc) as (ws' & Happ & Hrec).
  exists (mk (filename self) ws'). split; [|split; [reflexivity|exact Hrec]].
  unfold sheet_append. rewrite Happ. reflexivity.
Qed.

Lemma add_row_run (self : t) (data : list pyval) (w : world) :
  forallb Cell.accepts data = true ->
  exists self',
    add_row self data w =
      (mkworld (trace w ++ [Log INFO "Adding row to Excel: %s" [AList data]]) (fs w),
       Ok self') /\
    filename self' = filename self /\ records (sheet self) (sheet self') data.
Proof.
  intros Hacc.
  set (w1 := mkworld (trace w ++ [Log INFO "Adding row to Excel: %s" [AList data]]) (fs w)).
  destruct (sheet_append_run self data w1 Hacc) as (self' & Hrun & Hname & Hrec).
  exists self'. split; [|split; assumption].
  unfold add_row. rewrite (run_bind_ok _ _ w w1 tt) by reflexivity. exact Hrun.
Qed.

Lemma create_headers_run (self : t) (header_row : list pyval) (w : world) :
  forallb Cell.accepts header_row = true ->
  exists self',
    create_headers self header_row w =
      (mkworld (trace w ++ [Log INFO "Creating Excel headers: %s" [AList header_row]]) (fs w),
       Ok self') /\
    filename self' = filename self /\ records (sheet self) (sheet self') header_row.
Proof.
  intros Hacc.
  set (w1 := mkworld (trace w ++ [Log INFO "Creating Excel headers: %s" [AList header_row]])
                     (fs w)).
  destruct (sheet_append_run self header_row w1 Hacc) as (self' & Hrun & Hname & Hrec).
  exists self'. split; [|split; assumption].
  unfold create_headers. rewrite (run_bind_ok _ _ w w1 tt) by reflexivity. exact Hrun.
Qed.

Lemma holds_empty : holds (mkws ∅ 0) [].
Proof. split; [reflexivity|]. intros [|r] [|c]; reflexivity. Qed.

Lemma holds_records ws ws' rs values :
  holds ws rs -> records ws ws' values -> holds ws' (rs ++ [values]).
Proof.
  intros [Hn Hc] [Hn' Hc']. split.
  - rewrite Hn', Hn, length_app. simpl. lia.
  - intros r c. rewrite Hc', Hc, Hn.
    destruct r as [|r'], c as [|c']; try (case_decide; [lia|reflexivity]).
    case_decide as Hd.
    + destruct Hd as [[= ->] Hd].
      rewrite lookup_app_r, Nat.sub_diag by lia. simpl.
      f_equal. lia.
    + destruct (decide (r' < length rs)%nat) as [Hlt|Hge].
      * rewrite lookup_app_l by exact Hlt. reflexivity.
      * destruct (decide (r' = length rs)) as [->|Hne'].
        -- rewrite lookup_app_r, Nat.sub_diag by lia. simpl.
           rewrite (lookup_ge_None_2 rs) by lia. simpl.
           symmetry. apply lookup_ge_None_2. lia.
        -- rewrite !lookup_ge_None_2; [reflexivity|rewrite length_app; simpl; lia|lia].
Qed.

Lemma foldr_max_ge (l : list nat) x : x ∈ l -> (x <= foldr Nat.max 0 l)%nat.
Proof.
  induction l as [|y l IH]; intros Hin; [inversion Hin|].
  apply elem_of_cons in Hin as [->|Hin]; simpl; [lia|].
  specialize (IH Hin). lia.
Qed.

Lemma foldr_max_le (l : list nat) b :
  (forall x, x ∈ l -> (x <= b)%nat) -> (foldr Nat.max 0 l <= b)%nat.
Proof.
  induction l as [|y l IH]; intros H; simpl; [lia|].
  assert (y <= b)%nat by (apply H; left).
  assert (foldr Nat.max 0 l <= b)%nat by (apply IH; intros x Hx; apply H; right; exact Hx).
  lia.
Qed.

(** On a sheet that holds the rows [rs], the last of them with a value in
    it, [max_row] is the number of the rows. *)
Lemma max_row_holds ws rs :
  holds ws rs -> last_row_shows rs = true -> max_row ws = length rs.
Proof.
  intros [Hn Hc] Hlast. unfold last_row_shows in Hlast.
  destruct (last rs) as [row|] eqn:El; [|discriminate].
  apply existsb_exists in Hlast as (v & Hin & _).
  apply list_elem_of_In, list_elem_of_lookup in Hin as [c Hv].
  rewrite last_lookup in El.
  assert (length rs <> 0)%nat as Hne by (destruct rs; [discriminate|simpl; lia]).
  assert (cells ws !! (length rs, S c) = Some v) as Hcell.
  { rewrite Hc. destruct (length rs) as [|n] eqn:E; [lia|].
    simpl in El. rewrite El. simpl. exact Hv. }
  assert (forall kv, kv ∈ map_to_list (cells ws) -> (fst (fst kv) <= length rs)%nat) as Hle.
  { intros [[r c'] v'] Hkv. apply elem_of_map_to_list in Hkv. simpl.
    rewrite Hc in Hkv. destruct r as [|r']; [lia|]. destruct c' as [|c'']; [discriminate|].
    destruct (rs !! r') as [row'|] eqn:Er; [|discriminate].
    apply lookup_lt_Some in Er. lia. }
  assert (((length rs, S c), v) ∈ map_to_list (cells ws)) as Hkv
    by (apply elem_of_map_to_list, Hcell).
  unfold max_row. destruct (map_to_list (cells ws)) as [|kv kvs] eqn:Em; [inversion Hkv|].
  apply Nat.le_antisymm.
  - apply foldr_max_le. intros x Hx. apply list_elem_of_fmap in Hx as (kv' & -> & Hkv').
    apply Hle, Hkv'.
  - apply foldr_max_ge, list_elem_of_fmap. exists ((length rs, S c), v). split; [reflexivity|].
    exact Hkv.
Qed.

Lemma cell_value_holds ws rs r c :
  holds ws rs ->
  cell_value ws (S r) (S c) = default VNone (rs !! r ≫= (fun row => row !! c)).
Proof. intros [_ Hc]. unfold cell_value. rewrite Hc. reflexivity. Qed.

(** The events that [add_rows] logs. *)
Lemma add_rows_run (data : list (list pyval)) self rs w :
  accepted data = true ->
  holds (sheet self) rs ->
  exists self' t,
    add_rows self data w = (mkworld (trace w ++ t) (fs w), Ok self') /\
    t = (fun row => Log INFO "Adding row to Excel: %s" [AList row]) <$> data /\
    filename self' = filename self /\ holds (sheet self') (rs ++ data).
Proof.
  revert self rs w. induction data as [|row data IH]; intros self rs w Hacc Hh.
  - exists self, []. rewrite !app_nil_r. destruct w; auto.
  - unfold accepted in Hacc. simpl in Hacc. apply andb_true_iff in Hacc as [Hrow Hacc].
    destruct (add_row_run self row w Hrow) as (self1 & Hrun1 & Hname1 & Hrec).
    destruct (IH self1 (rs ++ [row])
                 (mkworld (trace w ++ [Log INFO "Adding row to Excel: %s" [AList row]]) (fs w))
                 Hacc (holds_records _ _ _ _ Hh Hrec))
      as (self' & t & Hrun & Ht & Hname & Hh').
    exists self', (Log INFO "Adding row to Excel: %s" [AList row] :: t).
    split; [|split; [|split]].
    + simpl add_rows. erewrite run_bind_ok by exact Hrun1.
      rewrite Hrun. simpl. rewrite <- app_assoc. reflexivity.
    + rewrite Ht. reflexivity.
    + congruence.
    + rewrite <- app_assoc in Hh'. exact Hh'.
Qed.

(** The run of the report writer up to the save. *)
Lemma report_rows_run (name : string) (header_row : list pyval)
      (data : list (list pyval)) (w : world) :
  accepted (header_row :: data) = true ->
  exists self,
    (self0 ← create_headers (init name) header_row; add_rows self0 data) w =
      (mkworld (trace w ++ Log INFO "Creating Excel headers: %s" [AList header_row] ::
                  ((fun row => Log INFO "Adding row to Excel: %s" [AList row]) <$> data))
               (fs w), Ok self) /\
    filename self = name /\ holds (sheet self) (header_row :: data).
Proof.
  intros Hacc. unfold accepted in Hacc. simpl in Hacc.
  apply andb_true_iff in Hacc as [Hhead Hacc].
  destruct (create_headers_run (init name) header_row w Hhead)
    as (self0 & Hrun0 & Hname0 & Hrec0).
  assert (holds (sheet self0) [header_row]) as Hh0
    by (apply (holds_records _ _ [] header_row holds_empty Hrec0)).
  destruct (add_rows_run data self0 [header_row]
              (mkworld (trace w ++ [Log INFO "Creating Excel headers: %s" [AList header_row]])
                       (fs w)) Hacc Hh0)
    as (self & t & Hrun & -> & Hname & Hh).
  exists self. split; [|split].
  - erewrite run_bind_ok by exact Hrun0. rewrite Hrun. simpl.
    rewrite <- app_assoc. reflexivity.
  - rewrite Hname, Hname0. reflexivity.
  - exact Hh.
Qed.

(** C5 (as amended): headers, then N rows, then one save, the values all
    taken by their cells and the last row showing a value: the sheet that
    is saved holds the header row followed by the N rows in the order of
    the calls, cell by cell, and its [max_row] is N + 1. *)
Theorem report_round_trip (e : env) (dir name : string)
        (header_row : list pyval) (data : list (list pyval)) (w : world) :
  ROBOT_ARTIFACTS e = Some dir ->
  accepted (header_row :: data) = true ->
  last_row_shows (header_row :: data) = true ->
  exists self w',
    write_report e name header_row data w = (w', Ok self) /\
    fs w' = <[output_path dir name := Xlsx (cells (sheet self))]> (fs w) /\
    max_row (sheet self) = S (length data) /\
    holds (sheet self) (header_row :: data) /\
    forall r c, cell_value (sheet self) (S r) (S c) =
                default VNone ((header_row :: data) !! r ≫= (fun row => row !! c)).
Proof.
  intros Hdir Hacc Hlast.
  destruct (report_rows_run name header_row data w Hacc) as (self & Hrun & Hname & Hh).
  exists self. eexists. split; [|split; [|split; [|split]]].
  - unfold write_report.
    rewrite <- (run_bind_assoc (create_headers (init name) header_row)
                               (fun self0 => add_rows self0 data)
                               (fun self1 => save_file e self1;; ret self1)).
    erewrite run_bind_ok by exact Hrun.
    unfold save_file, artifact_path. rewrite Hdir. reflexivity.
  - simpl. rewrite Hname. reflexivity.
  - apply (max_row_holds _ _ Hh Hlast).
  - exact Hh.
  - intros r c. apply cell_value_holds, Hh.
Qed.

End Report.

Lemma report_round_trip_witness :
  exists self w',
    write_report (sample_env 0 module_namespace) "data.xlsx" headers
                 [[VStr "a"; VInt 1]; []; [VBool true]] world0 = (w', Ok self) /\
    fs w' = <[output_path "output" "data.xlsx" := Xlsx (cells (ExcelCreator.sheet self))]> (fs world0) /\
    ExcelCreator.max_row (ExcelCreator.sheet self) = 4%nat /\
    ExcelCreator.holds (ExcelCreator.sheet self)
      (headers :: [[VStr "a"; VInt 1]; []; [VBool true]]) /\
    forall r c, ExcelCreator.cell_value (ExcelCreator.sheet self) (S r) (S c) =
                default VNone ((headers :: [[VStr "a"; VInt 1]; []; [VBool true]]) !! r
                               ≫= (fun row => row !! c)).
Proof.
  apply (report_round_trip (sample_env 0 module_namespace) "output" "data.xlsx");
    reflexivity.
Defined.

(** C5, the claim as it stands: a last row without values leaves no cell,
    and the sheet that is saved ends one row earlier; a string with a
    control character stops the report before the save. *)
Lemma report_trailing_empty_row :
  (exists self w',
     write_report (sample_env 0 module_namespace) "data.xlsx"
                  [VStr "Title"] [[VStr "a"]; []] world0 = (w', Ok self) /\
     fs w' !! "output/data.xlsx" = Some (Xlsx (cells (ExcelCreator.sheet self))) /\
     ExcelCreator.max_row (ExcelCreator.sheet self) = 2%nat /\
     ExcelCreator.max_row (ExcelCreator.sheet self) <> S (length [[VStr "a"]; @nil pyval])) /\
  (exists w' what,
     write_report (sample_env 0 module_namespace) "data.xlsx"
                  [VStr "Title"] [[VStr (String (ascii_of_nat 1) "a")]] world0 =
       (w', Raise (IllegalCharacterError what)) /\
     fs w' = ∅).
Proof.
  split.
  - eexists. eexists. split; [vm_compute; reflexivity|].
    split; [vm_compute; reflexivity|]. split; [vm_compute; reflexivity|].
    vm_compute. discriminate.
  - eexists. eexists. split; [vm_compute; reflexivity|]. reflexivity.
Qed.

(** ** Image download *)

Section Download.



End Download.



(** ** The checks at the start of [minimal_task] *)

Section Validation.

(** C7: with a negative integer [Month] the task logs the error and
    returns; its only events are three log lines, and no file is
    written. *)
Theorem negative_month_aborts (e : env) (n : Z) (fuel : nat) (w : world) :
  payload e !! "Month" = Some (VInt n) -> n < 0 ->
  minimal_task fuel e w =
    (mkworld (trace w ++ start_logs e ++
                [Log ERROR "Invalid date parameter: %d" [AVal (VInt n)]])
             (fs w),
     Ok tt).
Proof.
  intros Hm Hn. unfold minimal_task. rewrite Hm. simpl default.
  unfold mbind, M_bind, bind, logging.info, logging.error, emit, py_lt, mret, M_ret, ret.
  simpl. apply Z.ltb_lt in Hn. rewrite Hn. simpl.
  unfold start_logs. rewrite <- !app_assoc. reflexivity.
Qed.

(** C10: without a [Month] key the default is the string ['0'], and the
    comparison with [0] raises [TypeError] after the first two log
    lines: no date is computed, no page is opened, no file is written. *)
Theorem missing_month_raises (e : env) (fuel : nat) (w : world) :
  payload e !! "Month" = None ->
  minimal_task fuel e w =
    (mkworld (trace w ++ start_logs e) (fs w),
     Raise (TypeError "'<' not supported between instances of 'str' and 'int'")).
Proof.
  intros Hm. unfold minimal_task. rewrite Hm. simpl default.
  unfold mbind, M_bind, bind, logging.info, emit, py_lt, raise.
  simpl. unfold start_logs. rewrite <- !app_assoc. reflexivity.
Qed.

End Validation.

Lemma negative_month_aborts_witness :
  let e := with_payload {["Month" := VInt (-3)]} (sample_env 0 module_namespace) in
  minimal_task 5 e world0 =
    (mkworld (trace world0 ++ start_logs e ++
                [Log ERROR "Invalid date parameter: %d" [AVal (VInt (-3))]])
             (fs world0),
     Ok tt).
Proof.
  apply (negative_month_aborts
           (with_payload {["Month" := VInt (-3)]} (sample_env 0 module_namespace))
           (-3) 5 world0).
  - vm_compute. reflexivity.
  - lia.
Defined.

Lemma missing_month_raises_witness :
  let e := with_payload {["Phrase" := VStr "Economy"]} (sample_env 0 module_namespace) in
  minimal_task 5 e world0 =
    (mkworld (trace world0 ++ start_logs e) (fs world0),
     Raise (TypeError "'<' not supported between instances of 'str' and 'int'")).
Proof.
  apply (missing_month_raises
           (with_payload {["Phrase" := VStr "Economy"]} (sample_env 0 module_namespace))
           5 world0).
  vm_compute. reflexivity.
Defined.

(** ** The pagination loop *)

Section Pagination.
Variable e : env.

Lemma extend_nil w : mkworld (trace w ++ []) (fs w) = w.
Proof. destruct w. simpl. rewrite app_nil_r. reflexivity. Qed.

Lemma load_more_loop_step fuel w :
  load_more_loop (S fuel) e w =
    if load_more_hidden e (trace w)
    then (mkworld (trace w ++ [IsHidden LOAD_MORE true]) (fs w), Ok tt)
    else load_more_loop fuel e (mkworld (trace w ++ load_more_round) (fs w)).
Proof.
  simpl. unfold page.is_hidden, page.click, time.sleep, get_trace, emit,
    mbind, M_bind, bind, mret, M_ret, ret. simpl.
  destruct (load_more_hidden e (trace w)); [reflexivity|].
  simpl. rewrite <- !app_assoc. reflexivity.
Qed.

(** While the control stays visible the loop goes on, one turn each. *)
Lemma load_more_loop_visible k fuel w :
  (forall j, (j < k)%nat -> hidden_after e (trace w) j = false) ->
  load_more_loop (k + fuel) e w =
    load_more_loop fuel e (mkworld (trace w ++ rounds k) (fs w)).
Proof.
  revert w. induction k as [|k IH]; intros w Hvis.
  - simpl. rewrite extend_nil. reflexivity.
  - change (S k + fuel)%nat with (S (k + fuel)). rewrite load_more_loop_step.
    pose proof (Hvis O ltac:(lia)) as H0. unfold hidden_after in H0.
    simpl in H0. rewrite app_nil_r in H0. rewrite H0.
    rewrite IH.
    + simpl. rewrite <- !app_assoc. reflexivity.
    + intros j Hj. specialize (Hvis (S j) ltac:(lia)).
      unfold hidden_after in *. simpl in *. rewrite <- app_assoc. exact Hvis.
Qed.

Lemma first_hidden_or_none t k :
  (exists k0, (k0 <= k)%nat /\ hidden_after e t k0 = true /\
              forall j, (j < k0)%nat -> hidden_after e t j = false) \/
  (forall j, (j <= k)%nat -> hidden_after e t j = false).
Proof.
  induction k as [|k [(k0 & Hle & Hk0 & Hvis)|Hnone]].
  - destruct (hidden_after e t 0) eqn:E.
    + left. exists O. repeat split; [lia|exact E|]. intros j Hj. lia.
    + right. intros j Hj. replace j with O by lia. exact E.
  - left. exists k0. repeat split; [lia|exact Hk0|exact Hvis].
  - destruct (hidden_after e t (S k)) eqn:E.
    + left. exists (S k). repeat split; [lia|exact E|].
      intros j Hj. apply Hnone. lia.
    + right. intros j Hj. destruct (decide (j = S k)) as [->|Hne]; [exact E|].
      apply Hnone. lia.
Qed.

Lemma first_hidden t k :
  hidden_after e t k = true ->
  exists k0, (k0 <= k)%nat /\ hidden_after e t k0 = true /\
             forall j, (j < k0)%nat -> hidden_after e t j = false.
Proof.
  intros Hk. destruct (first_hidden_or_none t k) as [H|Hnone]; [exact H|].
  rewrite Hnone in Hk by lia. discriminate.
Qed.

Lemma load_more_loop_returns fuel w w' :
  load_more_loop fuel e w = (w', Ok tt) ->
  exists k, (k < fuel)%nat /\ hidden_after e (trace w) k = true.
Proof.
  revert w. induction fuel as [|fuel IH]; intros w H.
  - discriminate.
  - rewrite load_more_loop_step in H.
    destruct (load_more_hidden e (trace w)) eqn:E.
    + exists O. split; [lia|]. unfold hidden_after. simpl. rewrite app_nil_r. exact E.
    + apply IH in H as (k & Hk & Hh). exists (S k). split; [lia|].
      unfold hidden_after in *. simpl in *. rewrite <- app_assoc in Hh. exact Hh.
Qed.

Lemma clicks_rounds k : clicks (rounds k) = k.
Proof. induction k as [|k IH]; [reflexivity|]. unfold clicks in *. simpl. rewrite IH. reflexivity. Qed.

Lemma visible_observations_rounds k : visible_observations (rounds k) = k.
Proof.
  induction k as [|k IH]; [reflexivity|].
  unfold visible_observations in *. simpl. rewrite IH. reflexivity.
Qed.

(** The loop ends at the first turn that finds the control hidden. *)
Lemma load_more_loop_ends (w : world) k fuel :
  hidden_after e (trace w) k = true ->
  (forall j, (j < k)%nat -> hidden_after e (trace w) j = false) ->
  (k < fuel)%nat ->
  load_more_loop fuel e w =
    (mkworld (trace w ++ rounds k ++ [IsHidden LOAD_MORE true]) (fs w), Ok tt).
Proof.
  intros Hk Hvis Hlt.
  replace fuel with (k + S (fuel - S k))%nat by lia.
  rewrite load_more_loop_visible by exact Hvis.
  rewrite load_more_loop_step. simpl trace. unfold hidden_after in Hk. rewrite Hk.
  simpl. rewrite <- app_assoc. reflexivity.
Qed.

(** C9: the loop ends exactly when the control is hidden after finitely
    many turns. If it is first hidden after [k] turns, every run with more
    than [k] tests ends after [k] clicks, one for each time it was seen
    visible; if it is never hidden, no number of tests ends the loop, and
    after [fuel] tests it has clicked [fuel] times. *)
Theorem load_more_loop_terminates_iff_hidden (w : world) :
  (forall k fuel,
     hidden_after e (trace w) k = true ->
     (forall j, (j < k)%nat -> hidden_after e (trace w) j = false) ->
     (k < fuel)%nat ->
     load_more_loop fuel e w =
       (mkworld (trace w ++ rounds k ++ [IsHidden LOAD_MORE true]) (fs w), Ok tt) /\
     clicks (rounds k) = k /\ visible_observations (rounds k) = k) /\
  ((forall k, hidden_after e (trace w) k = false) ->
   forall fuel,
     load_more_loop fuel e w = (mkworld (trace w ++ rounds fuel) (fs w), Diverge) /\
     clicks (rounds fuel) = fuel) /\
  ((exists fuel w', load_more_loop fuel e w = (w', Ok tt)) <->
   (exists k, hidden_after e (trace w) k = true)).
Proof.
  pose proof (load_more_loop_ends w) as Hend.
  split; [|split].
  - intros k fuel Hk Hvis Hlt. split; [apply Hend; assumption|].
    split; [apply clicks_rounds|apply visible_observations_rounds].
  - intros Hnever fuel. split; [|apply clicks_rounds].
    replace fuel with (fuel + 0)%nat at 1 by lia.
    rewrite load_more_loop_visible by (intros; apply Hnever). reflexivity.
  - split.
    + intros (fuel & w' & H). apply load_more_loop_returns in H as (k & _ & Hk). eauto.
    + intros (k & Hk). apply first_hidden in Hk as (k0 & _ & Hk0 & Hvis).
      exists (S k0). eexists. apply Hend; [exact Hk0|exact Hvis|lia].
Qed.

End Pagination.

Lemma load_more_loop_terminates_iff_hidden_witness :
  load_more_loop 5 (sample_env 2 module_namespace) world0 =
    (mkworld (trace world0 ++ rounds 2 ++ [IsHidden LOAD_MORE true]) (fs world0), Ok tt) /\
  clicks (rounds 2) = 2%nat /\ visible_observations (rounds 2) = 2%nat.
Proof.
  apply (proj1 (load_more_loop_terminates_iff_hidden
                  (sample_env 2 module_namespace) world0) 2%nat 5%nat).
  - vm_compute. reflexivity.
  - intros j Hj. destruct j as [|[|j]]; [reflexivity|reflexivity|lia].
  - lia.
Defined.

(** No bound on the number of turns: for every [k] there is a page that
    takes [k] clicks, and the loop makes them all. *)
Lemma load_more_loop_unbounded (k : nat) :
  load_more_loop (S k) (sample_env k module_namespace) world0 =
    (mkworld (rounds k ++ [IsHidden LOAD_MORE true]) ∅, Ok tt).
Proof.
  assert (forall j, hidden_after (sample_env k module_namespace) [] j = (k <=? j)%nat) as Hh.
  { intros j. unfold hidden_after. simpl. unfold hidden_after_clicks.
    fold (clicks (rounds j)). rewrite clicks_rounds. reflexivity. }
  apply (load_more_loop_ends (sample_env k module_namespace) world0 k (S k)).
  - simpl trace. rewrite Hh. apply Nat.leb_le. lia.
  - intros j Hj. simpl trace. rewrite Hh. apply Nat.leb_gt. lia.
  - lia.
Qed.

(** ** What a computation adds to the trace *)

Section Emits.
Variable P : event -> Prop.

Lemma emits_ret {A} (a : A) : emits P (mret a).
Proof.
  intros w w' r [= <- <-]. exists []. rewrite app_nil_r. split; [reflexivity|constructor].
Qed.

Lemma emits_raise {A} (x : exn) : emits P (@raise A x).
Proof.
  intros w w' r [= <- <-]. exists []. rewrite app_nil_r. split; [reflexivity|constructor].
Qed.

Lemma emits_diverge {A} : emits P (@diverge A).
Proof.
  intros w w' r [= <- <-]. exists []. rewrite app_nil_r. split; [reflexivity|constructor].
Qed.

Lemma emits_emit (ev : event) : P ev -> emits P (emit ev).
Proof.
  intros Hev w w' r [= <- <-]. exists [ev]. split; [reflexivity|].
  constructor; [exact Hev|constructor].
Qed.

Lemma emits_write_file path f : emits P (write_file path f).
Proof.
  intros w w' r [= <- <-]. exists []. simpl. rewrite app_nil_r.
  split; [reflexivity|constructor].
Qed.

Lemma emits_get_trace : emits P get_trace.
Proof.
  intros w w' r [= <- <-]. exists []. rewrite app_nil_r. split; [reflexivity|constructor].
Qed.

Lemma emits_sheet_append self values : emits P (ExcelCreator.sheet_append self values).
Proof.
  unfold ExcelCreator.sheet_append.
  destruct (ExcelCreator.append (ExcelCreator.sheet self) values) as [ws [x|]].
  - apply emits_raise.
  - apply emits_ret.
Qed.

Lemma emits_bind {A B} (m : M A) (k : A -> M B) :
  emits P m -> (forall a, emits P (k a)) -> emits P (m ≫= k).
Proof.
  intros Hm Hk w w' r H. rewrite run_bind in H.
  destruct (m w) as [w1 [a|x|]] eqn:E.
  - destruct (Hm _ _ _ E) as (t1 & Ht1 & HP1).
    destruct (Hk a _ _ _ H) as (t2 & Ht2 & HP2).
    exists (t1 ++ t2). rewrite Ht2, Ht1, app_assoc. split; [reflexivity|].
    apply Forall_app. auto.
  - inversion H; subst. exact (Hm _ _ _ E).
  - inversion H; subst. exact (Hm _ _ _ E).
Qed.

End Emits.

(** Nothing after the date filter selects an option of a list. *)
Section NoLaterSelection.
Ltac quiet_step :=
  first
    [ apply emits_bind; [|intros ?]
    | apply emits_ret
    | apply emits_raise
    | apply emits_diverge
    | apply emits_write_file
    | apply emits_get_trace
    | apply emits_emit; reflexivity ].

Lemma quiet_info msg args : emits quiet (logging.info msg args).
Proof. apply emits_emit. reflexivity. Qed.

Lemma quiet_error msg args : emits quiet (logging.error msg args).
Proof. apply emits_emit. reflexivity. Qed.

Lemma quiet_load_more_loop fuel e : emits quiet (load_more_loop fuel e).
Proof.
  induction fuel as [|fuel IH]; cbn [load_more_loop]; [apply emits_diverge|].
  apply emits_bind.
  { unfold page.is_hidden. repeat quiet_step. }
  intros hidden. destruct hidden; [apply emits_ret|].
  unfold page.click, time.sleep.
  apply emits_bind; [apply emits_emit; reflexivity|intros _].
  apply emits_bind; [apply emits_emit; reflexivity|intros _].
  exact IH.
Qed.

Lemma quiet_artifact_path e name : emits quiet (artifact_path e name).
Proof. unfold artifact_path. destruct (ROBOT_ARTIFACTS e); quiet_step. Qed.

Lemma quiet_download_image e url name : emits quiet (download_image e url name).
Proof.
  unfold download_image, requests.get.
  apply emits_bind; [apply quiet_artifact_path|intros path].
  apply emits_bind; [apply quiet_info|intros _].
  apply emits_bind; [repeat quiet_step|intros resp].
  destruct (status_code resp =? 200).
  - apply emits_bind; [apply emits_write_file|intros _]. apply quiet_info.
  - apply quiet_error.
Qed.

Lemma quiet_load_global e name : emits quiet (load_global e name).
Proof. unfold load_global. destruct (globals e !! name); quiet_step. Qed.

Lemma quiet_process_article e phrase xl a : emits quiet (process_article e phrase xl a).
Proof.
  unfold process_article.
  apply emits_bind; [unfold expect_str; destruct phrase; quiet_step|intros p].
  apply emits_bind; [apply quiet_load_global|intros i].
  apply emits_bind; [apply quiet_download_image|intros _].
  apply emits_bind; [apply quiet_load_global|intros i'].
  unfold ExcelCreator.add_row.
  apply emits_bind; [apply quiet_info|intros _]. apply emits_sheet_append.
Qed.

Lemma quiet_process_articles e phrase articles xl :
  emits quiet (process_articles e phrase xl articles).
Proof.
  revert xl. induction articles as [|a articles IH]; intros xl; simpl.
  - apply emits_ret.
  - apply emits_bind; [apply quiet_process_article|intros xl']. apply IH.
Qed.

Lemma quiet_collect_news fuel e phrase : emits quiet (collect_news fuel e phrase).
Proof.
  unfold collect_news, page.click, time.sleep, page.inner_text, page.close.
  apply emits_bind; [apply quiet_info|intros _].
  apply emits_bind; [apply emits_emit; reflexivity|intros _].
  apply emits_bind; [apply emits_emit; reflexivity|intros _].
  apply emits_bind; [apply quiet_info|intros _].
  apply emits_bind; [apply quiet_load_more_loop|intros _].
  apply emits_bind; [apply quiet_info|intros _].
  apply emits_bind; [repeat quiet_step|intros text].
  apply emits_bind.
  { unfold int_of_str. case_match; quiet_step. }
  intros news_amount.
  apply emits_bind; [apply quiet_info|intros _].
  apply emits_bind; [apply quiet_info|intros _].
  apply emits_bind.
  { unfold ExcelCreator.create_headers. apply emits_bind; [apply quiet_info|intros _].
    apply emits_sheet_append. }
  intros xl.
  apply emits_bind; [apply quiet_load_global|intros driver].
  apply emits_bind; [unfold find_elements; destruct driver; quiet_step|intros articles].
  apply emits_bind; [apply quiet_process_articles|intros xl'].
  apply emits_bind; [apply quiet_info|intros _].
  apply emits_bind.
  { unfold ExcelCreator.save_file.
    apply emits_bind; [apply quiet_artifact_path|intros path].
    apply emits_bind; [apply quiet_info|intros _]. apply emits_write_file. }
  intros _.
  apply emits_bind; [apply quiet_info|intros _].
  apply emits_bind; [apply emits_emit; reflexivity|intros _].
  apply quiet_info.
Qed.

Lemma selected_options_quiet t : Forall quiet t -> selected_options t = [].
Proof.
  induction 1 as [|ev t Hev _ IH]; [reflexivity|].
  unfold selected_options in *. csimpl. rewrite Hev. exact IH.
Qed.

End NoLaterSelection.

(** ** The date filter *)

Section DateFilter.

Lemma calculate_run (ref : datetime) (months : Z) (w : world) :
  valid ref -> Z.max 0 months <= month_index ref ->
  exists start,
    DateCalculator.calculate ref months w =
      (mkworld (trace w ++ [calculate_log months]) (fs w), Ok (start, ref)) /\
    valid start /\
    month_index start = month_index ref - Z.max 0 months.
Proof.
  intros Hv Hle.
  set (w1 := mkworld (trace w ++ [calculate_log months]) (fs w)).
  destruct (for_range_step_back (Z.to_nat months) (replace_day ref 1) w1
              (valid_replace_day ref Hv))
    as (start & Hrun & Hvs & His & _); [change (month_index (replace_day ref 1)) with (month_index ref); lia|].
  exists start. split; [|split; [exact Hvs|]].
  - unfold DateCalculator.calculate.
    rewrite (run_bind_ok _ _ w w1 tt) by reflexivity.
    rewrite (run_bind_ok _ _ w1 w1 start) by exact Hrun. reflexivity.
  - change (month_index (replace_day ref 1)) with (month_index ref) in His. lia.
Qed.

(** What [calculate] returns does not depend on the world it runs in. *)
Lemma for_range_step_back_world (n : nat) s :
  exists r, forall w, for_range n DateCalculator.step_back s w = (w, r).
Proof.
  revert s. induction n as [|n IH]; intros s.
  - exists (Ok s). reflexivity.
  - simpl for_range.
    destruct (sub_days s (day s)) as [d|] eqn:E.
    + destruct (IH d) as (r & Hr). exists r. intros w.
      rewrite (run_bind_ok _ _ w w d); [apply Hr|].
      unfold DateCalculator.step_back. rewrite E. reflexivity.
    + exists (Raise (OverflowError "date value out of range")). intros w.
      apply (run_bind_raise _ _ w w).
      unfold DateCalculator.step_back. rewrite E. reflexivity.
Qed.

Lemma calculate_world (ref : datetime) (months : Z) :
  exists r, forall w,
    DateCalculator.calculate ref months w =
      (mkworld (trace w ++ [calculate_log months]) (fs w), r).
Proof.
  destruct (for_range_step_back_world (Z.to_nat months) (replace_day ref 1)) as (r & Hr).
  destruct r as [start|x|].
  - exists (Ok (start, ref)). intros w. unfold DateCalculator.calculate.
    rewrite (run_bind_ok _ _ w _ tt) by reflexivity.
    rewrite (run_bind_ok _ _ _ _ start) by apply Hr. reflexivity.
  - exists (Raise x). intros w. unfold DateCalculator.calculate.
    rewrite (run_bind_ok _ _ w _ tt) by reflexivity.
    rewrite (run_bind_raise _ _ _ _ x) by apply Hr. reflexivity.
  - exists Diverge. intros w. unfold DateCalculator.calculate.
    rewrite (run_bind_ok _ _ w _ tt) by reflexivity.
    rewrite (run_bind_diverge _ _ _ _) by apply Hr. reflexivity.
Qed.

Lemma two_digits_length (n : Z) : 0 <= n < 100 -> String.length (two_digits n) = 2%nat.
Proof.
  intros Hn.
  assert (forallb (fun k => Nat.eqb (String.length (two_digits k)) 2) (seqZ 0 100) = true)
    as Hall by (vm_compute; reflexivity).
  rewrite forallb_forall in Hall.
  apply Nat.eqb_eq, Hall, list_elem_of_In, elem_of_seqZ. lia.
Qed.

Lemma perform_search_run (query : string) (w : world) :
  perform_search query w = (mkworld (trace w ++ search_events query) (fs w), Ok tt).
Proof.
  unfold perform_search, page.click, page.fill, time.sleep, logging.info, emit,
    mbind, M_bind, bind. cbn [trace fs].
  unfold search_events. rewrite <- !app_assoc. reflexivity.
Qed.

Lemma select_date_range_run (pm cm cd yi : string) (w : world) :
  select_date_range pm cm cd yi w =
    (mkworld (trace w ++ date_filter_events pm cm cd yi) (fs w), Ok tt).
Proof.
  unfold select_date_range, page.click, time.sleep, logging.info, emit,
    mbind, M_bind, bind. cbn [trace fs].
  unfold date_filter_events. rewrite <- !app_assoc. reflexivity.
Qed.

(** Lines 150-199 select, in order: the month of the start date, ['01'],
    ['2024'], the month and the day of the reference date, and the
    number of years spanned. *)
Lemma open_and_filter_run (e : env) (months : Z) (query url : string) (w : world) :
  valid (now e) -> Z.max 0 months <= month_index (now e) ->
  secrets e !! "url" = Some url ->
  exists start t,
    (forall w0, snd (DateCalculator.calculate (now e) months w0) = Ok (start, now e)) /\
    valid start /\
    month_index start = month_index (now e) - Z.max 0 months /\
    open_and_filter e months query w = (mkworld (trace w ++ t) (fs w), Ok tt) /\
    selected_options t =
      [two_digits (month start); "01"; "2024";
       two_digits (month (now e)); two_digits (day (now e));
       two_digits (year (now e) - year start + 1)].
Proof.
  intros Hv Hle Hurl.
  destruct (calculate_run (now e) months w Hv Hle) as (start & Hrun & Hvs & Hidx).
  exists start.
  exists ([calculate_log months;
           Log INFO "Configuring browser for automation." [];
           Configure "chromium" "only-on-failure" false;
           GetSecret "Rpa_Challenge"; Goto url; Sleep 3]
          ++ search_events query
          ++ date_filter_events (two_digits (month start)) (two_digits (month (now e)))
               (two_digits (day (now e))) (two_digits (year (now e) - year start + 1))).
  split; [|split; [exact Hvs|split; [exact Hidx|]]].
  - intros w0. destruct (calculate_world (now e) months) as (r & Hr).
    rewrite Hr in Hrun. inversion Hrun; subst. rewrite Hr. reflexivity.
  - split.
    + unfold open_and_filter.
      rewrite (run_bind_ok _ _ _ _ (start, now e)) by exact Hrun.
      cbv zeta.
      generalize (two_digits (month start)) (two_digits (month (now e)))
                 (two_digits (day (now e))) (two_digits (year (now e) - year start + 1)).
      intros pm cm cd yi.
      rewrite (run_bind_ok _ _ _ _ tt) by reflexivity.
      rewrite (run_bind_ok _ _ _ _ tt) by reflexivity.
      rewrite (run_bind_ok _ _ _ _ tt) by reflexivity.
      rewrite (run_bind_ok _ _ _ _ url) by (unfold secret; rewrite Hurl; reflexivity).
      rewrite (run_bind_ok _ _ _ _ tt) by reflexivity.
      rewrite (run_bind_ok _ _ _ _ tt) by reflexivity.
      rewrite (run_bind_ok _ _ _ _ tt) by apply perform_search_run.
      rewrite select_date_range_run. cbn [trace fs].
      rewrite <- !app_assoc. reflexivity.
    + unfold selected_options. rewrite !omap_app. reflexivity.
Qed.

(** C8 (as amended): in a run with an integer [Month >= 0] the start
    month, the end month and the end day are selected by the option whose
    id is the two-digit month or day of the computed start date and of
    the reference date; the start day is always the option ['01']; the
    end year is selected by the number of years spanned,
    [end year - start year + 1], not by a year in four digits: a number
    from 1 on, written with a leading zero below 10, which makes two
    digits as long as it is below 100, as it is for every [Month] up to
    1177. Nothing later in the run selects an option. *)
Theorem date_filter_selects (e : env) (n : Z) (url : string) (fuel : nat) (w : world) :
  payload e !! "Month" = Some (VInt n) -> 0 <= n ->
  valid (now e) -> n - 1 <= month_index (now e) ->
  secrets e !! "url" = Some url ->
  exists start from_year t w' r,
    (forall w0, snd (DateCalculator.calculate (now e) (n - 1) w0) = Ok (start, now e)) /\
    month_index start = month_index (now e) - Z.max 0 (n - 1) /\
    minimal_task fuel e w = (w', r) /\
    trace w' = trace w ++ t /\
    selected_options t =
      [two_digits (month start); "01"; from_year;
       two_digits (month (now e)); two_digits (day (now e));
       two_digits (year (now e) - year start + 1)] /\
    String.length (two_digits (month start)) = 2%nat /\
    String.length (two_digits (month (now e))) = 2%nat /\
    String.length (two_digits (day (now e))) = 2%nat /\
    1 <= year (now e) - year start + 1 /\
    (year (now e) - year start + 1 < 100 ->
     String.length (two_digits (year (now e) - year start + 1)) = 2%nat) /\
    (n <= 1177 -> year (now e) - year start + 1 < 100).
Proof.
  intros Hm Hn Hv Hle Hurl.
  assert (0 <= month_index (now e)) as Hidx0.
  { destruct Hv as (? & ? & _). unfold month_index, MINYEAR in *. lia. }
  set (query := Str.str (default (VStr "Economy") (payload e !! "Phrase")) +:+ " in "
                +:+ Str.str (default (VStr "LatinAmerica") (payload e !! "Category"))).
  set (w1 := mkworld (trace w ++ start_logs e) (fs w)).
  destruct (open_and_filter_run e (n - 1) query url w1 Hv ltac:(lia) Hurl)
    as (start & t1 & Hcalc & Hvs & Hidx & Hrun & Hsel).
  set (phrase := default (VStr "Economy") (payload e !! "Phrase")).
  destruct (collect_news fuel e phrase (mkworld (trace w1 ++ t1) (fs w1)))
    as [w' r] eqn:Hrest.
  destruct (quiet_collect_news fuel e phrase _ _ _ Hrest) as (t2 & Ht2 & Hquiet).
  exists start, "2024", (start_logs e ++ t1 ++ t2), w', r.
  split; [exact Hcalc|]. split; [exact Hidx|]. split; [|split; [|split]].
  - unfold minimal_task. rewrite Hm. simpl default.
    rewrite (run_bind_ok _ _ w (mkworld (trace w ++ [Log INFO "Starting minimal task." []]) (fs w)) tt)
      by reflexivity.
    rewrite (run_bind_ok _ _ _ (mkworld ((trace w ++ [Log INFO "Starting minimal task." []]) ++
               [Log INFO "Received payload: %s" [ADict (payload e)]]) (fs w)) tt)
      by reflexivity.
    simpl app. rewrite <- app_assoc. simpl app. fold (start_logs e). fold w1.
    unfold py_lt. rewrite (run_bind_ok _ _ w1 w1 (n <? 0)) by reflexivity.
    destruct (n <? 0) eqn:E; [apply Z.ltb_lt in E; lia|].
    unfold py_sub. rewrite (run_bind_ok _ _ w1 w1 (n - 1)) by reflexivity.
    fold query. rewrite (run_bind_ok _ _ w1 _ tt) by exact Hrun.
    fold phrase. exact Hrest.
  - rewrite Ht2. simpl. rewrite <- !app_assoc. reflexivity.
  - unfold selected_options in *. rewrite !omap_app.
    fold (selected_options t2). rewrite (selected_options_quiet t2 Hquiet).
    rewrite Hsel. reflexivity.
  - destruct Hv as (_ & ? & ? ), Hvs as (_ & ? & _).
    pose proof (days_in_month_bounds (year (now e)) (month (now e))).
    unfold month_index in Hidx.
    assert (1 <= year (now e) - year start + 1) as Hyi by lia.
    split; [apply two_digits_length; lia|].
    split; [apply two_digits_length; lia|].
    split; [apply two_digits_length; lia|].
    split; [exact Hyi|].
    split; [intros Hlt; apply two_digits_length; lia|].
    intros Hsmall. lia.
Qed.

End DateFilter.

Lemma date_filter_selects_witness :
  let e := sample_env 2 module_namespace in
  exists start from_year t w' r,
    (forall w0, snd (DateCalculator.calculate (now e) (2 - 1) w0) = Ok (start, now e)) /\
    month_index start = month_index (now e) - Z.max 0 (2 - 1) /\
    minimal_task 5 e world0 = (w', r) /\
    trace w' = trace world0 ++ t /\
    selected_options t =
      [two_digits (month start); "01"; from_year;
       two_digits (month (now e)); two_digits (day (now e));
       two_digits (year (now e) - year start + 1)] /\
    String.length (two_digits (month start)) = 2%nat /\
    String.length (two_digits (month (now e))) = 2%nat /\
    String.length (two_digits (day (now e))) = 2%nat /\
    1 <= year (now e) - year start + 1 /\
    (year (now e) - year start + 1 < 100 ->
     String.length (two_digits (year (now e) - year start + 1)) = 2%nat) /\
    (2 <= 1177 -> year (now e) - year start + 1 < 100).
Proof.
  apply (date_filter_selects (sample_env 2 module_namespace) 2
           "https://www.foxnews.com" 5 world0).
  - vm_compute. reflexivity.
  - lia.
  - apply validb_valid. reflexivity.
  - vm_compute. discriminate.
  - vm_compute. reflexivity.
Defined.

(** C8 as stated fails: two months back from 2024-03-15 the window is
    2024-02-29 .. 2024-03-15, and the run selects the start day ['01'] and
    the end year ['01'], not ['29'] and ['2024']. *)
Lemma date_filter_not_window_options :
  let e := sample_env 2 module_namespace in
  exists start,
    snd (DateCalculator.calculate (now e) 1 world0) = Ok (start, now e) /\
    selected_options (trace (fst (minimal_task 5 e world0))) =
      ["02"; "01"; "2024"; "03"; "15"; "01"] /\
    window_options start (now e) = ["02"; "29"; "2024"; "03"; "15"; "2024"] /\
    selected_options (trace (fst (minimal_task 5 e world0))) <>
      window_options start (now e).
Proof.
  exists (mkdt 2024 2 29 10 30 0 0).
  split; [vm_compute; reflexivity|].
  split; [vm_compute; reflexivity|].
  split; [vm_compute; reflexivity|].
  vm_compute. discriminate.
Qed.

(** ** The loop over the articles *)

(** C4 fails on the code: the loop body reads a name [i] that nothing
    binds. In the module as written the first article raises [NameError]
    before any fetch, and line 227 already raises it for [driver]; were [i]
    bound once, to 0, every article would be fetched to [img_0.jpg]. *)
Theorem article_loop_index_unbound :
  (forall payload now dir secrets hidden num http phrase excel_creator a rest w,
     process_articles
       (mkenv payload now dir secrets hidden num http module_namespace)
       (VStr phrase) excel_creator (a :: rest) w =
     (w, Raise (NameError "i"))) /\
  snd (minimal_task 5 (sample_env 2 module_namespace) world0) =
    Raise (NameError "driver") /\
  (let run := minimal_task 5 (sample_env 2 with_driver) world0 in
   snd run = Raise (NameError "i") /\ fetched (trace (fst run)) = [] /\
   fs (fst run) = ∅) /\
  (let run := minimal_task 5 (sample_env 2 (with_driver_and_i 0)) world0 in
   snd run = Ok tt /\
   fetched (trace (fst run)) = ["http://img/1.jpg"; "http://img/2.jpg"; "http://img/3.jpg"] /\
   fetch_targets (trace (fst run)) =
     ["output/img_0.jpg"; "output/img_0.jpg"; "output/img_0.jpg"]).
Proof.
  split; [|split; [|split]].
  - intros. reflexivity.
  - vm_compute. reflexivity.
  - repeat split; vm_compute; reflexivity.
  - repeat split; vm_compute; reflexivity.
Qed.


(** * Further properties of the code *)

(** ** DateCalculator.calculate at its edges *)

(** [calculate] goes back as far as January of year 1 and no further: a
    count of months within that range gives a start date, a larger one
    raises [OverflowError] once the line is logged. *)
Theorem calculate_overflows_before_year_one (ref : datetime) (months : Z) (w : world) :
  valid ref ->
  (months <= month_index ref ->
   exists start,
     DateCalculator.calculate ref months w =
       (mkworld (trace w ++ [calculate_log months]) (fs w), Ok (start, ref))) /\
  (month_index ref < months ->
   DateCalculator.calculate ref months w =
     (mkworld (trace w ++ [calculate_log months]) (fs w),
      Raise (OverflowError "date value out of range"))).
Proof.
  intros Hv. split.
  - intros Hle.
    assert (0 <= month_index ref) as Hidx0.
    { destruct Hv as (? & ? & _). unfold month_index, MINYEAR in *. lia. }
    destruct (calculate_run ref months w Hv) as (start & Hrun & _); [lia|].
    exists start. exact Hrun.
  - intros Hlt. apply calculate_overflow; assumption.
Qed.

Lemma calculate_overflows_before_year_one_witness :
  DateCalculator.calculate (mkdt 1 2 10 0 0 0 0) 2 world0 =
    (mkworld (trace world0 ++ [calculate_log 2]) (fs world0),
     Raise (OverflowError "date value out of range")).
Proof.
  apply (proj2 (calculate_overflows_before_year_one (mkdt 1 2 10 0 0 0 0) 2 world0
                  ltac:(apply validb_valid; reflexivity))).
  vm_compute. reflexivity.
Defined.

(** A count of months that is zero or negative leaves the loop of
    [calculate] without a turn: the window starts on the first day of the
    reference month, at the reference time of day. *)
Lemma calculate_no_months (ref : datetime) (months : Z) (w : world) :
  months <= 0 ->
  DateCalculator.calculate ref months w =
    (mkworld (trace w ++ [calculate_log months]) (fs w),
     Ok (mkdt (year ref) (month ref) 1 (hour ref) (minute ref) (second ref)
              (microsecond ref), ref)).
Proof.
  intros Hm. unfold DateCalculator.calculate.
  rewrite (run_bind_ok _ _ w _ tt) by reflexivity.
  replace (Z.to_nat months) with O by lia. reflexivity.
Qed.

Lemma calculate_no_months_witness :
  DateCalculator.calculate march_15 (-1) world0 =
    (mkworld (trace world0 ++ [calculate_log (-1)]) (fs world0),
     Ok (mkdt 2024 3 1 10 30 0 0, march_15)).
Proof.
  apply (calculate_no_months march_15 (-1) world0). lia.
Defined.

(** ** minimal_task up to the date filter *)

(** After the check of [Month], the task is the two phases that follow. *)
Lemma minimal_task_checked (e : env) (n : Z) (fuel : nat) (w : world) :
  payload e !! "Month" = Some (VInt n) -> 0 <= n ->
  minimal_task fuel e w =
    (open_and_filter e (n - 1) (search_query e) ≫= fun _ =>
     collect_news fuel e (default (VStr "Economy") (payload e !! "Phrase")))
      (mkworld (trace w ++ start_logs e) (fs w)).
Proof.
  intros Hm Hn. unfold minimal_task. rewrite Hm. simpl default.
  rewrite (run_bind_ok _ _ w (mkworld (trace w ++ [Log INFO "Starting minimal task." []]) (fs w)) tt)
    by reflexivity.
  rewrite (run_bind_ok _ _ _ (mkworld ((trace w ++ [Log INFO "Starting minimal task." []]) ++
             [Log INFO "Received payload: %s" [ADict (payload e)]]) (fs w)) tt)
    by reflexivity.
  rewrite <- app_assoc. simpl app. fold (start_logs e).
  unfold py_lt. rewrite (run_bind_ok _ _ _ _ (n <? 0)) by reflexivity.
  destruct (n <? 0) eqn:E; [apply Z.ltb_lt in E; lia|].
  unfold py_sub. rewrite (run_bind_ok _ _ _ _ (n - 1)) by reflexivity.
  reflexivity.
Qed.

(** Lines 150-199 in full: the events they add, in order. *)
Lemma open_and_filter_trace (e : env) (months : Z) (query url : string) (w : world) :
  valid (now e) -> Z.max 0 months <= month_index (now e) ->
  secrets e !! "url" = Some url ->
  exists start,
    valid start /\
    month_index start = month_index (now e) - Z.max 0 months /\
    open_and_filter e months query w =
      (mkworld (trace w ++ calculate_log months :: secret_events ++ goto_events url ++
                  search_events query ++
                  date_filter_events (two_digits (month start))
                    (two_digits (month (now e))) (two_digits (day (now e)))
                    (two_digits (year (now e) - year start + 1)))
               (fs w),
       Ok tt).
Proof.
  intros Hv Hle Hurl.
  destruct (calculate_run (now e) months w Hv Hle) as (start & Hrun & Hvs & Hidx).
  exists start. split; [exact Hvs|]. split; [exact Hidx|].
  unfold open_and_filter.
  rewrite (run_bind_ok _ _ _ _ (start, now e)) by exact Hrun.
  cbv zeta.
  generalize (two_digits (month start)) (two_digits (month (now e)))
             (two_digits (day (now e))) (two_digits (year (now e) - year start + 1)).
  intros pm cm cd yi.
  rewrite (run_bind_ok _ _ _ _ tt) by reflexivity.
  rewrite (run_bind_ok _ _ _ _ tt) by reflexivity.
  rewrite (run_bind_ok _ _ _ _ tt) by reflexivity.
  rewrite (run_bind_ok _ _ _ _ url) by (unfold secret; rewrite Hurl; reflexivity).
  rewrite (run_bind_ok _ _ _ _ tt) by reflexivity.
  rewrite (run_bind_ok _ _ _ _ tt) by reflexivity.
  rewrite (run_bind_ok _ _ _ _ tt) by apply perform_search_run.
  rewrite select_date_range_run. cbn [trace fs].
  unfold secret_events, goto_events. rewrite <- !app_assoc. reflexivity.
Qed.

(** With [Month] 0 or 1 the window starts in the reference month: the run
    selects the reference month twice, the start day ['01'], the reference
    day, and the year index ['01']. *)
Theorem current_month_window (e : env) (n : Z) (url : string) (fuel : nat) (w : world) :
  payload e !! "Month" = Some (VInt n) -> 0 <= n <= 1 ->
  valid (now e) -> secrets e !! "url" = Some url ->
  exists t w' r,
    minimal_task fuel e w = (w', r) /\
    trace w' = trace w ++ t /\
    selected_options t =
      [two_digits (month (now e)); "01"; "2024";
       two_digits (month (now e)); two_digits (day (now e)); "01"].
Proof.
  intros Hm Hn Hv Hurl.
  assert (0 <= month_index (now e)) as Hidx0.
  { destruct Hv as (? & ? & _). unfold month_index, MINYEAR in *. lia. }
  set (w1 := mkworld (trace w ++ start_logs e) (fs w)).
  destruct (open_and_filter_run e (n - 1) (search_query e) url w1 Hv ltac:(lia) Hurl)
    as (start & t1 & _ & Hvs & Hidx & Hrun & Hsel).
  assert (year start = year (now e) /\ month start = month (now e)) as [Ey Em].
  { destruct Hv as (_ & ? & _), Hvs as (_ & ? & _). unfold month_index in Hidx. lia. }
  set (phrase := default (VStr "Economy") (payload e !! "Phrase")).
  destruct (collect_news fuel e phrase (mkworld (trace w1 ++ t1) (fs w1)))
    as [w' r] eqn:Hrest.
  destruct (quiet_collect_news fuel e phrase _ _ _ Hrest) as (t2 & Ht2 & Hquiet).
  exists (start_logs e ++ t1 ++ t2), w', r. split; [|split].
  - rewrite (minimal_task_checked e n fuel w Hm) by lia. fold w1 phrase.
    rewrite (run_bind_ok _ _ w1 _ tt) by exact Hrun. exact Hrest.
  - rewrite Ht2. simpl. rewrite <- !app_assoc. reflexivity.
  - unfold selected_options in *. rewrite !omap_app.
    fold (selected_options t2). rewrite (selected_options_quiet t2 Hquiet).
    rewrite Hsel, Ey, Em.
    replace (year (now e) - year (now e) + 1) with 1 by lia. reflexivity.
Qed.

Lemma current_month_window_witness :
  let e := with_payload {["Month" := VInt 0]} (sample_env 1 module_namespace) in
  exists t w' r,
    minimal_task 5 e world0 = (w', r) /\
    trace w' = trace world0 ++ t /\
    selected_options t =
      [two_digits (month (now e)); "01"; "2024";
       two_digits (month (now e)); two_digits (day (now e)); "01"].
Proof.
  apply (current_month_window
           (with_payload {["Month" := VInt 0]} (sample_env 1 module_namespace))
           0 "https://www.foxnews.com" 5 world0).
  - vm_compute. reflexivity.
  - lia.
  - apply validb_valid. reflexivity.
  - vm_compute. reflexivity.
Defined.

(** A [Month] that is a string, even one of digits, or [None] stops the
    task at the comparison with 0: [TypeError] after the first two log
    lines, nothing else done. *)
Theorem month_not_a_number_raises (e : env) (v : pyval) (fuel : nat) (w : world) :
  payload e !! "Month" = Some v -> not_a_number v = true ->
  exists what,
    minimal_task fuel e w =
      (mkworld (trace w ++ start_logs e) (fs w), Raise (TypeError what)).
Proof.
  intros Hm Hv. unfold minimal_task. rewrite Hm. simpl default.
  destruct v; try discriminate; eexists;
    unfold mbind, M_bind, bind, logging.info, emit, py_lt, raise;
    simpl; unfold start_logs; rewrite <- !app_assoc; reflexivity.
Qed.

Lemma month_not_a_number_raises_witness :
  let e := with_payload {["Month" := VStr "2"]} (sample_env 1 module_namespace) in
  exists what,
    minimal_task 5 e world0 =
      (mkworld (trace world0 ++ start_logs e) (fs world0), Raise (TypeError what)).
Proof.
  apply (month_not_a_number_raises
           (with_payload {["Month" := VStr "2"]} (sample_env 1 module_namespace))
           (VStr "2") 5 world0).
  - vm_compute. reflexivity.
  - reflexivity.
Defined.

(** A window that would start before January of year 1 stops the task
    with [OverflowError] before the browser is configured. *)
Theorem window_overflow_raises (e : env) (n : Z) (fuel : nat) (w : world) :
  payload e !! "Month" = Some (VInt n) -> 0 <= n ->
  valid (now e) -> month_index (now e) < n - 1 ->
  minimal_task fuel e w =
    (mkworld (trace w ++ start_logs e ++ [calculate_log (n - 1)]) (fs w),
     Raise (OverflowError "date value out of range")).
Proof.
  intros Hm Hn Hv Hlt.
  rewrite (minimal_task_checked e n fuel w Hm Hn).
  rewrite (run_bind_raise _ _ _
             (mkworld ((trace w ++ start_logs e) ++ [calculate_log (n - 1)]) (fs w))
             (OverflowError "date value out of range")).
  - rewrite <- app_assoc. reflexivity.
  - unfold open_and_filter. apply run_bind_raise.
    apply (calculate_overflow (now e) (n - 1) (mkworld (trace w ++ start_logs e) (fs w)));
      assumption.
Qed.

Lemma window_overflow_raises_witness :
  let e := with_payload {["Month" := VInt 30000]} (sample_env 1 module_namespace) in
  minimal_task 5 e world0 =
    (mkworld (trace world0 ++ start_logs e ++ [calculate_log (30000 - 1)]) (fs world0),
     Raise (OverflowError "date value out of range")).
Proof.
  apply (window_overflow_raises
           (with_payload {["Month" := VInt 30000]} (sample_env 1 module_namespace))
           30000 5 world0).
  - vm_compute. reflexivity.
  - lia.
  - apply validb_valid. reflexivity.
  - vm_compute. reflexivity.
Defined.

(** Without the key [url] in the secret the task stops with [KeyError]
    once the secret is read: the browser is configured, no page is opened. *)
Theorem missing_url_raises (e : env) (n : Z) (fuel : nat) (w : world) :
  payload e !! "Month" = Some (VInt n) -> 0 <= n ->
  valid (now e) -> n - 1 <= month_index (now e) ->
  secrets e !! "url" = None ->
  minimal_task fuel e w =
    (mkworld (trace w ++ start_logs e ++ calculate_log (n - 1) :: secret_events) (fs w),
     Raise (KeyError "url")).
Proof.
  intros Hm Hn Hv Hle Hurl.
  assert (0 <= month_index (now e)) as Hidx0.
  { destruct Hv as (? & ? & _). unfold month_index, MINYEAR in *. lia. }
  rewrite (minimal_task_checked e n fuel w Hm Hn).
  destruct (calculate_run (now e) (n - 1) (mkworld (trace w ++ start_logs e) (fs w)) Hv)
    as (start & Hrun & _); [lia|].
  rewrite (run_bind_raise _ _ _
             (mkworld ((trace w ++ start_logs e) ++ calculate_log (n - 1) :: secret_events)
                      (fs w))
             (KeyError "url")).
  - rewrite <- app_assoc. reflexivity.
  - unfold open_and_filter.
    rewrite (run_bind_ok _ _ _ _ (start, now e)) by exact Hrun.
    cbv zeta.
    rewrite (run_bind_ok _ _ _ _ tt) by reflexivity.
    rewrite (run_bind_ok _ _ _ _ tt) by reflexivity.
    rewrite (run_bind_ok _ _ _ _ tt) by reflexivity.
    erewrite run_bind_raise; [|unfold secret; rewrite Hurl; reflexivity].
    cbn [trace fs]. unfold secret_events. rewrite <- !app_assoc. reflexivity.
Qed.

Lemma missing_url_raises_witness :
  let e := mkenv {["Month" := VInt 2]} march_15 (Some "output") ∅
                 (hidden_after_clicks 0) "3" (fun _ => mkresponse 200 "JPEG")
                 module_namespace in
  minimal_task 5 e world0 =
    (mkworld (trace world0 ++ start_logs e ++ calculate_log (2 - 1) :: secret_events)
             (fs world0),
     Raise (KeyError "url")).
Proof.
  apply (missing_url_raises
           (mkenv {["Month" := VInt 2]} march_15 (Some "output") ∅
                  (hidden_after_clicks 0) "3" (fun _ => mkresponse 200 "JPEG")
                  module_namespace)
           2 5 world0).
  - vm_compute. reflexivity.
  - lia.
  - apply validb_valid. reflexivity.
  - vm_compute. discriminate.
  - reflexivity.
Defined.

(** Up to the date filter a run with an integer [Month >= 0] does, in this
    order: the two start lines, the date window, the browser set-up and the
    secret, one navigation, to the URL of the secret, the search for
    ["<Phrase> in <Category>"], and the date filter; a missing [Phrase] reads
    as [Economy], a missing [Category] as [LatinAmerica]. *)
Theorem run_up_to_date_filter (e : env) (n : Z) (url : string) (fuel : nat) (w : world) :
  payload e !! "Month" = Some (VInt n) -> 0 <= n ->
  valid (now e) -> n - 1 <= month_index (now e) ->
  secrets e !! "url" = Some url ->
  (exists start rest w' r,
     minimal_task fuel e w = (w', r) /\
     trace w' =
       trace w ++ start_logs e ++ calculate_log (n - 1) :: secret_events ++
       goto_events url ++ search_events (search_query e) ++
       date_filter_events (two_digits (month start)) (two_digits (month (now e)))
         (two_digits (day (now e))) (two_digits (year (now e) - year start + 1)) ++
       rest) /\
  (payload e !! "Phrase" = None -> payload e !! "Category" = None ->
   search_query e = "Economy in LatinAmerica") /\
  (forall p c, payload e !! "Phrase" = Some (VStr p) ->
               payload e !! "Category" = Some (VStr c) ->
               search_query e = p +:+ " in " +:+ c).
Proof.
  intros Hm Hn Hv Hle Hurl. split; [|split].
  - assert (0 <= month_index (now e)) as Hidx0.
    { destruct Hv as (? & ? & _). unfold month_index, MINYEAR in *. lia. }
    set (w1 := mkworld (trace w ++ start_logs e) (fs w)).
    destruct (open_and_filter_trace e (n - 1) (search_query e) url w1 Hv ltac:(lia) Hurl)
      as (start & _ & _ & Hrun).
    set (phrase := default (VStr "Economy") (payload e !! "Phrase")).
    match type of Hrun with _ = (?x, _) => set (w2 := x) in * end.
    destruct (collect_news fuel e phrase w2) as [w' r] eqn:Hrest.
    destruct (quiet_collect_news fuel e phrase _ _ _ Hrest) as (t2 & Ht2 & _).
    exists start, t2, w', r. split.
    + rewrite (minimal_task_checked e n fuel w Hm Hn). fold w1 phrase.
      rewrite (run_bind_ok _ _ w1 w2 tt) by exact Hrun. exact Hrest.
    + rewrite Ht2. unfold w2, w1. cbn [trace]. rewrite <- !app_assoc.
      reflexivity.
  - intros Hp Hc. unfold search_query. rewrite Hp, Hc. reflexivity.
  - intros p c Hp Hc. unfold search_query. rewrite Hp, Hc. reflexivity.
Qed.

Lemma run_up_to_date_filter_witness :
  let e := sample_env 1 module_namespace in
  exists start rest w' r,
    minimal_task 5 e world0 = (w', r) /\
    trace w' =
      trace world0 ++ start_logs e ++ calculate_log (2 - 1) :: secret_events ++
      goto_events "https://www.foxnews.com" ++ search_events (search_query e) ++
      date_filter_events (two_digits (month start)) (two_digits (month (now e)))
        (two_digits (day (now e))) (two_digits (year (now e) - year start + 1)) ++
      rest.
Proof.
  apply (proj1 (run_up_to_date_filter (sample_env 1 module_namespace) 2
                  "https://www.foxnews.com" 5 world0
                  ltac:(vm_compute; reflexivity) ltac:(lia)
                  ltac:(apply validb_valid; reflexivity)
                  ltac:(vm_compute; discriminate)
                  ltac:(vm_compute; reflexivity))).
Defined.

(** ** ExcelCreator beyond the round trip *)

(** [add_row] writes the next row and nothing else. Where the cells take
    the values as they are, the cursor moves down by one, the cells of the
    new row are the values given, from column 1 on, every other row is as
    before, and no file is touched. Where a string is refused, the call
    raises after its log line: the sheet then has the values before that
    string in the cells of the next row, and its cursor has not moved. *)
Theorem add_row_touches_next_row (self : ExcelCreator.t) (data : list pyval) (w : world) :
  (forallb Cell.accepts data = true ->
   exists self',
     ExcelCreator.add_row self data w =
       (mkworld (trace w ++ [Log INFO "Adding row to Excel: %s" [AList data]]) (fs w),
        Ok self') /\
     ExcelCreator.filename self' = ExcelCreator.filename self /\
     current_row (ExcelCreator.sheet self') = S (current_row (ExcelCreator.sheet self)) /\
     (forall r c, r <> S (current_row (ExcelCreator.sheet self)) ->
        cells (ExcelCreator.sheet self') !! (r, c) =
        cells (ExcelCreator.sheet self) !! (r, c)) /\
     (forall c, (c < length data)%nat ->
        cells (ExcelCreator.sheet self') !! (S (current_row (ExcelCreator.sheet self)), S c) =
        data !! c)) /\
  (forall (pre post : list pyval) (s : string) (x : exn),
     data = pre ++ VStr s :: post ->
     forallb Cell.accepts pre = true ->
     Cell.check_string s = inl x ->
     ExcelCreator.add_row self data w =
       (mkworld (trace w ++ [Log INFO "Adding row to Excel: %s" [AList data]]) (fs w),
        Raise x) /\
     exists ws',
       ExcelCreator.append (ExcelCreator.sheet self) data = (ws', Some x) /\
       current_row ws' = current_row (ExcelCreator.sheet self) /\
       (forall r c, r <> S (current_row (ExcelCreator.sheet self)) ->
          cells ws' !! (r, c) = cells (ExcelCreator.sheet self) !! (r, c)) /\
       (forall c, (c < length pre)%nat ->
          cells ws' !! (S (current_row (ExcelCreator.sheet self)), S c) = pre !! c) /\
       (forall c, (length pre < c)%nat ->
          cells ws' !! (S (current_row (ExcelCreator.sheet self)), c) =
          cells (ExcelCreator.sheet self) !! (S (current_row (ExcelCreator.sheet self)), c))).
Proof.
  split.
  - intros Hacc.
    destruct (add_row_run self data w Hacc) as (self' & Hrun & Hname & Hcur & Hcells).
    exists self'. split; [exact Hrun|]. split; [exact Hname|]. split; [exact Hcur|]. split.
    + intros r c Hr. rewrite Hcells, decide_False by tauto. reflexivity.
    + intros c Hc. rewrite Hcells, decide_True by lia. f_equal. lia.
  - intros pre post s x -> Hacc Hs.
    destruct (append_refused (ExcelCreator.sheet self) pre post s x Hacc Hs)
      as (ws' & Happ & Hcur & Hw).
    split.
    + unfold ExcelCreator.add_row.
      erewrite run_bind_ok by reflexivity.
      unfold ExcelCreator.sheet_append. rewrite Happ. reflexivity.
    + exists ws'. split; [exact Happ|]. split; [exact Hcur|]. split; [|split].
      * intros r c Hr. rewrite Hw, decide_False by tauto. reflexivity.
      * intros c Hc. rewrite Hw, decide_True by lia. f_equal. lia.
      * intros c Hc. rewrite Hw, decide_False by lia. reflexivity.
Qed.

Lemma add_row_touches_next_row_witness :
  let self := ExcelCreator.init "data.xlsx" in
  let bad := String (ascii_of_nat 1) "b" in
  (exists self',
     ExcelCreator.add_row self [VStr "a"; VInt 1] world0 =
       (mkworld (trace world0 ++ [Log INFO "Adding row to Excel: %s" [AList [VStr "a"; VInt 1]]])
                (fs world0),
        Ok self') /\
     current_row (ExcelCreator.sheet self') = 1%nat /\
     cells (ExcelCreator.sheet self') !! (1%nat, 2%nat) = Some (VInt 1)) /\
  (exists what ws',
     ExcelCreator.add_row self [VStr "a"; VStr bad; VInt 1] world0 =
       (mkworld (trace world0 ++
                   [Log INFO "Adding row to Excel: %s" [AList [VStr "a"; VStr bad; VInt 1]]])
                (fs world0),
        Raise (IllegalCharacterError what)) /\
     ExcelCreator.append (ExcelCreator.sheet self) [VStr "a"; VStr bad; VInt 1] =
       (ws', Some (IllegalCharacterError what)) /\
     current_row ws' = 0%nat /\
     cells ws' !! (1%nat, 1%nat) = Some (VStr "a") /\
     cells ws' !! (1%nat, 2%nat) = None).
Proof.
  intros self bad. split.
  - destruct (add_row_touches_next_row self [VStr "a"; VInt 1] world0) as [H _].
    destruct (H eq_refl) as (self' & Hrun & _ & Hcur & _ & Hrow).
    exists self'. split; [exact Hrun|]. split; [exact Hcur|].
    apply (Hrow 1%nat). simpl. lia.
  - destruct (add_row_touches_next_row self [VStr "a"; VStr bad; VInt 1] world0) as [_ H].
    destruct (H [VStr "a"] [VInt 1] bad
                (IllegalCharacterError (bad +:+ " cannot be used in worksheets."))
                eq_refl eq_refl eq_refl)
      as (Hrun & ws' & Happ & Hcur & _ & Hpre & Hpost).
    eexists. exists ws'. split; [exact Hrun|]. split; [exact Happ|]. split; [exact Hcur|].
    split.
    + apply (Hpre 0%nat). simpl. lia.
    + etransitivity; [apply (Hpost 2%nat); simpl; lia|reflexivity].
Defined.

(** [create_headers] does not need an empty sheet and does not put the
    headers first: on a sheet that holds rows it writes them, where the
    cells take them as they are, as the row after the last one; with a
    value to show among them, that row is the [max_row] of the sheet. *)
Theorem create_headers_appends (self : ExcelCreator.t) (rs : list (list pyval))
        (header_row : list pyval) (w : world) :
  ExcelCreator.holds (ExcelCreator.sheet self) rs ->
  forallb Cell.accepts header_row = true ->
  exists self',
    ExcelCreator.create_headers self header_row w =
      (mkworld (trace w ++ [Log INFO "Creating Excel headers: %s" [AList header_row]]) (fs w),
       Ok self') /\
    ExcelCreator.holds (ExcelCreator.sheet self') (rs ++ [header_row]) /\
    (existsb Cell.shows header_row = true ->
     ExcelCreator.max_row (ExcelCreator.sheet self') = S (length rs)).
Proof.
  intros Hh Hacc.
  destruct (create_headers_run self header_row w Hacc) as (self' & Hrun & _ & Hrec).
  pose proof (holds_records _ _ _ _ Hh Hrec) as Hh'.
  exists self'. split; [exact Hrun|]. split; [exact Hh'|].
  intros Hshows. rewrite (max_row_holds _ _ Hh').
  - rewrite length_app. simpl. lia.
  - unfold ExcelCreator.last_row_shows. rewrite last_snoc. exact Hshows.
Qed.

Lemma create_headers_appends_witness :
  let self := ExcelCreator.mk "data.xlsx"
                (mkws (<[(1%nat, 2%nat) := VInt 1]> (<[(1%nat, 1%nat) := VStr "a"]> ∅)) 1) in
  exists self',
    ExcelCreator.create_headers self headers world0 =
      (mkworld (trace world0 ++ [Log INFO "Creating Excel headers: %s" [AList headers]])
               (fs world0),
       Ok self') /\
    ExcelCreator.holds (ExcelCreator.sheet self') ([[VStr "a"; VInt 1]] ++ [headers]) /\
    (existsb Cell.shows headers = true ->
     ExcelCreator.max_row (ExcelCreator.sheet self') = 2%nat).
Proof.
  intros self.
  apply (create_headers_appends self [[VStr "a"; VInt 1]] headers world0).
  - destruct (append_accepted (mkws ∅ 0) [VStr "a"; VInt 1] eq_refl) as (ws' & Happ & Hrec).
    injection Happ as <-.
    apply (holds_records (mkws ∅ 0) _ [] [VStr "a"; VInt 1] holds_empty Hrec).
  - reflexivity.
Defined.

(** [save_file] writes the sheet at the path [Path(ROBOT_ARTIFACTS) /
    filename], over whatever was there, and leaves the file at every other
    path as it was; saved a second time, the files are the same as after
    the first. *)
Theorem save_file_writes_one_file (e : env) (dir : string) (self : ExcelCreator.t)
        (w : world) :
  ROBOT_ARTIFACTS e = Some dir ->
  let path := output_path dir (ExcelCreator.filename self) in
  exists w1,
    ExcelCreator.save_file e self w = (w1, Ok tt) /\
    trace w1 = trace w ++ [Log INFO "Saving Excel file to %s" [AVal (VStr path)]] /\
    fs w1 !! path = Some (Xlsx (cells (ExcelCreator.sheet self))) /\
    (forall p, p <> path -> fs w1 !! p = fs w !! p) /\
    (exists w2, ExcelCreator.save_file e self w1 = (w2, Ok tt) /\ fs w2 = fs w1).
Proof.
  intros Hdir path.
  assert (forall w0, ExcelCreator.save_file e self w0 =
            (mkworld (trace w0 ++ [Log INFO "Saving Excel file to %s" [AVal (VStr path)]])
                     (<[path := Xlsx (cells (ExcelCreator.sheet self))]> (fs w0)), Ok tt)) as Hrun.
  { intros w0. unfold ExcelCreator.save_file, artifact_path. rewrite Hdir. reflexivity. }
  eexists. split; [apply Hrun|]. cbn [trace fs].
  split; [reflexivity|]. split; [apply lookup_insert_eq|]. split.
  - intros p Hp. apply lookup_insert_ne. congruence.
  - eexists. split; [apply Hrun|]. cbn [fs]. apply insert_insert_eq.
Qed.

Lemma save_file_writes_one_file_witness :
  let e := with_artifacts "output/" (sample_env 0 module_namespace) in
  let self := ExcelCreator.init "data.xlsx" in
  let path := "output/data.xlsx" in
  exists w1,
    ExcelCreator.save_file e self world0 = (w1, Ok tt) /\
    trace w1 = trace world0 ++ [Log INFO "Saving Excel file to %s" [AVal (VStr path)]] /\
    fs w1 !! path = Some (Xlsx (cells (ExcelCreator.sheet self))) /\
    (forall p, p <> path -> fs w1 !! p = fs world0 !! p) /\
    (exists w2, ExcelCreator.save_file e self w1 = (w2, Ok tt) /\ fs w2 = fs w1).
Proof.
  apply (save_file_writes_one_file (with_artifacts "output/" (sample_env 0 module_namespace))
           "output/" (ExcelCreator.init "data.xlsx") world0).
  reflexivity.
Defined.

(** Without [ROBOT_ARTIFACTS] the report is built and then lost: the
    headers and every row are taken, where the cells take them as they
    are, [save_file] raises [TypeError], and no file is written. *)
Theorem report_lost_without_directory (e : env) (name : string)
        (header_row : list pyval) (data : list (list pyval)) (w : world) :
  ROBOT_ARTIFACTS e = None ->
  ExcelCreator.accepted (header_row :: data) = true ->
  exists w1 what,
    write_report e name header_row data w = (w1, Raise (TypeError what)) /\
    fs w1 = fs w /\
    trace w1 =
      trace w ++ Log INFO "Creating Excel headers: %s" [AList header_row] ::
      ((fun row => Log INFO "Adding row to Excel: %s" [AList row]) <$> data).
Proof.
  intros Hdir Hacc.
  destruct (report_rows_run name header_row data w Hacc) as (self & Hrun & _ & _).
  eexists. eexists. split; [|split].
  - unfold write_report.
    rewrite <- (run_bind_assoc (ExcelCreator.create_headers (ExcelCreator.init name) header_row)
                               (fun self0 => add_rows self0 data)
                               (fun self1 => ExcelCreator.save_file e self1;; ret self1)).
    erewrite run_bind_ok by exact Hrun.
    apply run_bind_raise. apply run_bind_raise.
    unfold artifact_path. rewrite Hdir. reflexivity.
  - reflexivity.
  - reflexivity.
Qed.

Lemma report_lost_without_directory_witness :
  let e := mkenv ∅ march_15 None ∅ (hidden_after_clicks 0) "3"
                 (fun _ => mkresponse 200 "JPEG") module_namespace in
  exists w1 what,
    write_report e "data.xlsx" headers [[VStr "a"]; [VInt 2]] world0 =
      (w1, Raise (TypeError what)) /\
    fs w1 = fs world0 /\
    trace w1 =
      trace world0 ++ Log INFO "Creating Excel headers: %s" [AList headers] ::
      ((fun row => Log INFO "Adding row to Excel: %s" [AList row]) <$>
         [[VStr "a"]; [VInt 2]]).
Proof.
  apply (report_lost_without_directory
           (mkenv ∅ march_15 None ∅ (hidden_after_clicks 0) "3"
                  (fun _ => mkresponse 200 "JPEG") module_namespace)
           "data.xlsx" headers [[VStr "a"]; [VInt 2]] world0); reflexivity.
Defined.

(** ** The loop over the articles, where the name [i] is bound *)

Lemma download_image_run (e : env) (dir name : string) (a : article) (w : world) :
  ROBOT_ARTIFACTS e = Some dir ->
  download_image e (image_src a) name w =
    (mkworld (trace w ++ download_events e (output_path dir name) a)
             (store_image e (output_path dir name) (fs w) a),
     Ok tt).
Proof.
  intros Hdir. unfold download_image, artifact_path. rewrite Hdir.
  generalize (output_path dir name). intros path.
  unfold download_events, store_image, downloaded.
  unfold mbind, M_bind, bind, mret, M_ret, ret, requests.get, logging.info,
    logging.error, write_file, emit; simpl.
  destruct (status_code (http e (image_src a)) =? 200); simpl;
    unfold failed_download; rewrite <- !app_assoc; reflexivity.
Qed.

Lemma process_article_run (e : env) (dir phrase : string) (i : pyobj)
      (excel_creator : ExcelCreator.t) (a : article) (w : world) :
  ROBOT_ARTIFACTS e = Some dir -> globals e !! "i" = Some i ->
  let picture := "img_" +:+ obj_str i +:+ ".jpg" in
  let path := output_path dir picture in
  forallb Cell.accepts (report_row a phrase picture) = true ->
  exists excel_creator',
    process_article e (VStr phrase) excel_creator a w =
      (mkworld (trace w ++ article_events e path phrase picture a)
               (store_image e path (fs w) a),
       Ok excel_creator') /\
    ExcelCreator.filename excel_creator' = ExcelCreator.filename excel_creator /\
    ExcelCreator.records (ExcelCreator.sheet excel_creator)
                         (ExcelCreator.sheet excel_creator') (report_row a phrase picture).
Proof.
  intros Hdir Hi picture path Hacc.
  set (w1 := mkworld (trace w ++ download_events e path a) (store_image e path (fs w) a)).
  destruct (add_row_run excel_creator (report_row a phrase picture) w1 Hacc)
    as (excel_creator' & Hrun & Hname & Hrec).
  exists excel_creator'. split; [|split; assumption].
  unfold process_article, load_global, expect_str.
  rewrite (run_bind_ok _ _ w w phrase) by reflexivity. rewrite Hi.
  rewrite (run_bind_ok _ _ w w i) by reflexivity.
  rewrite (run_bind_ok _ _ w w1 tt) by (apply download_image_run, Hdir).
  rewrite (run_bind_ok _ _ w1 w1 i) by reflexivity.
  unfold w1 in Hrun. cbn [trace fs] in Hrun. unfold article_events.
  rewrite app_assoc. exact Hrun.
Qed.

Lemma process_articles_run (e : env) (dir phrase : string) (i : pyobj)
      (articles : list article) (excel_creator : ExcelCreator.t) (w : world) :
  ROBOT_ARTIFACTS e = Some dir -> globals e !! "i" = Some i ->
  let picture := "img_" +:+ obj_str i +:+ ".jpg" in
  let path := output_path dir picture in
  recordable articles phrase picture = true ->
  exists excel_creator',
    process_articles e (VStr phrase) excel_creator articles w =
      (mkworld (trace w ++ (articles ≫= article_events e path phrase picture))
               (foldl (store_image e path) (fs w) articles),
       Ok excel_creator') /\
    ExcelCreator.filename excel_creator' = ExcelCreator.filename excel_creator /\
    forall rs, ExcelCreator.holds (ExcelCreator.sheet excel_creator) rs ->
      ExcelCreator.holds (ExcelCreator.sheet excel_creator')
        (rs ++ ((fun a => report_row a phrase picture) <$> articles)).
Proof.
  intros Hdir Hi picture path. revert excel_creator w.
  induction articles as [|a articles IH]; intros excel_creator w Hacc.
  - exists excel_creator. split; [|split; [reflexivity|]].
    + simpl. rewrite app_nil_r. destruct w. reflexivity.
    + intros rs Hh. simpl. rewrite app_nil_r. exact Hh.
  - unfold recordable in Hacc. simpl in Hacc. apply andb_true_iff in Hacc as [Ha Hacc].
    destruct (process_article_run e dir phrase i excel_creator a w Hdir Hi Ha)
      as (xl1 & Hrun1 & Hname1 & Hrec1).
    destruct (IH xl1 (mkworld (trace w ++ article_events e path phrase picture a)
                              (store_image e path (fs w) a)) Hacc)
      as (xl' & Hrun & Hname & Hh').
    exists xl'. split; [|split].
    + simpl process_articles. rewrite (run_bind_ok _ _ _ _ _ Hrun1).
      etransitivity; [exact Hrun|].
      cbn [trace fs]. csimpl. rewrite <- app_assoc. reflexivity.
    + congruence.
    + intros rs Hh. specialize (Hh' (rs ++ [report_row a phrase picture])
                                   (holds_records _ _ _ _ Hh Hrec1)).
      rewrite <- app_assoc in Hh'. exact Hh'.
Qed.

Lemma fetched_article_events e path phrase picture (articles : list article) :
  fetched (articles ≫= article_events e path phrase picture) = image_src <$> articles /\
  fetch_targets (articles ≫= article_events e path phrase picture) =
    replicate (length articles) path.
Proof.
  induction articles as [|a articles [IH1 IH2]]; [split; reflexivity|].
  unfold fetched, fetch_targets in *. csimpl. rewrite !omap_app, IH1, IH2.
  unfold article_events, download_events, failed_download.
  destruct (status_code (http e (image_src a)) =? 200); split; reflexivity.
Qed.

(** Where [i] is bound and the cells take the texts of the articles as
    they are, the loop makes one fetch and one row for each article, in
    the order of the articles; every fetch goes to the same destination
    and every row names the same picture, [img_<i>.jpg], since nothing in
    the loop changes [i]. *)
Theorem article_loop_one_picture_name (e : env) (dir phrase : string) (i : pyobj)
        (articles : list article) (rs : list (list pyval))
        (excel_creator : ExcelCreator.t) (w : world) :
  ROBOT_ARTIFACTS e = Some dir -> globals e !! "i" = Some i ->
  ExcelCreator.holds (ExcelCreator.sheet excel_creator) rs ->
  let picture := "img_" +:+ obj_str i +:+ ".jpg" in
  recordable articles phrase picture = true ->
  exists w1 excel_creator1 t,
    process_articles e (VStr phrase) excel_creator articles w = (w1, Ok excel_creator1) /\
    trace w1 = trace w ++ t /\
    fetched t = image_src <$> articles /\
    fetch_targets t = replicate (length articles) (output_path dir picture) /\
    ExcelCreator.holds (ExcelCreator.sheet excel_creator1)
      (rs ++ ((fun a => report_row a phrase picture) <$> articles)).
Proof.
  intros Hdir Hi Hh picture Hacc.
  destruct (process_articles_run e dir phrase i articles excel_creator w Hdir Hi Hacc)
    as (excel_creator1 & Hrun & _ & Hh').
  eexists. exists excel_creator1. eexists. split; [exact Hrun|].
  cbn [trace]. split; [reflexivity|].
  split; [apply fetched_article_events|]. split; [apply fetched_article_events|].
  apply Hh', Hh.
Qed.

Lemma article_loop_one_picture_name_witness :
  let e := with_artifacts "output/" (sample_env 0 (with_driver_and_i 0)) in
  exists w1 excel_creator1 t,
    process_articles e (VStr "Economy") (ExcelCreator.init "data.xlsx")
                     sample_articles world0 = (w1, Ok excel_creator1) /\
    trace w1 = trace world0 ++ t /\
    fetched t = image_src <$> sample_articles /\
    fetch_targets t = replicate (length sample_articles) "output/img_0.jpg" /\
    ExcelCreator.holds (ExcelCreator.sheet excel_creator1)
      ([] ++ ((fun a => report_row a "Economy" "img_0.jpg") <$> sample_articles)).
Proof.
  apply (article_loop_one_picture_name
           (with_artifacts "output/" (sample_env 0 (with_driver_and_i 0))) "output/"
           "Economy" (OVal (VInt 0)) sample_articles [] (ExcelCreator.init "data.xlsx")
           world0).
  - reflexivity.
  - vm_compute. reflexivity.
  - apply holds_empty.
  - vm_compute. reflexivity.
Defined.

Lemma foldl_store_image (e : env) (path : string) (articles : list article)
      (files : gmap string file) :
  (forall p, p <> path -> foldl (store_image e path) files articles !! p = files !! p) /\
  foldl (store_image e path) files articles !! path =
    match last (List.filter (downloaded e) articles) with
    | Some a => Some (Bytes (raw (http e (image_src a))))
    | None => files !! path
    end.
Proof.
  induction articles as [|a articles IH] using rev_ind; [split; reflexivity|].
  rewrite foldl_app, List.filter_app. simpl foldl. simpl List.filter.
  unfold store_image at 1 3. destruct IH as [IH1 IH2].
  destruct (downloaded e a) eqn:E.
  - split.
    + intros p Hp. rewrite lookup_insert_ne by congruence. apply IH1, Hp.
    + rewrite lookup_insert_eq, last_snoc. reflexivity.
  - rewrite app_nil_r. split; [exact IH1|exact IH2].
Qed.

(** Where [i] is bound and the cells take the texts of the articles as
    they are, the loop writes at most one image file, however many
    articles there are: the file at every path but
    [Path(ROBOT_ARTIFACTS) / img_<i>.jpg] is as before, and that file
    holds the picture of the last article whose download succeeded, or
    what it held before when none did. *)
Theorem article_loop_one_picture_file (e : env) (dir phrase : string) (i : pyobj)
        (articles : list article) (excel_creator : ExcelCreator.t) (w : world) :
  ROBOT_ARTIFACTS e = Some dir -> globals e !! "i" = Some i ->
  let picture := "img_" +:+ obj_str i +:+ ".jpg" in
  let path := output_path dir picture in
  recordable articles phrase picture = true ->
  exists w1 excel_creator1,
    process_articles e (VStr phrase) excel_creator articles w = (w1, Ok excel_creator1) /\
    (forall p, p <> path -> fs w1 !! p = fs w !! p) /\
    fs w1 !! path =
      match last (List.filter (downloaded e) articles) with
      | Some a => Some (Bytes (raw (http e (image_src a))))
      | None => fs w !! path
      end.
Proof.
  intros Hdir Hi picture path Hacc.
  destruct (process_articles_run e dir phrase i articles excel_creator w Hdir Hi Hacc)
    as (excel_creator1 & Hrun & _ & _).
  eexists. exists excel_creator1. split; [exact Hrun|].
  cbn [fs]. apply foldl_store_image.
Qed.

Lemma article_loop_one_picture_file_witness :
  let e := with_artifacts "output/" (sample_env 0 (with_driver_and_i 0)) in
  let path := "output/img_0.jpg" in
  exists w1 excel_creator1,
    process_articles e (VStr "Economy") (ExcelCreator.init "data.xlsx")
                     sample_articles world0 = (w1, Ok excel_creator1) /\
    (forall p, p <> path -> fs w1 !! p = fs world0 !! p) /\
    fs w1 !! path =
      match last (List.filter (downloaded e) sample_articles) with
      | Some a => Some (Bytes (raw (http e (image_src a))))
      | None => fs world0 !! path
      end.
Proof.
  apply (article_loop_one_picture_file
           (with_artifacts "output/" (sample_env 0 (with_driver_and_i 0))) "output/"
           "Economy" (OVal (VInt 0)) sample_articles (ExcelCreator.init "data.xlsx")
           world0).
  - reflexivity.
  - vm_compute. reflexivity.
  - vm_compute. reflexivity.
Defined.

(** A [Phrase] that is not a string stops the loop at its first article
    with [AttributeError], before any fetch and any row; with no article
    the loop does nothing and does not notice. *)
Theorem phrase_not_a_string_raises (e : env) (v : pyval) (excel_creator : ExcelCreator.t)
        (a : article) (rest : list article) (w : world) :
  (forall s, v <> VStr s) ->
  process_articles e v excel_creator (a :: rest) w =
    (w, Raise (AttributeError "object has no attribute 'lower'")) /\
  process_articles e v excel_creator [] w = (w, Ok excel_creator).
Proof.
  intros Hv. split; [|reflexivity].
  simpl process_articles. apply run_bind_raise.
  unfold process_article. apply run_bind_raise.
  destruct v; try reflexivity. exfalso. exact (Hv s eq_refl).
Qed.

Lemma phrase_not_a_string_raises_witness :
  process_articles (sample_env 0 (with_driver_and_i 0)) (VInt 5)
                   (ExcelCreator.init "data.xlsx") sample_articles world0 =
    (world0, Raise (AttributeError "object has no attribute 'lower'")).
Proof.
  apply (proj1 (phrase_not_a_string_raises (sample_env 0 (with_driver_and_i 0)) (VInt 5)
                  (ExcelCreator.init "data.xlsx")
                  (mkarticle "Economy grows" "http://img/1.jpg"
                             "The economy added $5 billion" "1 day ago")
                  _ world0 ltac:(discriminate))).
Defined.

(** Without [ROBOT_ARTIFACTS] the first article stops the loop with
    [TypeError]: nothing is requested, logged or recorded for it. *)
Theorem article_loop_without_directory (e : env) (phrase : string) (i : pyobj)
        (excel_creator : ExcelCreator.t) (a : article) (rest : list article) (w : world) :
  ROBOT_ARTIFACTS e = None -> globals e !! "i" = Some i ->
  exists what,
    process_articles e (VStr phrase) excel_creator (a :: rest) w =
      (w, Raise (TypeError what)).
Proof.
  intros Hdir Hi. eexists. simpl process_articles. apply run_bind_raise.
  unfold process_article, load_global, expect_str.
  erewrite run_bind_ok by reflexivity. rewrite Hi.
  erewrite run_bind_ok by reflexivity.
  apply run_bind_raise. unfold download_image. apply run_bind_raise.
  unfold artifact_path. rewrite Hdir. reflexivity.
Qed.

Lemma article_loop_without_directory_witness :
  let e := mkenv ∅ march_15 None ∅ (hidden_after_clicks 0) "3"
                 (fun _ => mkresponse 200 "JPEG") (with_driver_and_i 0) in
  exists what,
    process_articles e (VStr "Economy") (ExcelCreator.init "data.xlsx")
                     sample_articles world0 = (world0, Raise (TypeError what)).
Proof.
  apply (article_loop_without_directory
           (mkenv ∅ march_15 None ∅ (hidden_after_clicks 0) "3"
                  (fun _ => mkresponse 200 "JPEG") (with_driver_and_i 0))
           "Economy" (OVal (VInt 0)) (ExcelCreator.init "data.xlsx")).
  - reflexivity.
  - vm_compute. reflexivity.
Defined.

(** ** phrase_counter at its edges *)

Lemma phrase_counter_eq (text phrase : string) :
  FoxNewsSearch.phrase_counter text phrase =
    Z.of_nat (length (filter
      (fun i => slice (Str.split (Str.lower text)) i
                      (i + length (Str.split (Str.lower phrase))) =
                Str.split (Str.lower phrase))
      (range (Z.of_nat (length (Str.split (Str.lower text)))
              - Z.of_nat (length (Str.split (Str.lower phrase))) + 1)))).
Proof. unfold FoxNewsSearch.phrase_counter. apply sum_ones. Qed.

Lemma filter_all {A} (P : A -> Prop) `{forall x, Decision (P x)} (l : list A) :
  (forall x, P x) -> filter P l = l.
Proof.
  intros HP. induction l as [|x l IH]; [reflexivity|].
  rewrite filter_cons_True by apply HP. rewrite IH. reflexivity.
Qed.

(** A phrase with no word in it, empty or all whitespace, is counted once
    at every position of the text, the end included: one more than the
    number of words of the text. *)
Theorem phrase_counter_empty_phrase (text phrase : string) :
  Str.split (Str.lower phrase) = [] ->
  FoxNewsSearch.phrase_counter text phrase =
    Z.of_nat (length (Str.split (Str.lower text))) + 1.
Proof.
  intros Hp. rewrite phrase_counter_eq, Hp. simpl length.
  rewrite filter_all.
  - unfold range. rewrite length_seq. lia.
  - intros i. unfold slice.
    replace (i + 0 - i)%nat with O by lia. reflexivity.
Qed.

Lemma phrase_counter_empty_phrase_witness :
  FoxNewsSearch.phrase_counter "The economy grows" "  " =
    Z.of_nat (length (Str.split (Str.lower "The economy grows"))) + 1.
Proof.
  apply (phrase_counter_empty_phrase "The economy grows" "  ").
  vm_compute. reflexivity.
Defined.

(** The count is never negative and never more than the number of start
    positions that leave room for the phrase. *)
Theorem phrase_counter_bounds (text phrase : string) :
  0 <= FoxNewsSearch.phrase_counter text phrase <=
    Z.max 0 (Z.of_nat (length (Str.split (Str.lower text)))
             - Z.of_nat (length (Str.split (Str.lower phrase))) + 1).
Proof.
  rewrite phrase_counter_eq.
  match goal with |- context [length (filter ?P ?l)] =>
    pose proof (length_filter P l) as Hle; unfold range in Hle;
    rewrite length_seq in Hle
  end.
  unfold range in *. lia.
Qed.

(** Two texts with the same words, whatever their case and their spacing,
    contain each other exactly once; so does the empty text itself. *)
Theorem phrase_counter_same_words (text phrase : string) :
  Str.split (Str.lower text) = Str.split (Str.lower phrase) ->
  FoxNewsSearch.phrase_counter text phrase = 1.
Proof.
  intros Heq. rewrite phrase_counter_eq, Heq.
  replace (Z.of_nat (length (Str.split (Str.lower phrase)))
           - Z.of_nat (length (Str.split (Str.lower phrase))) + 1) with 1 by lia.
  change (range 1) with [O]. rewrite filter_cons, filter_nil.
  rewrite decide_True; [reflexivity|].
  unfold slice. simpl drop. replace (0 + length (Str.split (Str.lower phrase)) - 0)%nat
    with (length (Str.split (Str.lower phrase))) by lia.
  apply firstn_all.
Qed.

Lemma phrase_counter_same_words_witness :
  FoxNewsSearch.phrase_counter "  The   ECONOMY grows " "the economy Grows" = 1.
Proof.
  apply (phrase_counter_same_words "  The   ECONOMY grows " "the economy Grows").
  vm_compute. reflexivity.
Defined.

(** ** The formats of numbers *)

(** A month, a day or a year index from 0 to 99 is written as its two
    decimal digits, the tens first. *)
Theorem two_digits_form (n : Z) :
  0 <= n < 100 ->
  two_digits n = String (digit_char (n / 10)) (String (digit_char (n mod 10)) EmptyString).
Proof.
  intros Hn.
  assert (forallb (fun k => bool_decide
            (two_digits k =
             String (digit_char (k / 10)) (String (digit_char (k mod 10)) EmptyString)))
            (seqZ 0 100) = true) as Hall by (vm_compute; reflexivity).
  rewrite forallb_forall in Hall.
  eapply bool_decide_eq_true_1, Hall, list_elem_of_In, elem_of_seqZ. lia.
Qed.

Lemma two_digits_form_witness :
  two_digits 7 = String (digit_char (7 / 10)) (String (digit_char (7 mod 10)) EmptyString).
Proof. apply (two_digits_form 7). lia. Defined.

Lemma int_digits_bad_char (c : ascii) (cs : list ascii) (acc : Z) :
  c ∈ cs -> Str.isdigit c = false -> Ascii.eqb c "_" = false ->
  int_digits acc cs = None.
Proof.
  intros Hin Hd Hu. revert acc. induction cs as [|x cs IH]; intros acc.
  - inversion Hin.
  - simpl. destruct (Str.isdigit x) eqn:Ex.
    + apply IH. apply elem_of_cons in Hin as [->|Hin]; [congruence|exact Hin].
    + destruct (Ascii.eqb x "_") eqn:Eu; [|reflexivity].
      destruct cs as [|d cs']; [reflexivity|].
      destruct (Str.isdigit d); [|reflexivity].
      apply IH. apply elem_of_cons in Hin as [->|Hin]; [congruence|exact Hin].
Qed.

(** What [int] skips is whitespace for [str.isspace] as well. *)
Lemma Py_ISSPACE_isspace (c : ascii) : Str.isspace c = false -> Py_ISSPACE c = false.
Proof.
  unfold Str.isspace, Py_ISSPACE. intros H.
  destruct (N.leb_spec 9 (Str.code c)), (N.leb_spec (Str.code c) 13),
    (N.leb_spec 28 (Str.code c)), (N.leb_spec (Str.code c) 32),
    (N.eqb_spec (Str.code c) 32); simpl in *; try reflexivity; try discriminate H; lia.
Qed.

Lemma elem_of_lstrip (c : ascii) (cs : list ascii) :
  c ∈ cs -> Py_ISSPACE c = false -> c ∈ lstrip cs.
Proof.
  intros Hin Hs. induction cs as [|x cs IH]; [inversion Hin|].
  simpl. destruct (Py_ISSPACE x) eqn:Ex; [|exact Hin].
  apply IH. apply elem_of_cons in Hin as [->|Hin]; [congruence|exact Hin].
Qed.

Lemma elem_of_strip (c : ascii) (cs : list ascii) :
  c ∈ cs -> Py_ISSPACE c = false -> c ∈ strip cs.
Proof.
  intros Hin Hs. unfold strip.
  apply list_elem_of_In, in_rev. rewrite rev_involutive. apply list_elem_of_In.
  apply elem_of_lstrip; [|exact Hs].
  apply list_elem_of_In, in_rev. rewrite rev_involutive. apply list_elem_of_In.
  apply elem_of_lstrip; assumption.
Qed.

(** [int] of the result counter: a text with any character other than a
    digit, whitespace, an underscore or a sign, such as the comma of
    [1,234], raises [ValueError]. *)
Lemma int_of_str_rejects (text : string) (c : ascii) (w : world) :
  c ∈ list_ascii_of_string text -> int_char c = false ->
  int_of_str text w = (w, Raise (ValueError "invalid literal for int() with base 10")).
Proof.
  intros Hin Hc. unfold int_char in Hc.
  apply orb_false_iff in Hc as [Hc Hminus]. apply orb_false_iff in Hc as [Hc Hplus].
  apply orb_false_iff in Hc as [Hc Hunder]. apply orb_false_iff in Hc as [Hdigit Hspace].
  assert (c ∈ strip (list_ascii_of_string text)) as Hs
    by (apply elem_of_strip; [assumption|apply Py_ISSPACE_isspace; assumption]).
  assert (forall cs, c ∈ cs -> unsigned_int cs = None) as Hu.
  { intros cs Hcs. unfold unsigned_int. destruct cs as [|d cs']; [reflexivity|].
    destruct (Str.isdigit d); [|reflexivity].
    apply (int_digits_bad_char c); assumption. }
  unfold int_of_str.
  destruct (strip (list_ascii_of_string text)) as [|x cs] eqn:E; [inversion Hs|].
  pose proof (Hu (x :: cs) Hs) as Hx.
  assert (c ∈ cs \/ x = c) as Hcase.
  { apply elem_of_cons in Hs as [->|Hs]; auto. }
  clear E Hs Hin.
  destruct x as [[] [] [] [] [] [] [] []]; cbv beta iota;
    first
      [ rewrite Hx; reflexivity
      | destruct Hcase as [Hcs|Heq];
        [ rewrite (Hu cs Hcs); reflexivity
        | subst c; first [discriminate Hminus | discriminate Hplus] ] ].
Qed.

Lemma int_of_str_rejects_witness :
  int_of_str "1,234" world0 =
    (world0, Raise (ValueError "invalid literal for int() with base 10")).
Proof.
  apply (int_of_str_rejects "1,234" ","%char world0).
  - vm_compute. apply list_elem_of_In. simpl. auto.
  - reflexivity.
Defined.

(** A text with no dollar sign and with neither [dollars] nor [USD] in it
    has no money in it: an instance. *)
Lemma contains_money_needs_marker_witness :
  FoxNewsSearch.contains_money "7 men" = false.
Proof.
  apply (contains_money_needs_marker "7 men").
  - intros H. apply list_elem_of_In in H. simpl in H.
    repeat (destruct H as [H|H]; [discriminate H|]). exact H.
  - intros pre post H. apply (f_equal length) in H.
    rewrite !length_app in H. simpl in H. lia.
  - intros pre post H.
    destruct pre as [|? [|? [|? pre]]]; simpl in H; try discriminate H.
    apply (f_equal length) in H. simpl in H. rewrite !length_app in H. simpl in H. lia.
Defined.

(** ** What the module as written can never do *)

Section Inert.

Lemma inert_ret {A} (a : A) : inert (mret a).
Proof.
  intros w w' r [= <- <-]. split; [reflexivity|]. exists [].
  rewrite app_nil_r. split; [reflexivity|constructor].
Qed.

Lemma inert_raise {A} (x : exn) : inert (@raise A x).
Proof.
  intros w w' r [= <- <-]. split; [reflexivity|]. exists [].
  rewrite app_nil_r. split; [reflexivity|constructor].
Qed.

Lemma inert_diverge {A} : inert (@diverge A).
Proof.
  intros w w' r [= <- <-]. split; [reflexivity|]. exists [].
  rewrite app_nil_r. split; [reflexivity|constructor].
Qed.

Lemma inert_get_trace : inert get_trace.
Proof.
  intros w w' r [= <- <-]. split; [reflexivity|]. exists [].
  rewrite app_nil_r. split; [reflexivity|constructor].
Qed.

Lemma inert_emit (ev : event) : no_fetch ev -> inert (emit ev).
Proof.
  intros Hev w w' r [= <- <-]. split; [reflexivity|]. exists [ev].
  split; [reflexivity|]. constructor; [exact Hev|constructor].
Qed.

Lemma inert_bind {A B} (m : M A) (k : A -> M B) :
  inert m -> (forall a, inert (k a)) -> inert (m ≫= k).
Proof.
  intros Hm Hk w w' r H. rewrite run_bind in H.
  destruct (m w) as [w1 [a|x|]] eqn:E.
  - destruct (Hm _ _ _ E) as (Hf1 & t1 & Ht1 & HP1).
    destruct (Hk a _ _ _ H) as (Hf2 & t2 & Ht2 & HP2).
    split; [congruence|]. exists (t1 ++ t2).
    rewrite Ht2, Ht1, app_assoc. split; [reflexivity|]. apply Forall_app. auto.
  - inversion H; subst. exact (Hm _ _ _ E).
  - inversion H; subst. exact (Hm _ _ _ E).
Qed.

(** What follows a computation that never returns does not matter. *)
Lemma inert_bind_stuck {A B} (m : M A) (k : A -> M B) :
  inert m -> never_returns m -> inert (m ≫= k).
Proof.
  intros Hm Hs w w' r H. rewrite run_bind in H.
  destruct (m w) as [w1 [a|x|]] eqn:E.
  - exfalso. exact (Hs _ _ _ E a eq_refl).
  - inversion H; subst. exact (Hm _ _ _ E).
  - inversion H; subst. exact (Hm _ _ _ E).
Qed.

Lemma never_returns_raise {A} (x : exn) : never_returns (@raise A x).
Proof. intros w w' r [= <- <-] a. discriminate. Qed.

Lemma never_returns_bind_l {A B} (m : M A) (k : A -> M B) :
  never_returns m -> never_returns (m ≫= k).
Proof.
  intros Hs w w' r H. rewrite run_bind in H.
  destruct (m w) as [w1 [a|x|]] eqn:E.
  - exfalso. exact (Hs _ _ _ E a eq_refl).
  - inversion H; subst. intros b. discriminate.
  - inversion H; subst. intros b. discriminate.
Qed.

Lemma never_returns_bind_r {A B} (m : M A) (k : A -> M B) :
  (forall a, never_returns (k a)) -> never_returns (m ≫= k).
Proof.
  intros Hk w w' r H. rewrite run_bind in H.
  destruct (m w) as [w1 [a|x|]] eqn:E.
  - exact (Hk a _ _ _ H).
  - inversion H; subst. intros b. discriminate.
  - inversion H; subst. intros b. discriminate.
Qed.

Lemma inert_info msg args : inert (logging.info msg args).
Proof. apply inert_emit. reflexivity. Qed.

Lemma inert_error msg args : inert (logging.error msg args).
Proof. apply inert_emit. reflexivity. Qed.

Lemma inert_click target : inert (page.click target).
Proof. apply inert_emit. reflexivity. Qed.

Lemma inert_sleep secs : inert (time.sleep secs).
Proof. apply inert_emit. reflexivity. Qed.

Lemma inert_load_more_loop fuel e : inert (load_more_loop fuel e).
Proof.
  induction fuel as [|fuel IH]; cbn [load_more_loop]; [apply inert_diverge|].
  apply inert_bind.
  { unfold page.is_hidden. apply inert_bind; [apply inert_get_trace|intros t].
    apply inert_bind; [apply inert_emit; reflexivity|intros _]. apply inert_ret. }
  intros hidden. destruct hidden; [apply inert_ret|].
  apply inert_bind; [apply inert_click|intros _].
  apply inert_bind; [apply inert_sleep|intros _]. exact IH.
Qed.

Lemma inert_calculate ref months : inert (DateCalculator.calculate ref months).
Proof.
  intros w w' r H. destruct (calculate_world ref months) as (r0 & Hr).
  rewrite Hr in H. inversion H; subst. split; [reflexivity|].
  eexists. split; [reflexivity|]. constructor; [reflexivity|constructor].
Qed.

Lemma inert_open_and_filter e months query : inert (open_and_filter e months query).
Proof.
  unfold open_and_filter.
  apply inert_bind; [apply inert_calculate|intros [start_date actual_date]].
  cbv zeta.
  apply inert_bind; [apply inert_info|intros _].
  apply inert_bind; [apply inert_emit; reflexivity|intros _].
  apply inert_bind; [apply inert_emit; reflexivity|intros _].
  apply inert_bind.
  { unfold secret. destruct (secrets e !! "url"); [apply inert_ret|apply inert_raise]. }
  intros url.
  apply inert_bind; [apply inert_emit; reflexivity|intros _].
  apply inert_bind; [apply inert_sleep|intros _].
  apply inert_bind.
  { unfold perform_search, page.fill.
    apply inert_bind; [apply inert_info|intros _].
    apply inert_bind; [apply inert_click|intros _].
    apply inert_bind; [apply inert_emit; reflexivity|intros _].
    apply inert_bind; [apply inert_click|intros _]. apply inert_sleep. }
  intros _. unfold select_date_range.
  repeat (apply inert_bind;
          [first [apply inert_info|apply inert_click|apply inert_sleep]|intros _]).
  apply inert_click.
Qed.

Lemma load_global_unbound e name :
  globals e !! name = None ->
  inert (load_global e name) /\ never_returns (load_global e name).
Proof.
  intros H. unfold load_global. rewrite H.
  split; [apply inert_raise|apply never_returns_raise].
Qed.

(** With [driver] unbound, lines 201-268 stop at line 227 at the latest. *)
Lemma collect_news_stuck fuel e phrase :
  globals e !! "driver" = None ->
  inert (collect_news fuel e phrase) /\ never_returns (collect_news fuel e phrase).
Proof.
  intros Hd. destruct (load_global_unbound e "driver" Hd) as [Hi Hn].
  unfold collect_news. split.
  - apply inert_bind; [apply inert_info|intros _].
    apply inert_bind; [apply inert_click|intros _].
    apply inert_bind; [apply inert_sleep|intros _].
    apply inert_bind; [apply inert_info|intros _].
    apply inert_bind; [apply inert_load_more_loop|intros _].
    apply inert_bind; [apply inert_info|intros _].
    apply inert_bind.
    { unfold page.inner_text. apply inert_bind; [apply inert_emit; reflexivity|intros _].
      apply inert_ret. }
    intros text. apply inert_bind.
    { unfold int_of_str. case_match; [apply inert_ret|apply inert_raise]. }
    intros news_amount.
    apply inert_bind; [apply inert_info|intros _].
    apply inert_bind; [apply inert_info|intros _].
    apply inert_bind.
    { unfold ExcelCreator.create_headers. apply inert_bind; [apply inert_info|intros _].
      apply inert_ret. }
    intros xl. apply inert_bind_stuck; assumption.
  - do 11 (apply never_returns_bind_r; intros ?).
    apply never_returns_bind_l. exact Hn.
Qed.

Lemma inert_ext {A} (m m' : M A) : (forall w, m w = m' w) -> inert m' -> inert m.
Proof. intros Heq Hm w w' r H. rewrite Heq in H. exact (Hm w w' r H). Qed.

Lemma never_returns_ext {A} (m m' : M A) :
  (forall w, m w = m' w) -> never_returns m' -> never_returns m.
Proof. intros Heq Hm w w' r H. rewrite Heq in H. exact (Hm w w' r H). Qed.

(** The text that [inner_text] hands on is the counter of the page. *)
Lemma inner_text_bind {B} e target (k : string -> M B) w :
  (page.inner_text e target ≫= k) w =
  (emit (InnerText target) ≫= fun _ => k (num_found e)) w.
Proof. reflexivity. Qed.

(** With a counter text that [int] rejects, lines 201-268 stop at line 217. *)
Lemma collect_news_bad_counter fuel e phrase (c : ascii) :
  c ∈ list_ascii_of_string (num_found e) -> int_char c = false ->
  inert (collect_news fuel e phrase) /\ never_returns (collect_news fuel e phrase).
Proof.
  intros Hin Hc.
  assert (inert (int_of_str (num_found e)) /\ never_returns (int_of_str (num_found e)))
    as [Hi Hn].
  { split; intros w w' r H; rewrite (int_of_str_rejects _ c w Hin Hc) in H;
      inversion H; subst.
    - split; [reflexivity|]. exists []. rewrite app_nil_r. split; [reflexivity|constructor].
    - intros a. discriminate. }
  unfold collect_news. split.
  - apply inert_bind; [apply inert_info|intros _].
    apply inert_bind; [apply inert_click|intros _].
    apply inert_bind; [apply inert_sleep|intros _].
    apply inert_bind; [apply inert_info|intros _].
    apply inert_bind; [apply inert_load_more_loop|intros _].
    apply inert_bind; [apply inert_info|intros _].
    eapply inert_ext; [intros w; apply inner_text_bind|].
    apply inert_bind; [apply inert_emit; reflexivity|intros _].
    apply inert_bind_stuck; assumption.
  - do 6 (apply never_returns_bind_r; intros ?).
    eapply never_returns_ext; [intros w; apply inner_text_bind|].
    apply never_returns_bind_r; intros _.
    apply never_returns_bind_l. exact Hn.
Qed.

Lemma fetched_no_fetch t : Forall no_fetch t -> fetched t = [].
Proof.
  induction 1 as [|ev t Hev _ IH]; [reflexivity|].
  unfold fetched in *. csimpl. rewrite Hev. exact IH.
Qed.

End Inert.

(** A run whose part from line 201 on cannot return and is inert writes
    no file and requests nothing; it returns normally only by rejecting a
    negative [Month]. *)
Lemma stuck_news_no_output (e : env) (fuel : nat) (w : world) :
  inert (collect_news fuel e (default (VStr "Economy") (payload e !! "Phrase"))) ->
  never_returns (collect_news fuel e (default (VStr "Economy") (payload e !! "Phrase"))) ->
  exists w' r t,
    minimal_task fuel e w = (w', r) /\
    fs w' = fs w /\
    trace w' = trace w ++ t /\ fetched t = [] /\
    (r = Ok tt -> exists n, payload e !! "Month" = Some (VInt n) /\ n < 0).
Proof.
  intros Hci Hcn.
  destruct (minimal_task fuel e w) as [w' r] eqn:Hrun.
  assert (inert (minimal_task fuel e)) as Hinert.
  { unfold minimal_task.
    apply inert_bind; [apply inert_info|intros _].
    apply inert_bind; [apply inert_info|intros _]. cbv zeta.
    apply inert_bind.
    { unfold py_lt. case_match; first [apply inert_ret|apply inert_raise]. }
    intros negative. destruct negative; [apply inert_error|].
    apply inert_bind.
    { unfold py_sub. case_match; first [apply inert_ret|apply inert_raise]. }
    intros d. apply inert_bind; [apply inert_open_and_filter|intros _]. exact Hci. }
  destruct (Hinert _ _ _ Hrun) as (Hfs & t & Ht & Hquiet).
  exists w', r, t. split; [reflexivity|]. split; [exact Hfs|].
  split; [exact Ht|]. split; [apply fetched_no_fetch, Hquiet|].
  intros ->.
  destruct (payload e !! "Month") as [v|] eqn:Hm.
  - destruct v as [|b|n|s].
    + exfalso. revert Hrun. unfold minimal_task. rewrite Hm. simpl default.
      do 2 (erewrite run_bind_ok by reflexivity).
      unfold py_lt. intros [=].
    + exfalso. revert Hrun. unfold minimal_task. rewrite Hm. simpl default.
      do 2 (erewrite run_bind_ok by reflexivity).
      unfold py_lt. erewrite run_bind_ok by reflexivity.
      replace (bool_int b <? 0) with false by (destruct b; reflexivity).
      intros Hrun.
      eapply (never_returns_bind_r _ _ (fun d => never_returns_bind_r _ _ (fun _ => Hcn)));
        [exact Hrun|reflexivity].
    + destruct (n <? 0) eqn:E; [exists n; split; [reflexivity|apply Z.ltb_lt, E]|].
      exfalso. revert Hrun. unfold minimal_task. rewrite Hm. simpl default.
      do 2 (erewrite run_bind_ok by reflexivity).
      unfold py_lt. erewrite run_bind_ok by reflexivity. rewrite E.
      intros Hrun.
      eapply (never_returns_bind_r _ _ (fun d => never_returns_bind_r _ _ (fun _ => Hcn)));
        [exact Hrun|reflexivity].
    + exfalso. revert Hrun. unfold minimal_task. rewrite Hm. simpl default.
      do 2 (erewrite run_bind_ok by reflexivity).
      unfold py_lt. intros [=].
  - exfalso. revert Hrun. unfold minimal_task. rewrite Hm. simpl default.
    do 2 (erewrite run_bind_ok by reflexivity).
    unfold py_lt. intros [=].
Qed.

(** As long as nothing binds the name [driver], no run of the task writes
    a file or requests an image, whatever the payload, the page and the
    number of articles; and the only run that returns normally is the one
    that rejects a negative [Month]. *)
Theorem unbound_driver_no_output (e : env) (fuel : nat) (w : world) :
  globals e !! "driver" = None ->
  exists w' r t,
    minimal_task fuel e w = (w', r) /\
    fs w' = fs w /\
    trace w' = trace w ++ t /\ fetched t = [] /\
    (r = Ok tt -> exists n, payload e !! "Month" = Some (VInt n) /\ n < 0).
Proof.
  intros Hd. apply stuck_news_no_output; apply collect_news_stuck, Hd.
Qed.

Lemma unbound_driver_no_output_witness :
  let e := sample_env 2 module_namespace in
  exists w' r t,
    minimal_task 5 e world0 = (w', r) /\
    fs w' = fs world0 /\
    trace w' = trace world0 ++ t /\ fetched t = [] /\
    (r = Ok tt -> exists n, payload e !! "Month" = Some (VInt n) /\ n < 0).
Proof.
  apply (unbound_driver_no_output (sample_env 2 module_namespace) 5 world0).
  vm_compute. reflexivity.
Defined.

(** ** FoxNewsSearch.search and FoxNewsSearch.click *)

Section SeleniumSession.
Import Selenium.

Lemma click_run (page : dom) (xpath : string) (t : list action) :
  click page xpath t =
    if page (t ++ [Wait 2]) xpath
    then (t ++ [Wait 2; ElementClick xpath], Done tt)
    else (t ++ [Wait 2], NoSuchElementException xpath).
Proof.
  unfold click, find_element, act, mbind, Session_bind, session_bind. simpl.
  destruct (page (t ++ [Wait 2]) xpath); [|reflexivity].
  rewrite <- app_assoc. reflexivity.
Qed.

(** [search] looks the elements up one after the other and stops at the
    first that is missing: without the search toggle nothing is clicked or
    typed; the keyword is typed only after the click; the input is looked
    up again for ENTER, which is sent only if it is still there; in every
    case the keys sent are a prefix of the keyword followed by ENTER. *)
Theorem search_stops_at_missing_element (page : dom) (keyword : string) (t : list action) :
  let t1 := t ++ [Info "Performing search for: %s" [keyword]; Wait 2] in
  let t2 := t1 ++ [ElementClick button_xpath] in
  let t3 := t2 ++ [SendKeys search_input_xpath (Text keyword)] in
  let t4 := t3 ++ [SendKeys search_input_xpath ENTER] in
  (page t1 button_xpath = false ->
     search page keyword t = (t1, NoSuchElementException button_xpath)) /\
  (page t1 button_xpath = true -> page t2 search_input_xpath = false ->
     search page keyword t = (t2, NoSuchElementException search_input_xpath)) /\
  (page t1 button_xpath = true -> page t2 search_input_xpath = true ->
   page t3 search_input_xpath = false ->
     search page keyword t = (t3, NoSuchElementException search_input_xpath)) /\
  (page t1 button_xpath = true -> page t2 search_input_xpath = true ->
   page t3 search_input_xpath = true ->
     search page keyword t = (t4, Done tt)) /\
  (forall t' r, search page keyword t = (t', r) ->
     exists added, t' = t ++ added /\
       keys_sent added `prefix_of` [Text keyword; ENTER]).
Proof.
  intros t1 t2 t3 t4.
  assert (search page keyword t =
            if page t1 button_xpath then
              if page t2 search_input_xpath then
                if page t3 search_input_xpath then (t4, Done tt)
                else (t3, NoSuchElementException search_input_xpath)
              else (t2, NoSuchElementException search_input_xpath)
            else (t1, NoSuchElementException button_xpath)) as Hrun.
  { unfold search. unfold mbind at 1, Session_bind at 1, session_bind at 1, act at 1.
    unfold mbind at 1, Session_bind at 1, session_bind at 1. rewrite click_run.
    unfold t4, t3, t2, t1. rewrite <- !app_assoc. simpl app.
    destruct (page (t ++ [Info "Performing search for: %s" [keyword]; Wait 2]) button_xpath);
      [|reflexivity].
    unfold find_element, act, mbind, Session_bind, session_bind. simpl.
    destruct (page _ search_input_xpath); [|reflexivity].
    rewrite <- !app_assoc. simpl app.
    destruct (page _ search_input_xpath); [|reflexivity].
    rewrite <- !app_assoc. reflexivity. }
  repeat split.
  - intros H1. rewrite Hrun, H1. reflexivity.
  - intros H1 H2. rewrite Hrun, H1, H2. reflexivity.
  - intros H1 H2 H3. rewrite Hrun, H1, H2, H3. reflexivity.
  - intros H1 H2 H3. rewrite Hrun, H1, H2, H3. reflexivity.
  - intros t' r H. rewrite Hrun in H. unfold t4, t3, t2, t1 in H.
    rewrite <- !app_assoc in H. simpl app in H.
    repeat case_match; inversion H; subst; eexists; (split; [reflexivity|]);
      unfold keys_sent; simpl; solve
        [ exists [Text keyword; ENTER]; reflexivity
        | exists [ENTER]; reflexivity
        | exists []; reflexivity ].
Qed.

End SeleniumSession.

Lemma search_stops_at_missing_element_witness :
  let page : Selenium.dom :=
    fun t xpath => String.eqb xpath Selenium.button_xpath ||
                   existsb Selenium.is_click t in
  Selenium.search page "Economy" [] =
    ([Selenium.Info "Performing search for: %s" ["Economy"]; Selenium.Wait 2;
      Selenium.ElementClick Selenium.button_xpath;
      Selenium.SendKeys Selenium.search_input_xpath (Selenium.Text "Economy");
      Selenium.SendKeys Selenium.search_input_xpath Selenium.ENTER],
     Selenium.Done tt).
Proof.
  apply (proj1 (proj2 (proj2 (proj2 (search_stops_at_missing_element
           (fun t xpath => String.eqb xpath Selenium.button_xpath ||
                           existsb Selenium.is_click t)
           "Economy" []))))); reflexivity.
Defined.

(** A result counter that [int] rejects, such as [1,234] with its comma,
    stops every run at line 217: no report is created, no file written, no
    image requested. *)
Theorem bad_counter_no_output (e : env) (c : ascii) (fuel : nat) (w : world) :
  c ∈ list_ascii_of_string (num_found e) -> int_char c = false ->
  exists w' r t,
    minimal_task fuel e w = (w', r) /\
    fs w' = fs w /\
    trace w' = trace w ++ t /\ fetched t = [] /\
    (r = Ok tt -> exists n, payload e !! "Month" = Some (VInt n) /\ n < 0).
Proof.
  intros Hin Hc.
  apply stuck_news_no_output; apply (collect_news_bad_counter _ _ _ c); assumption.
Qed.

Lemma bad_counter_no_output_witness :
  let e := mkenv {["Month" := VInt 2]} march_15 (Some "output")
                 {["url" := "https://www.foxnews.com"]}
                 (hidden_after_clicks 0) "1,234" (fun _ => mkresponse 200 "JPEG")
                 (with_driver_and_i 0) in
  exists w' r t,
    minimal_task 5 e world0 = (w', r) /\
    fs w' = fs world0 /\
    trace w' = trace world0 ++ t /\ fetched t = [] /\
    (r = Ok tt -> exists n, payload e !! "Month" = Some (VInt n) /\ n < 0).
Proof.
  apply (bad_counter_no_output
           (mkenv {["Month" := VInt 2]} march_15 (Some "output")
                  {["url" := "https://www.foxnews.com"]}
                  (hidden_after_clicks 0) "1,234" (fun _ => mkresponse 200 "JPEG")
                  (with_driver_and_i 0))
           ","%char 5 world0).
  - apply list_elem_of_In. simpl. auto.
  - reflexivity.
Defined.
